(** * active_bom: a shallow embedding of [active_bom.py]

    The script reads a bill of materials, rewrites every line into a
    canonical part identifier, prices it against a distributor catalog and
    prints a report sorted by total price.

    Conventions of the embedding.
    - A Python [str] is a list of Unicode code points ([str := list N]);
      literals are written as UTF-8 text and decoded by [py].
    - A Python [int] is a [Z].
    - A Python [float] is a [pyfloat]: an exact rational, an infinity or
      NaN.  Arithmetic on finite values is exact: binary64 rounding and
      overflow are not part of the model.
    - A raised exception is the [Err] branch of [result].
    - The dictionaries that the script builds for a BOM line only ever hold
      a fixed set of string keys; they are finite maps from field names to
      dynamically typed values ([gmap string value]). *)

From Stdlib Require Import ZArith NArith QArith Qcanon List Ascii String Lia
  Permutation Sorted.
From stdpp Require Import base decidable option numbers list strings gmap
  fin_maps countable pretty.

#[local] Set Warnings "-clear-no-such-hyp".

Local Open Scope Z_scope.
Local Open Scope list_scope.

(** ** Python strings *)

Module PyStr.

Definition char := N.
Definition str := list N.

(** Decoding of the UTF-8 bytes of a literal into code points. *)
Fixpoint utf8_decode (bs : list N) : str :=
  match bs with
  | [] => []
  | b :: r =>
      if (b <? 128)%N then b :: utf8_decode r
      else if (b <? 224)%N then
        match r with
        | c1 :: r' => ((b mod 32) * 64 + c1 mod 64)%N :: utf8_decode r'
        | _ => []
        end
      else if (b <? 240)%N then
        match r with
        | c1 :: c2 :: r' =>
            ((b mod 16) * 4096 + (c1 mod 64) * 64 + c2 mod 64)%N
              :: utf8_decode r'
        | _ => []
        end
      else
        match r with
        | c1 :: c2 :: c3 :: r' =>
            ((b mod 8) * 262144 + (c1 mod 64) * 4096
             + (c2 mod 64) * 64 + c3 mod 64)%N :: utf8_decode r'
        | _ => []
        end
  end.

Fixpoint bytes_of (s : string) : list N :=
  match s with
  | EmptyString => []
  | String a r => N_of_ascii a :: bytes_of r
  end.

Definition py (s : string) : str := utf8_decode (bytes_of s).

Definition chr (s : string) : char :=
  match py s with c :: _ => c | [] => 0%N end.

(** [prefix in s] at the head of [s]: the rest of [s] after [p]. *)
Fixpoint strip_prefix (p s : str) : option str :=
  match p, s with
  | [], _ => Some s
  | a :: p', b :: s' => if (a =? b)%N then strip_prefix p' s' else None
  | _ :: _, [] => None
  end.

(** [sub in s] *)
Fixpoint contains (sub s : str) : bool :=
  match strip_prefix sub s with
  | Some _ => true
  | None => match s with [] => false | _ :: s' => contains sub s' end
  end.

(** Longest prefix of [s] whose characters satisfy [p], and the rest. *)
Fixpoint span (p : char -> bool) (s : str) : str * str :=
  match s with
  | c :: r => if p c then let '(a, b) := span p r in (c :: a, b) else ([], s)
  | [] => ([], [])
  end.

Definition dropwhile (p : char -> bool) (s : str) : str := snd (span p s).

(** [s.count(c)] for a one-character [c]. *)
Definition count_char (c : char) (s : str) : nat :=
  length (filter (λ x, x = c) s).

End PyStr.
Import PyStr.

(** ** normalize_filename *)

Definition UNDERSCORE : char := chr "_".

(** The character class of the first substitution: slash, angle brackets,
    colon, double quote (code point 34), backslash, bar, question mark,
    star and comma. *)
Definition INVALID_FILENAME_CHARS : str :=
  py "/<>:" ++ [34%N] ++ py "\|?*,".

Definition is_invalid (c : char) : bool :=
  bool_decide (c ∈ INVALID_FILENAME_CHARS).

(** [re.sub] of that class by an underscore. *)
Definition replace_invalid (mpn : str) : str :=
  map (λ c, if is_invalid c then UNDERSCORE else c) mpn.

(** [re.sub(r"_+", "_", s)]: every maximal run of underscores is replaced
    by one underscore (the last of the run is the one that is kept). *)
Fixpoint squeeze_underscores (s : str) : str :=
  match s with
  | [] => []
  | c :: r =>
      match r with
      | c' :: _ =>
          if ((c =? UNDERSCORE) && (c' =? UNDERSCORE))%N
          then squeeze_underscores r
          else c :: squeeze_underscores r
      | [] => [c]
      end
  end.

Definition is_underscore (c : char) : bool := (c =? UNDERSCORE)%N.

(** [s.strip("_")] *)
Definition lstrip_underscores (s : str) : str := dropwhile is_underscore s.
Definition rstrip_underscores (s : str) : str :=
  rev (dropwhile is_underscore (rev s)).
Definition strip_underscores (s : str) : str :=
  rstrip_underscores (lstrip_underscores s).

Definition normalize_filename (mpn : str) : str :=
  let valid_name := replace_invalid mpn in
  let valid_name := squeeze_underscores valid_name in
  let valid_name := strip_underscores valid_name in
  valid_name.

(** What the output of [normalize_filename] is free of. *)
Fixpoint has_double_underscore (s : str) : bool :=
  match s with
  | c :: r =>
      match r with
      | c' :: _ =>
          ((c =? UNDERSCORE) && (c' =? UNDERSCORE))%N
          || has_double_underscore r
      | [] => false
      end
  | [] => false
  end.

Definition starts_with_underscore (s : str) : bool :=
  match s with c :: _ => is_underscore c | [] => false end.

Definition ends_with_underscore (s : str) : bool :=
  starts_with_underscore (rev s).

Definition has_invalid_char (s : str) : bool := existsb is_invalid s.

(** ** Python floats *)

Inductive pyfloat :=
| FNaN
| FInf (negative : bool)
| FFin (q : Qc).

#[global] Instance pyfloat_eq_dec : EqDecision pyfloat.
Proof. solve_decision. Defined.

(** [float("inf")] *)
Definition float_inf : pyfloat := FInf false.

(** [float(n)] for an [int] *)
Definition float_of_int (n : Z) : pyfloat := FFin (Qc_of_Z n).

(** [a < b] on floats: false as soon as one side is NaN. *)
Definition float_lt (a b : pyfloat) : bool :=
  match a, b with
  | FNaN, _ | _, FNaN => false
  | FInf true, FInf true => false
  | FInf true, _ => true
  | _, FInf true => false
  | FInf false, _ => false
  | FFin _, FInf false => true
  | FFin x, FFin y => bool_decide (x < y)%Qc
  end.

Definition float_add (a b : pyfloat) : pyfloat :=
  match a, b with
  | FNaN, _ | _, FNaN => FNaN
  | FInf s, FInf s' => if Bool.eqb s s' then FInf s else FNaN
  | FInf s, FFin _ | FFin _, FInf s => FInf s
  | FFin x, FFin y => FFin (x + y)%Qc
  end.

Definition Qc_negative (x : Qc) : bool := bool_decide (x < 0)%Qc.

Definition float_mul (a b : pyfloat) : pyfloat :=
  match a, b with
  | FNaN, _ | _, FNaN => FNaN
  | FInf s, FInf s' => FInf (xorb s s')
  | FInf s, FFin x | FFin x, FInf s =>
      if bool_decide (x = 0)%Qc then FNaN else FInf (xorb s (Qc_negative x))
  | FFin x, FFin y => FFin (x * y)%Qc
  end.

(** [a / b]; [None] stands for the [ZeroDivisionError] of a zero divisor. *)
Definition float_div (a b : pyfloat) : option pyfloat :=
  match a, b with
  | _, FFin y =>
      if bool_decide (y = 0)%Qc then None
      else Some match a with
           | FNaN => FNaN
           | FInf s => FInf (xorb s (Qc_negative y))
           | FFin x => FFin (x / y)%Qc
           end
  | FNaN, _ | _, FNaN => Some FNaN
  | FInf _, FInf _ => Some FNaN
  | FFin _, FInf _ => Some (FFin 0%Qc)
  end.

(** ** Values, dictionaries, exceptions *)

Inductive value :=
| VStr (s : str)
| VInt (n : Z)
| VFloat (f : pyfloat).

#[global] Instance value_eq_dec : EqDecision value.
Proof. solve_decision. Defined.

(** The dictionary built for one BOM line. *)
Abbreviation dict := (gmap string value).

(** Key of [CAPACITOR_MAP]: voltage, value, dielectric, tolerance,
    footprint.  The table writes its voltages as [16] or [6.3] and the
    parser looks up [float] voltages; an [int] and the [float] equal to it
    are one and the same dictionary key, so the voltage is kept as the
    number it stands for. *)
Definition capacitor_key : Type := Qc * str * str * Z * str.

Inductive exn :=
| ValueError (msg : str)
| KeyError (key : str)
| KeyErrorCapacitor (key : capacitor_key)
| TypeError
| ZeroDivisionError
| HTTPError (status_code : Z)
| Exception (msg : str).

Inductive result (A : Type) :=
| Ok (a : A)
| Err (e : exn).
Arguments Ok {A} a.
Arguments Err {A} e.

Definition result_bind {A B} (r : result A) (k : A -> result B) : result B :=
  match r with Ok a => k a | Err e => Err e end.


(** [d[k]] on a static table, with Python's [KeyError]. *)
Definition getitem (m : gmap str str) (k : str) : result str :=
  match m !! k with Some v => Ok v | None => Err (KeyError k) end.

(** [data.update(d)] *)
Definition update (data d : dict) : dict := d ∪ data.

(** ** The static tables *)

Definition RESISTOR_VALUE_MAP_ERJ : gmap str str :=
  list_to_map [
    (py "1.5kΩ", py "1501");
    (py "10kΩ", py "1002");
    (py "1kΩ", py "1001");
    (py "26.1Ω", py "26R1");
    (py "4.7kΩ", py "4701");
    (py "220Ω", py "2200");
    (py "510Ω", py "5100");
    (py "5.6kΩ", py "5601");
    (py "100kΩ", py "1003");
    (py "60.4Ω", py "60R4");
    (py "1.2kΩ", py "1201");
    (py "180Ω", py "1800") ].

Definition RESISTOR_FOOTPRINT_MAP_ERJ : gmap str str :=
  list_to_map [ (py "0402", py "ERJ-2RKF"); (py "0603", py "ERJ-3EKF") ].

Definition RESISTOR_FOOTPRINT_MAP_ERJ_SUFFIX : gmap str str :=
  list_to_map [ (py "0402", py "X"); (py "0603", py "V") ].

Definition dec (n : Z) (d : positive) : Qc := Q2Qc (n # d).

Definition CAPACITOR_MAP : gmap capacitor_key str :=
  list_to_map [
    ((dec 16 1, py "100nF", py "X7R", 10, py "0402"), py "GCM155R71C104KA55J");
    ((dec 50 1, py "2.2uF", py "X5R", 10, py "0805"), py "GCM21BR71C225KA64L");
    ((dec 63 10, py "2.2uF", py "X5R", 20, py "0402"), py "GRM155R61C225KE11D");
    ((dec 50 1, py "12nF", py "X7R", 10, py "0402"), py "GCM155R71E123KA55J");
    ((dec 50 1, py "18pF", py "C0G", 5, py "0402"), py "GCM1555C1H180JA16D");
    ((dec 50 1, py "20pF", py "C0G", 5, py "0402"), py "GCM1555C1H220JA16J");
    ((dec 25 1, py "1uF", py "X5R", 10, py "0402"), py "GRM155R61E105KA12D");
    ((dec 50 1, py "4.7nF", py "X7R", 10, py "0402"), py "GCM155R71H472KA37J") ].

Definition MPN_MAP : gmap str str :=
  list_to_map [
    (py "C2040", py "RP2040");
    (py "RP2040", py "SC0914(13)");
    (py "C9002", py "X322512MSB4SI");
    (py "C97521", py "W25Q128JVSIQ");
    (py "X322512MSB4SI", py "ECS-2333-120-BN-TR");
    (py "ERM8-040-05.0-X-DV-L-K-TR", py "ERM8-040-05.0-L-DV-L-K-TR") ].

(** ** Regular expressions

    The patterns of the script use literals, character classes,
    sequences, alternatives, the greedy [?], [*], [+] and [{n}], and
    groups.  [matches r s] lists the ways in which [r] matches at the
    head of [s], in the order in which a backtracking matcher tries them
    (a greedy repetition tries one more turn before it tries to stop):
    each with the groups captured, in the order of their opening
    parentheses, and the rest of [s].  The match that Python reports at
    that position is the first of the list. *)

Inductive regex :=
| Text (t : str)
| Class (p : char -> bool)
| Seq (r1 r2 : regex)
| Alt (r1 r2 : regex)
| Opt (r : regex)
| Star (r : regex)
| Plus (r : regex)
| Group (r : regex).

(** [r{n}] *)
Fixpoint times (n : nat) (r : regex) : regex :=
  match n with
  | O => Text []
  | S O => r
  | S n' => Seq r (times n' r)
  end.

Definition outcome : Type := list str * str.

(** The greedy repetition of the matcher [m]: a turn that matches the
    empty string is not repeated. *)
Fixpoint star (m : str -> list outcome) (fuel : nat) (s : str)
  : list outcome :=
  match fuel with
  | O => [([], s)]
  | S fuel' =>
      ('(g1, s1) ← m s;
       if (length s1 <? length s)%nat
       then '(g2, s2) ← star m fuel' s1; [(g1 ++ g2, s2)]
       else [])
      ++ [([], s)]
  end.

Fixpoint matches (r : regex) (s : str) : list outcome :=
  match r with
  | Text t =>
      match strip_prefix t s with Some s' => [([], s')] | None => [] end
  | Class p =>
      match s with
      | c :: s' => if p c then [([], s')] else []
      | [] => []
      end
  | Seq r1 r2 =>
      '(g1, s1) ← matches r1 s; '(g2, s2) ← matches r2 s1; [(g1 ++ g2, s2)]
  | Alt r1 r2 => matches r1 s ++ matches r2 s
  | Opt r1 => matches r1 s ++ [([], s)]
  | Star r1 => star (matches r1) (length s) s
  | Plus r1 =>
      '(g1, s1) ← matches r1 s;
      '(g2, s2) ← star (matches r1) (length s1) s1; [(g1 ++ g2, s2)]
  | Group r1 =>
      '(g, s') ← matches r1 s; [(take (length s - length s') s :: g, s')]
  end.

(** The groups of the match at the head of [s], if there is one. *)
Definition first_match (r : regex) (s : str) : option (list str) :=
  fst <$> head (matches r s).

(** The first success of [m] on [s] and its suffixes, from left to
    right. *)
Fixpoint leftmost {A} (m : str -> option A) (s : str) : option A :=
  match m s with
  | Some r => Some r
  | None => match s with [] => None | _ :: s' => leftmost m s' end
  end.

(** [re.search(r, s)]: the groups of the leftmost match. *)
Definition re_search (r : regex) (s : str) : option (list str) :=
  leftmost (first_match r) s.

(** [m.group(n)] for [n] from 1 *)
Definition group (m : list str) (n : nat) : str := nth (pred n) m [].

Definition is_nil {A} (l : list A) : bool :=
  match l with [] => true | _ => false end.

Definition DOT : char := chr ".".

(** [[0-9]] *)
Definition is_ascii_digit (c : char) : bool := ((48 <=? c) && (c <=? 57))%N.
(** [[0-9.]] *)
Definition is_digit_or_dot (c : char) : bool :=
  is_ascii_digit c || (c =? DOT)%N.
(** [[kΩ]] *)
Definition is_k_or_ohm (c : char) : bool :=
  ((c =? chr "k") || (c =? chr "Ω"))%N.

(** [±1% ([0-9.]+[kΩ]+)] *)
Definition RESISTOR_VALUE_RE : regex :=
  Seq (Text (py "±1% "))
      (Group (Seq (Plus (Class is_digit_or_dot)) (Plus (Class is_k_or_ohm)))).

(** [([0-9]{4})] *)
Definition FOOTPRINT_RE : regex := Group (times 4 (Class is_ascii_digit)).

(** [(X7R|X5R|C0G)] *)
Definition CAPACITOR_TYPE_RE : regex :=
  Group (Alt (Text (py "X7R")) (Alt (Text (py "X5R")) (Text (py "C0G")))).

(** The ASCII part of the table of decimal digits. *)
Definition ascii_decimal (c : char) : option Z :=
  if is_ascii_digit c then Some (Z.of_N c - 48) else None.

Section Program.

(** Python's table of Unicode decimal digits (category Nd) with their
    digit values: the characters that the class [\d] matches and that
    [int] and [float] read.  The ASCII digits are among them. *)
Variable unicode_decimal : char -> option Z.

(** [\d] *)
Definition is_digit (c : char) : bool :=
  match unicode_decimal c with Some _ => true | None => false end.

(** [\d+\.?\d*] *)
Definition NUMBER_RE : regex :=
  Seq (Plus (Class is_digit))
      (Seq (Opt (Text (py "."))) (Star (Class is_digit))).

(** [( \d+\.?\d* )V] *)
Definition VOLTAGE_RE : regex := Seq (Group NUMBER_RE) (Text (py "V")).

(** [( \d+\.?\d* )(pF|nF|uF)] *)
Definition CAPACITOR_VALUE_RE : regex :=
  Seq (Group NUMBER_RE)
      (Group (Alt (Text (py "pF")) (Alt (Text (py "nF")) (Text (py "uF"))))).

(** [±(\d+)%] *)
Definition TOLERANCE_RE : regex :=
  Seq (Text (py "±")) (Seq (Group (Plus (Class is_digit))) (Text (py "%"))).

(** Value of a run of decimal digits, most significant first. *)
Definition digits_value (s : str) : option Z :=
  foldl (λ acc c, n ← acc; d ← unicode_decimal c; Some (10 * n + d))
        (Some 0) s.

(** [int(s)] for a non-empty run of decimal digits; any other text is a
    [ValueError] here. *)
Definition int_of_str (s : str) : result Z :=
  match s, digits_value s with
  | _ :: _, Some n => Ok n
  | _, _ => Err (ValueError (py "invalid literal for int()"))
  end.

(** Value of the decimal literals [digits], [digits.] and
    [digits.digits]. *)
Definition decimal_of_str (s : str) : result Qc :=
  let '(int_part, r) := span is_digit s in
  let frac_part :=
    match r with
    | c :: r' => if (c =? DOT)%N then Some r' else None
    | [] => Some []
    end in
  match int_part, digits_value int_part, frac_part with
  | _ :: _, Some n, Some f =>
      match digits_value f with
      | Some m =>
          Ok (Qc_of_Z n + Qc_of_Z m / Qc_of_Z (10 ^ Z.of_nat (length f)))%Qc
      | None => Err (ValueError (py "could not convert string to float"))
      end
  | _, _, _ => Err (ValueError (py "could not convert string to float"))
  end.

(** [float(s)] for those literals; the other spellings that Python
    reads (sign, exponent, leading dot, inf, nan, white space) do not
    occur in the script and are a [ValueError] here. *)
Definition float_of_str (s : str) : result pyfloat :=
  result_bind (decimal_of_str s) (λ q, Ok (FFin q)).

(** ** Resistors and capacitors *)

Definition erj_mpn (value footprint : str) : result str :=
  result_bind (getitem RESISTOR_VALUE_MAP_ERJ value) (λ erj_value,
  result_bind (getitem RESISTOR_FOOTPRINT_MAP_ERJ footprint) (λ erj_prefix,
  result_bind (getitem RESISTOR_FOOTPRINT_MAP_ERJ_SUFFIX footprint) (λ erj_suffix,
  Ok (erj_prefix ++ erj_value ++ erj_suffix)))).

Definition parse_resistor_comment (comment : str) : result dict :=
  let value_match := re_search RESISTOR_VALUE_RE comment in
  let footprint_match := re_search FOOTPRINT_RE comment in
  match value_match, footprint_match with
  | Some value_match, Some footprint_match =>
      let value := group value_match 1 in
      let footprint := group footprint_match 1 in
      result_bind (erj_mpn value footprint) (λ mpn,
      let comment :=
        value ++ py " ±1% " ++ footprint
              ++ py " thick film resistor 0.1W 50V ±100ppm/C" in
      let data : dict :=
        {[ "mpn" := VStr mpn;
           "value" := VStr value;
           "footprint" := VStr footprint;
           "description" := VStr comment;
           "vendor" := VStr (py "DigiKey");
           "manufacturer" := VStr (py "Panasonic Electronic Components") ]} in
      Ok data)
  | _, _ => Err (ValueError (py "Invalid resistor comment"))
  end.

(** [str(n)] for an [int]: its decimal digits. *)
Definition str_of_int (n : Z) : str :=
  bytes_of (pretty n).

Definition parse_capacitor_comment (comment : str) : result dict :=
  let voltage_match := re_search VOLTAGE_RE comment in
  let value_match := re_search CAPACITOR_VALUE_RE comment in
  let type_match := re_search CAPACITOR_TYPE_RE comment in
  let tolerance_match := re_search TOLERANCE_RE comment in
  let footprint_match := re_search FOOTPRINT_RE comment in
  match voltage_match, value_match, type_match, tolerance_match,
        footprint_match with
  | Some voltage_match, Some value_match, Some type_match,
    Some tolerance_match, Some footprint_match =>
      (* [float(voltage_match.group(1))]: a finite float *)
      result_bind (decimal_of_str (group voltage_match 1)) (λ voltage,
      let value := group value_match 1 ++ group value_match 2 in
      let cap_type := group type_match 1 in
      result_bind (int_of_str (group tolerance_match 1)) (λ tolerance,
      let footprint := group footprint_match 1 in
      let key : capacitor_key :=
        (voltage, value, cap_type, tolerance, footprint) in
      match CAPACITOR_MAP !! key with
      | Some mpn =>
          let comment :=
            value ++ py " ±" ++ str_of_int tolerance ++ py "% "
                  ++ cap_type ++ py " " ++ footprint
                  ++ py " capacitor (MLCC)" in
          let data : dict :=
            {[ "mpn" := VStr mpn;
               "value" := VStr value;
               "footprint" := VStr footprint;
               "description" := VStr comment;
               "vendor" := VStr (py "DigiKey");
               "manufacturer" := VStr (py "Murata") ]} in
          Ok data
      | None => Err (KeyErrorCapacitor key)
      end))
  | _, _, _, _, _ => Err (ValueError (py "Invalid capacitor comment"))
  end.

(** ** The catalog: responses, caches, HTTP *)

(** The part of a catalog response that the script reads, each field
    after the conversion that the script applies to it: quantities after
    [int], the unit price after [float].  The catalog sends them as JSON
    numbers, so that a unit price is a finite number. *)
Record pricing := {
  BreakQuantity : Z;
  UnitPrice : Qc;
}.

Record variation := {
  DigiKeyProductNumber : str;
  QuantityAvailableforPackageType : Z;
  MinimumOrderQuantity : Z;
  StandardPricing : list pricing;
}.

Record parameter := {
  ParameterText : str;
  ValueText : str;
}.

Record product := {
  ManufacturerProductNumber : str;
  ProductDescription : str;
  ManufacturerName : str;
  Parameters : list parameter;
  ProductVariations : list variation;
}.

Record search_response := {
  ExactMatches : list product;
  Products : list product;
}.

(** Content of [token.json]. *)
Record token_data := {
  access_token : str;
  expires_in : Qc;
  expires_at : Qc;
}.

Inductive request :=
| TokenRequest (client_id client_secret grant_type : str)
| SearchRequest (url : str) (headers : list (str * str))
                (Keywords : str) (Limit : Z).

(** Content of a file of the search cache. *)
Record cache_entry := {
  response : search_response;
  cached_at : Qc;
  cached_request : request;
}.

Record token_http_response := {
  token_status_code : Z;
  token_json_access_token : str;
  token_json_expires_in : Qc;
}.

Record search_http_response := {
  status_code : Z;
  text : str;
  json : search_response;
}.

Inductive cell :=
| Plain (v : value)
| Currency (v : pyfloat).

Inductive output :=
| Fetching (mpn : str)
| Table (headers : list str) (rows : list (list cell))
| TotalLine (total_price total_price_per_board : pyfloat) (board_count : Z).

(** What the script reads and changes while it runs: the number of
    clock readings so far, the token file, the files of the search
    cache by name, the HTTP requests issued, the lines printed. *)
Record world := {
  time_calls : nat;
  token_file : option token_data;
  search_files : gmap str cache_entry;
  http_log : list request;
  stdout : list output;
}.

(** The clock ([clock n] is what the [n]-th call of [time.time] returns)
    and the two remote end points, which may answer differently as
    requests go by. *)
Variable clock : nat -> Qc.
Variable token_endpoint : nat -> token_http_response.
Variable search_endpoint : nat -> str -> search_http_response.

Definition M (A : Type) : Type := world -> result A * world.

Definition ret {A} (a : A) : M A := λ w, (Ok a, w).
Definition raise {A} (e : exn) : M A := λ w, (Err e, w).
Definition bind {A B} (m : M A) (k : A -> M B) : M B :=
  λ w, match m w with
       | (Ok a, w') => k a w'
       | (Err e, w') => (Err e, w')
       end.
Definition lift {A} (r : result A) : M A :=
  match r with Ok a => ret a | Err e => raise e end.

Notation "x <~ m ;; k" := (bind m (λ x, k))
  (at level 100, m at next level, right associativity).
Notation "m ;;; k" := (bind m (λ _, k))
  (at level 100, right associativity).

Fixpoint mapM {A B} (f : A -> M B) (l : list A) : M (list B) :=
  match l with
  | [] => ret []
  | a :: l' => b <~ f a;; bs <~ mapM f l';; ret (b :: bs)
  end.

(** [time.time()] *)
Definition time : M Qc := λ w,
  (Ok (clock (time_calls w)),
   {| time_calls := S (time_calls w); token_file := token_file w;
      search_files := search_files w; http_log := http_log w;
      stdout := stdout w |}).

Definition read_token_file : M (option token_data) := λ w,
  (Ok (token_file w), w).

Definition write_token_file (t : token_data) : M unit := λ w,
  (Ok tt,
   {| time_calls := time_calls w; token_file := Some t;
      search_files := search_files w; http_log := http_log w;
      stdout := stdout w |}).

Definition read_search_file (name : str) : M (option cache_entry) := λ w,
  (Ok (search_files w !! name), w).

Definition write_search_file (name : str) (e : cache_entry) : M unit := λ w,
  (Ok tt,
   {| time_calls := time_calls w; token_file := token_file w;
      search_files := <[name := e]> (search_files w);
      http_log := http_log w; stdout := stdout w |}).

Definition print (o : output) : M unit := λ w,
  (Ok tt,
   {| time_calls := time_calls w; token_file := token_file w;
      search_files := search_files w; http_log := http_log w;
      stdout := stdout w ++ [o] |}).

Definition log_request (r : request) : M nat := λ w,
  (Ok (length (http_log w)),
   {| time_calls := time_calls w; token_file := token_file w;
      search_files := search_files w; http_log := http_log w ++ [r];
      stdout := stdout w |}).

(** [requests.post] on the token end point *)
Definition post_token (r : request) : M token_http_response :=
  n <~ log_request r;; ret (token_endpoint n).

(** [requests.post] on the search end point *)
Definition post_search (r : request) (keywords : str)
  : M search_http_response :=
  n <~ log_request r;; ret (search_endpoint n keywords).

Definition CLIENT_ID : str := py "fUmWDtTt1M7ZCDr6mrFK2upi4Cbe04LD".
Definition CLIENT_SECRET : str := py "IL4HaP2js9m5ircd".

(** [response.raise_for_status()] *)
Definition raise_for_status (status : Z) : M unit :=
  if (400 <=? status) && (status <? 600) then raise (HTTPError status)
  else ret tt.

Definition fetch_digikey_token (client_id client_secret : str) : M str :=
  response <~ post_token
    (TokenRequest client_id client_secret (py "client_credentials"));;
  raise_for_status (token_status_code response);;;
  now <~ time;;
  let token_data :=
    {| access_token := token_json_access_token response;
       expires_in := token_json_expires_in response;
       expires_at := (now + token_json_expires_in response)%Qc |} in
  write_token_file token_data;;;
  ret (access_token token_data).

Definition get_digikey_token (client_id client_secret : str) : M str :=
  cache_file <~ read_token_file;;
  match cache_file with
  | Some token_data =>
      now <~ time;;
      if bool_decide (now < expires_at token_data - Qc_of_Z 60)%Qc
      then ret (access_token token_data)
      else fetch_digikey_token client_id client_secret
  | None => fetch_digikey_token client_id client_secret
  end.

Definition fetch_digikey_response (cache_file url : str)
    (headers : list (str * str)) (mpn : str) (limit : Z)
  : M search_response :=
  print (Fetching mpn);;;
  let request := SearchRequest url headers mpn limit in
  response <~ post_search request mpn;;
  if status_code response =? 200 then
    now <~ time;;
    let cache_data :=
      {| response := json response; cached_at := now;
         cached_request := request |} in
    write_search_file cache_file cache_data;;;
    ret (json response)
  else raise (Exception (py "API request failed: " ++ text response)).

Definition get_cached_digikey_response (url : str)
    (headers : list (str * str)) (Keywords : str) (Limit : Z)
  : M search_response :=
  let mpn := Keywords in
  let cache_file := normalize_filename mpn ++ py ".json" in
  cached <~ read_search_file cache_file;;
  match cached with
  | Some cached_data =>
      now <~ time;;
      if bool_decide (now < cached_at cached_data + Qc_of_Z (3600 * 4))%Qc
      then ret (response cached_data)
      else fetch_digikey_response cache_file url headers mpn Limit
  | None => fetch_digikey_response cache_file url headers mpn Limit
  end.

(** ** Selection of the product variation *)

(** The first parameter called [Supplier Device Package], if any, gives
    the footprint. *)
Fixpoint footprint_of (params : list parameter) : option str :=
  match params with
  | [] => None
  | param :: params' =>
      if bool_decide (ParameterText param = py "Supplier Device Package")
      then Some (ValueText param)
      else footprint_of params'
  end.

(** One turn of the inner loop, on the pair of [best_unit_price] and
    [data]. *)
Definition pricing_step (order_quantity : Z) (digikey_pn : str)
    (available : Z) (st : pyfloat * dict) (pricing : pricing)
  : pyfloat * dict :=
  let '(best_unit_price, data) := st in
  let break_quantity := BreakQuantity pricing in
  if break_quantity >? order_quantity then st
  else
    let unit_price := FFin (UnitPrice pricing) in
    if float_lt unit_price best_unit_price then
      let best_unit_price := unit_price in
      let data := <["vendor_part_number" := VStr digikey_pn]> data in
      let data := <["unit_price" := VFloat best_unit_price]> data in
      let data := <["available" := VInt available]> data in
      (best_unit_price, data)
    else st.

(** One turn of the outer loop. *)
Definition variation_step (order_quantity : Z) (st : pyfloat * dict)
    (variation : variation) : pyfloat * dict :=
  let digikey_pn := DigiKeyProductNumber variation in
  let available := QuantityAvailableforPackageType variation in
  let moq := MinimumOrderQuantity variation in
  if (available =? 0) || (moq >? order_quantity) then st
  else foldl (pricing_step order_quantity digikey_pn available) st
             (StandardPricing variation).

Definition extract_product_info (response : product) (order_quantity : Z)
  : dict :=
  let mpn := ManufacturerProductNumber response in
  let description := ProductDescription response in
  let manufacturer := ManufacturerName response in
  let data : dict :=
    {[ "mpn" := VStr mpn;
       "description" := VStr description;
       "manufacturer" := VStr manufacturer;
       "vendor" := VStr (py "DigiKey") ]} in
  let data :=
    match footprint_of (Parameters response) with
    | Some footprint => <["footprint" := VStr footprint]> data
    | None => data
    end in
  let best_unit_price := float_inf in
  snd (foldl (variation_step order_quantity) (best_unit_price, data)
             (ProductVariations response)).

Definition search_digikey_info (mpn : str) (order_quantity : Z) : M dict :=
  access_token <~ get_digikey_token CLIENT_ID CLIENT_SECRET;;
  let url := py "https://api.digikey.com/products/v4/search/keyword" in
  let headers :=
    [ (py "accept", py "application/json");
      (py "Authorization", py "Bearer " ++ access_token);
      (py "X-DIGIKEY-Client-Id", CLIENT_ID);
      (py "Content-Type", py "application/json") ] in
  response <~ get_cached_digikey_response url headers mpn 2;;
  product <~
    match ExactMatches response with
    | product :: _ => ret product
    | [] =>
        match Products response with
        | [] => raise (Exception (py "No products found for MPN: " ++ mpn))
        | [product] => ret product
        | _ :: _ :: _ =>
            raise (Exception (py "Multiple products found for MPN: " ++ mpn))
        end
    end;;
  ret (extract_product_info product order_quantity).

(** ** BOM lines *)

(** A row of the BOM file, as [csv.DictReader] yields it. *)
Record bom_row := {
  LCSC : str;
  Designator : str;
  Comment : str;
}.

(** [data[k]] where the script needs a string. *)
Definition getitem_str (data : dict) (k : string) : result str :=
  match data !! k with
  | Some (VStr s) => Ok s
  | Some _ => Err TypeError
  | None => Err (KeyError (bytes_of k))
  end.

(** [len(s.split(","))] *)
Definition split_count (s : str) : Z :=
  Z.of_nat (S (count_char (chr ",") s)).

(** [while mpn in MPN_MAP: mpn = MPN_MAP[mpn]], cut after [fuel]
    rewrites: [None] when the loop is still running then. *)
Fixpoint rewrite_mpn (fuel : nat) (mpn : str) : option str :=
  match MPN_MAP !! mpn with
  | None => Some mpn
  | Some mpn' =>
      match fuel with
      | O => None
      | S fuel' => rewrite_mpn fuel' mpn'
      end
  end.

(** The loop run to its end.  It leaves after two rewrites at most
    whatever it starts from, so that the size of the table is fuel enough
    and the default is never used. *)
Definition canonical_mpn (mpn : str) : str :=
  default mpn (rewrite_mpn (size MPN_MAP) mpn).

(** [s * n] for a string *)
Definition str_repeat (s : str) (n : Z) : str :=
  concat (replicate (Z.to_nat n) s).

(** [v * n] for an [int] [n] *)
Definition value_mul_int (v : value) (n : Z) : value :=
  match v with
  | VFloat f => VFloat (float_mul f (float_of_int n))
  | VInt m => VInt (m * n)
  | VStr s => VStr (str_repeat s n)
  end.

Definition parse_bom_row (row : bom_row) (board_quantity : Z) : M dict :=
  let quantity := split_count (Designator row) in
  let data : dict :=
    {[ "mpn" := VStr (LCSC row);
       "designators" := VStr (Designator row);
       "quantity" := VInt quantity;
       "description" := VStr (Comment row) ]} in
  let order_quantity := quantity * board_quantity in
  description <~ lift (getitem_str data "description");;
  data <~
    (if contains (py "Resistor") description then
       parsed <~ lift (parse_resistor_comment description);;
       let data := update data parsed in
       mpn <~ lift (getitem_str data "mpn");;
       info <~ search_digikey_info mpn order_quantity;;
       ret (update data info)
     else if contains (py "Capacitor") description then
       parsed <~ lift (parse_capacitor_comment description);;
       let data := update data parsed in
       mpn <~ lift (getitem_str data "mpn");;
       info <~ search_digikey_info mpn order_quantity;;
       ret (update data info)
     else if contains (py "Do not populate") description then
       ret (update data
              {[ "mpn" := VStr (py "DNI");
                 "dni" := VStr (py "DNI");
                 "description" := VStr (py "Do not install") ]})
     else
       mpn <~ lift (getitem_str data "mpn");;
       let data := <["mpn" := VStr (canonical_mpn mpn)]> data in
       mpn <~ lift (getitem_str data "mpn");;
       info <~ search_digikey_info mpn order_quantity;;
       ret (update data info));;
  match data !! "unit_price" with
  | Some unit_price =>
      ret (<["total_price" := value_mul_int unit_price order_quantity]> data)
  | None => ret data
  end.

(** The BOM file is the list of its rows. *)
Definition parse_bom (file : list bom_row) (board_quantity : Z)
  : M (list dict) :=
  mapM (λ row, parse_bom_row row board_quantity) file.

(** ** The report *)

(** [float(v)] *)
Definition py_float (v : value) : result pyfloat :=
  match v with
  | VFloat f => Ok f
  | VInt n => Ok (float_of_int n)
  | VStr s => float_of_str s
  end.

(** [x.get(k, default)] *)
Definition get (x : dict) (k : string) (d : value) : value :=
  default d (x !! k).

(** The key [lambda x: float(x.get("total_price", 0.0))] *)
Definition sort_key (x : dict) : result pyfloat :=
  py_float (get x "total_price" (VFloat (FFin 0%Qc))).

Fixpoint mapR {A B} (f : A -> result B) (l : list A) : result (list B) :=
  match l with
  | [] => Ok []
  | a :: l' =>
      result_bind (f a) (λ b,
      result_bind (mapR f l') (λ bs, Ok (b :: bs)))
  end.

(** [list.sort(key=..., reverse=True)] on the list decorated with its
    keys: the stable sort by descending key.  [insert_desc] puts an
    element in front of a sorted list of later elements, after those of
    a greater key and before those of an equal or smaller one. *)
Fixpoint insert_desc {A} (x : pyfloat * A) (l : list (pyfloat * A))
  : list (pyfloat * A) :=
  match l with
  | [] => [x]
  | y :: l' =>
      if float_lt (fst x) (fst y) then y :: insert_desc x l'
      else x :: y :: l'
  end.

Definition sort_desc {A} (l : list (pyfloat * A)) : list (pyfloat * A) :=
  foldr insert_desc [] l.

Definition sort_by_total_price (data : list dict) : result (list dict) :=
  result_bind (mapR (λ x, result_bind (sort_key x) (λ k, Ok (k, x))) data)
    (λ keyed, Ok (map snd (sort_desc keyed))).

Definition SIMPLE_COLUMNS : list (str * string) :=
  [ (py "MPN", "mpn");
    (py "Quantity", "quantity");
    (py "DNI", "dni");
    (py "Manufacturer", "manufacturer");
    (py "Vendor", "vendor");
    (py "Vendor Part Number", "vendor_part_number");
    (py "Value", "value");
    (py "Footprint", "footprint");
    (py "Description", "description");
    (py "Available", "available");
    (py "Unit Price", "unit_price");
    (py "Total Price", "total_price") ]%string.

(** One cell of the table: [row.get(name, "")], formatted as currency
    with two decimals in the two price columns unless it is the empty
    string. *)
Definition simple_cell (row : dict) (name : string) : result cell :=
  let value := get row name (VStr []) in
  if bool_decide (name ∈ ["unit_price"; "total_price"]%string)
     && negb (bool_decide (value = VStr []))
  then
    match value with
    | VFloat f => Ok (Currency f)
    | VInt n => Ok (Currency (float_of_int n))
    | VStr _ => Err (ValueError (py "Unknown format code 'f'"))
    end
  else Ok (Plain value).

Definition simple_row (row : dict) : result (list cell) :=
  mapR (λ c, simple_cell row (snd c)) SIMPLE_COLUMNS.

(** [a + b] of [sum] *)
Definition value_add (a : pyfloat) (v : value) : result pyfloat :=
  match v with
  | VFloat f => Ok (float_add a f)
  | VInt n => Ok (float_add a (float_of_int n))
  | VStr _ => Err TypeError
  end.

(** [sum(values)].  The [int] zero that Python starts from is the float
    zero here: the same number, printed the same by the format. *)
Definition py_sum (values : list value) : result pyfloat :=
  foldl (λ acc v, result_bind acc (λ a, value_add a v))
        (Ok (FFin 0%Qc)) values.

(** [main], with the arguments [--bom] (as its rows) and [--boards].
    The optional spreadsheet export that follows the report is treated
    apart, in the section on the spreadsheet export. *)
Definition main (bom : list bom_row) (boards : Z) : M unit :=
  let board_count := boards in
  data <~ parse_bom bom board_count;;
  data <~ lift (sort_by_total_price data);;
  simple_data <~ lift (mapR simple_row data);;
  print (Table (map fst SIMPLE_COLUMNS) simple_data);;;
  total_price <~
    lift (py_sum (map (λ row, get row "total_price" (VFloat (FFin 0%Qc)))
                      data));;
  match float_div total_price (float_of_int board_count) with
  | None => raise ZeroDivisionError
  | Some total_price_per_board =>
      print (TotalLine total_price total_price_per_board board_count)
  end.

(** ** Vocabulary of the statements *)

(** The suffixes of [s] that a greedy repetition of the class [p] can
    stop at, the farthest first. *)
Fixpoint splits (p : char -> bool) (s : str) : list str :=
  match s with
  | [] => [[]]
  | c :: s' => (if p c then splits p s' else []) ++ [s]
  end.

(** What the value pattern of resistors captures at the head of [s],
    computed with the longest runs of its two classes. *)
Definition match_resistor_value (s : str) : option str :=
  match strip_prefix (py "±1% ") s with
  | Some r =>
      let '(number, r1) := span is_digit_or_dot r in
      let '(unit, _) := span is_k_or_ohm r1 in
      if is_nil number || is_nil unit then None else Some (number ++ unit)
  | None => None
  end.

(** What the footprint pattern captures at the head of [s]. *)
Definition match_footprint (s : str) : option str :=
  match s with
  | a :: b :: c :: d :: _ =>
      if forallb is_ascii_digit [a; b; c; d] then Some [a; b; c; d] else None
  | _ => None
  end.

(** A price break [p] of the variation [v] can be ordered: [v] is in
    stock, its minimum order quantity and the break quantity of [p] do not
    exceed the order quantity. *)
Definition qualifies (order_quantity : Z) (v : variation) (p : pricing)
  : Prop :=
  QuantityAvailableforPackageType v ≠ 0
  ∧ MinimumOrderQuantity v ≤ order_quantity
  ∧ p ∈ StandardPricing v
  ∧ BreakQuantity p ≤ order_quantity.

(** The price breaks that the two loops of [extract_product_info] reach
    the comparison with, in the order in which they reach it. *)
Definition candidates (order_quantity : Z) (vs : list variation)
  : list (variation * pricing) :=
  v ← vs;
  if (QuantityAvailableforPackageType v =? 0)
     || (MinimumOrderQuantity v >? order_quantity)
  then []
  else
    p ← StandardPricing v;
    if BreakQuantity p >? order_quantity then [] else [(v, p)].

(** The catalog response that [search_digikey_info] works on: its first
    two steps, the token and the cached keyword search. *)
Definition catalog_response (mpn : str) : M search_response :=
  access_token <~ get_digikey_token CLIENT_ID CLIENT_SECRET;;
  get_cached_digikey_response
    (py "https://api.digikey.com/products/v4/search/keyword")
    [ (py "accept", py "application/json");
      (py "Authorization", py "Bearer " ++ access_token);
      (py "X-DIGIKEY-Client-Id", CLIENT_ID);
      (py "Content-Type", py "application/json") ]
    mpn 2.

(** The world after one reading of the clock. *)
Definition tick (w : world) : world :=
  {| time_calls := S (time_calls w); token_file := token_file w;
     search_files := search_files w; http_log := http_log w;
     stdout := stdout w |}.

(** [fp] is a run of four ASCII digits of [s] that starts after [pre]. *)
Definition four_digits_at (s pre fp : str) : Prop :=
  ∃ post, s = pre ++ fp ++ post
          ∧ length fp = 4%nat
          ∧ forallb is_ascii_digit fp = true.

(** [fp] is the first four-digit substring of [s]. *)
Definition first_four_digits (s fp : str) : Prop :=
  ∃ pre, four_digits_at s pre fp
         ∧ ∀ pre' fp', four_digits_at s pre' fp' →
                       (length pre ≤ length pre')%nat.

(** The fields of the record that the two comment parsers return. *)
Definition PARSED_FIELDS : gset string :=
  {[ "mpn"; "value"; "footprint"; "description"; "vendor"; "manufacturer" ]}.



(** The total price of a record as a number: zero when the record has
    none. *)
Definition line_total (d : dict) : Qc :=
  match d !! "total_price" with
  | Some (VFloat (FFin q)) => q
  | _ => 0%Qc
  end.



(** The order quantity of a BOM row. *)
Definition order_quantity_of (row : bom_row) (board_quantity : Z) : Z :=
  split_count (Designator row) * board_quantity.

(** [product] is a product of a response that the catalog gave. *)
Definition looked_up (product : product) : Prop :=
  ∃ mpn w w' response,
    catalog_response mpn w = (Ok response, w')
    ∧ product ∈ ExactMatches response ++ Products response.

(** The fields that [extract_product_info] may set. *)
Definition EXTRACTED_FIELDS : gset string :=
  {[ "mpn"; "description"; "manufacturer"; "vendor"; "footprint";
     "vendor_part_number"; "unit_price"; "available" ]}.



(** A record decorated with its sort key. *)
Definition keyed (d : dict) : pyfloat * dict := (FFin (line_total d), d).


(** [s.find(sub)]: the position of the first occurrence of [sub] in
    [s]. *)
Fixpoint find (sub s : str) : option nat :=
  match strip_prefix sub s with
  | Some _ => Some O
  | None => match s with [] => None | _ :: s' => S <$> find sub s' end
  end.

(** No two underscores in a row. *)
Definition no_double_underscore (s : str) : Prop :=
  ∀ pre post, s ≠ pre ++ [UNDERSCORE; UNDERSCORE] ++ post.

(** The two nested loops are one loop over the candidates. *)
Definition select_step (st : pyfloat * dict) (c : variation * pricing)
  : pyfloat * dict :=
  let '(v, p) := c in
  if float_lt (FFin (UnitPrice p)) (fst st) then
    (FFin (UnitPrice p),
     <["available" := VInt (QuantityAvailableforPackageType v)]>
       (<["unit_price" := VFloat (FFin (UnitPrice p))]>
          (<["vendor_part_number" := VStr (DigiKeyProductNumber v)]>
             (snd st))))
  else st.

(** What the loop knows after the candidates [seen]. *)
Definition selection_inv (seen : list (variation * pricing))
    (st : pyfloat * dict) : Prop :=
  (seen = [] ∧ fst st = float_inf
   ∧ snd st !! "vendor_part_number" = None
   ∧ snd st !! "unit_price" = None
   ∧ snd st !! "available" = None)
  ∨ (∃ v p, (v, p) ∈ seen
       ∧ fst st = FFin (UnitPrice p)
       ∧ snd st !! "vendor_part_number" = Some (VStr (DigiKeyProductNumber v))
       ∧ snd st !! "unit_price" = Some (VFloat (FFin (UnitPrice p)))
       ∧ snd st !! "available"
         = Some (VInt (QuantityAvailableforPackageType v))
       ∧ ∀ v' p', (v', p') ∈ seen → (UnitPrice p ≤ UnitPrice p')%Qc).




(** The dictionary that [parse_bom_row] starts from. *)
Definition row_base (row : bom_row) : dict :=
  {[ "mpn" := VStr (LCSC row);
     "designators" := VStr (Designator row);
     "quantity" := VInt (split_count (Designator row));
     "description" := VStr (Comment row) ]}.

(** [rest] starts with what the value pattern of resistors takes: one
    digit or dot at least, then [k] or [Ω]. *)
Definition starts_with_value (rest : str) : Prop :=
  ∃ number unit tail,
    rest = number ++ unit :: tail
    ∧ number ≠ []
    ∧ forallb is_digit_or_dot number = true
    ∧ is_k_or_ohm unit = true.

(** ** Sample data *)

Definition sample_reel : variation :=
  {| DigiKeyProductNumber := py "P10.0KLTR-ND";
     QuantityAvailableforPackageType := 250000;
     MinimumOrderQuantity := 10000;
     StandardPricing :=
       [ {| BreakQuantity := 10000; UnitPrice := dec 2 1000 |} ] |}.

Definition sample_cut_tape : variation :=
  {| DigiKeyProductNumber := py "P10.0KLCT-ND";
     QuantityAvailableforPackageType := 4200;
     MinimumOrderQuantity := 1;
     StandardPricing :=
       [ {| BreakQuantity := 1; UnitPrice := dec 10 100 |};
         {| BreakQuantity := 10; UnitPrice := dec 8 100 |};
         {| BreakQuantity := 100; UnitPrice := dec 3 100 |} ] |}.

Definition sample_product : product :=
  {| ManufacturerProductNumber := py "ERJ-2RKF1002X";
     ProductDescription := py "RES SMD 10K OHM 1% 1/10W 0402";
     ManufacturerName := py "Panasonic Electronic Components";
     Parameters :=
       [ {| ParameterText := py "Supplier Device Package";
            ValueText := py "0402" |} ];
     ProductVariations := [sample_reel; sample_cut_tape] |}.

Definition sample_response : search_response :=
  {| ExactMatches := [sample_product]; Products := [] |}.

(** A product that cannot be ordered: one variation is out of stock, the
    other is sold by 1000 at least. *)
Definition sample_unavailable_product : product :=
  {| ManufacturerProductNumber := py "SC0914(13)";
     ProductDescription := py "IC MCU 32BIT EXT MEM 56QFN";
     ManufacturerName := py "Raspberry Pi";
     Parameters := [];
     ProductVariations :=
       [ {| DigiKeyProductNumber := py "2648-SC0914(13)CT-ND";
            QuantityAvailableforPackageType := 0;
            MinimumOrderQuantity := 1;
            StandardPricing :=
              [ {| BreakQuantity := 1; UnitPrice := dec 80 100 |} ] |};
         {| DigiKeyProductNumber := py "2648-SC0914(13)TR-ND";
            QuantityAvailableforPackageType := 34000;
            MinimumOrderQuantity := 1000;
            StandardPricing :=
              [ {| BreakQuantity := 1000; UnitPrice := dec 70 100 |} ] |} ] |}.

Definition sample_world : world :=
  {| time_calls := 0; token_file := None; search_files := ∅;
     http_log := []; stdout := [] |}.

Definition sample_clock (n : nat) : Qc := Qc_of_Z (1700000000 + Z.of_nat n).

Definition sample_token_endpoint (n : nat) : token_http_response :=
  {| token_status_code := 200;
     token_json_access_token := py "token";
     token_json_expires_in := Qc_of_Z 599 |}.

Definition sample_search_endpoint (n : nat) (keywords : str)
  : search_http_response :=
  {| status_code := 200; text := [];
     json :=
       if bool_decide (keywords = py "SC0914(13)")
       then {| ExactMatches := []; Products := [sample_unavailable_product] |}
       else sample_response |}.

Definition sample_unpriced_row : bom_row :=
  {| LCSC := py "C2040"; Designator := py "U1"; Comment := py "RP2040" |}.


(** A world one hour after the response for [ERJ-2RKF1002X] was cached
    and ten minutes before the token expires. *)
Definition sample_cached_world : world :=
  {| time_calls := 0;
     token_file :=
       Some {| access_token := py "token"; expires_in := Qc_of_Z 599;
               expires_at := Qc_of_Z (1700000000 + 600) |};
     search_files :=
       {[ py "ERJ-2RKF1002X.json" :=
            {| response := sample_response;
               cached_at := Qc_of_Z (1700000000 - 3600);
               cached_request :=
                 SearchRequest (py "https://api.digikey.com") []
                   (py "ERJ-2RKF1002X") 2 |} ]};
     http_log := []; stdout := [] |}.

(** ** The spreadsheet export

    With the argument [--sierra], [main] goes on after the report: it
    makes one row of ten cells for every record of the sorted list,
    appends a header and these rows to the sheet [BOM] of a new
    workbook, sets the width of every column from the cells that the
    sheet then holds, and saves the workbook.  The workbook itself
    belongs to the spreadsheet library; what follows is what the script
    computes: the rows that it appends and the width that it gives to a
    column. *)



(** Python's [repr] of a float, which [str] returns for a float: the
    shortest decimal text that reads back as the same binary64 number.
    It is not defined by the script and is left open here. *)
Variable float_repr : pyfloat -> str.






(** A value of a cell of the sheet. *)
Inductive xl_value :=
| XInt (n : Z)
| XStr (s : str).




(** [str(cell.value)] for a cell of the sheet; an empty cell holds
    [None]. *)
Definition cell_text (cell : option xl_value) : str :=
  match cell with
  | None => py "None"
  | Some (XInt n) => str_of_int n
  | Some (XStr s) => s
  end.

(** The width given to a column, from its cells. *)
Definition adjusted_width (column : list (option xl_value)) : Z :=
  let max_length :=
    foldl (λ max_length cell,
             if Z.of_nat (length (cell_text cell)) >? max_length
             then Z.of_nat (length (cell_text cell))
             else max_length)
          0 column in
  max_length + 2.

(** ** Further vocabulary *)

(** The characters that [normalize_filename] never touches: neither of
    the class of the first substitution nor an underscore. *)
Definition is_kept (c : char) : bool := negb (is_invalid c || is_underscore c).

(** The file of the search cache for a keyword. *)
Definition cache_file_of (Keywords : str) : str :=
  normalize_filename Keywords ++ py ".json".

(** The search cache holds a response for [Keywords] that is less than
    four hours old. *)
Definition cached_fresh (Keywords : str) (w : world) : Prop :=
  ∃ cached,
    search_files w !! cache_file_of Keywords = Some cached
    ∧ (clock (time_calls w) - cached_at cached < Qc_of_Z (4 * 3600))%Qc.

(** The token file holds a token that expires in more than 60
    seconds. *)
Definition token_fresh (w : world) : Prop :=
  ∃ token,
    token_file w = Some token
    ∧ (Qc_of_Z 60 < expires_at token - clock (time_calls w))%Qc.

(** The world in which a cache that was found stale or empty is
    refilled: the clock has been read if there was a file to check. *)
Definition after_check {A} (file : option A) (w : world) : world :=
  match file with Some _ => tick w | None => w end.

(** [w'] is [w] after some more work: nothing that [w] holds is lost.
    The clock has not been read fewer times, a token file that was there
    is still there, so is every file of the search cache, and the
    requests issued and the lines printed have only had others added
    after them. *)
Definition extends (w w' : world) : Prop :=
  (time_calls w ≤ time_calls w')%nat
  ∧ (is_Some (token_file w) → is_Some (token_file w'))
  ∧ dom (search_files w) ⊆ dom (search_files w')
  ∧ http_log w `prefix_of` http_log w'
  ∧ stdout w `prefix_of` stdout w'.

(** The two requests of the script: for a token, with its own
    credentials, and for the two first products that a keyword finds,
    with the URL and the headers of [search_digikey_info]. *)
Definition script_request (r : request) : Prop :=
  r = TokenRequest CLIENT_ID CLIENT_SECRET (py "client_credentials")
  ∨ ∃ access_token mpn,
      r = SearchRequest
            (py "https://api.digikey.com/products/v4/search/keyword")
            [ (py "accept", py "application/json");
              (py "Authorization", py "Bearer " ++ access_token);
              (py "X-DIGIKEY-Client-Id", CLIENT_ID);
              (py "Content-Type", py "application/json") ]
            mpn 2.

(** [m] issues [n] requests at most, all of them requests of the
    script. *)
Definition issues {A} (n : nat) (m : M A) : Prop :=
  ∀ w, ∃ l, http_log (snd (m w)) = http_log w ++ l
            ∧ (length l ≤ n)%nat
            ∧ Forall script_request l.

(** The price break at position [i] of [cs] is the first of the
    cheapest: none of [cs] is cheaper and all those before it cost
    more. *)
Definition first_cheapest (cs : list (variation * pricing)) (i : nat)
    (v : variation) (p : pricing) : Prop :=
  cs !! i = Some (v, p)
  ∧ (∀ j v' p', cs !! j = Some (v', p') → (UnitPrice p ≤ UnitPrice p')%Qc)
  ∧ (∀ j v' p', (j < i)%nat → cs !! j = Some (v', p') →
                (UnitPrice p < UnitPrice p')%Qc).

(** What the loop knows after the candidates [seen], with the place of
    its choice. *)
Definition first_cheapest_inv (seen : list (variation * pricing))
    (st : pyfloat * dict) : Prop :=
  (seen = [] ∧ fst st = float_inf
   ∧ snd st !! "vendor_part_number" = None
   ∧ snd st !! "unit_price" = None
   ∧ snd st !! "available" = None)
  ∨ (∃ i v p, first_cheapest seen i v p
       ∧ fst st = FFin (UnitPrice p)
       ∧ snd st !! "vendor_part_number" = Some (VStr (DigiKeyProductNumber v))
       ∧ snd st !! "unit_price" = Some (VFloat (FFin (UnitPrice p)))
       ∧ snd st !! "available"
         = Some (VInt (QuantityAvailableforPackageType v))).

(** The last step of [parse_bom_row]: the total price of a row that has
    a unit price. *)
Definition with_total_price (order_quantity : Z) (data : dict) : dict :=
  match data !! "unit_price" with
  | Some unit_price =>
      <["total_price" := value_mul_int unit_price order_quantity]> data
  | None => data
  end.


(** The record of a row that is not to be populated. *)
Definition dni_record (row : bom_row) : dict :=
  {[ "mpn" := VStr (py "DNI");
     "designators" := VStr (Designator row);
     "quantity" := VInt (split_count (Designator row));
     "description" := VStr (py "Do not install");
     "dni" := VStr (py "DNI") ]}.

(** The line that announces a request: a keyword search is announced,
    a token request is not. *)
Definition announced (r : request) : option output :=
  match r with
  | SearchRequest _ _ Keywords _ => Some (Fetching Keywords)
  | TokenRequest _ _ _ => None
  end.

(** All that [m] prints are the announcements of the keyword searches it
    sends, one for each and in their order. *)
Definition announces {A} (m : M A) : Prop :=
  ∀ w, ∃ l, http_log (snd (m w)) = http_log w ++ l
            ∧ stdout (snd (m w)) = stdout w ++ omap announced l.

(** [sep.join(l)] *)
Fixpoint join (sep : str) (l : list str) : str :=
  match l with
  | [] => []
  | [x] => x
  | x :: r => x ++ sep ++ join sep r
  end.






(** ** More sample data *)

(** A token end point that refuses the credentials. *)
Definition sample_refusing_token_endpoint (n : nat) : token_http_response :=
  {| token_status_code := 401;
     token_json_access_token := [];
     token_json_expires_in := Qc_of_Z 0 |}.

(** A search end point that is out of service. *)
Definition sample_failing_search_endpoint (n : nat) (keywords : str)
  : search_http_response :=
  {| status_code := 503; text := py "Service Unavailable";
     json := {| ExactMatches := []; Products := [] |} |}.

Definition sample_dni_row : bom_row :=
  {| LCSC := py "C1234"; Designator := py "J1,J2";
     Comment := py "Header 2x5, Do not populate" |}.

Definition sample_resistor_row : bom_row :=
  {| LCSC := py "C25744"; Designator := py "R1,R2";
     Comment := py "Resistor ±1% 10kΩ 0402" |}.

(** A resistor row that is marked as not to be populated, with a
    comment that gives no tolerance. *)
Definition sample_marked_resistor_row : bom_row :=
  {| LCSC := py "C25744"; Designator := py "R9";
     Comment := py "Resistor 10k 0402, Do not populate" |}.

(** * Properties *)

(** ** Strings and patterns *)

Lemma span_app p s : fst (span p s) ++ snd (span p s) = s.
Proof.
  induction s as [|c r IH]; simpl; [done|].
  destruct (p c); [|done].
  destruct (span p r) as [a b]; simpl in *. by rewrite IH.
Qed.

Lemma span_snd_head p s c r : snd (span p s) = c :: r → p c = false.
Proof.
  induction s as [|x s IH]; simpl; [done|].
  destruct (p x) eqn:Hx.
  - destruct (span p s) as [a b]; simpl in *. done.
  - intros [= -> _]. done.
Qed.

Lemma dropwhile_suffix p s : ∃ a, s = a ++ dropwhile p s.
Proof. exists (fst (span p s)). symmetry. apply span_app. Qed.

Lemma dropwhile_head p s c r : dropwhile p s = c :: r → p c = false.
Proof. apply span_snd_head. Qed.

Lemma dropwhile_id p s :
  match s with c :: _ => p c = false | [] => True end → dropwhile p s = s.
Proof. destruct s as [|c r]; [done|]. unfold dropwhile; simpl. by intros ->. Qed.

Lemma strip_prefix_app p r : strip_prefix p (p ++ r) = Some r.
Proof. induction p as [|a p IH]; [done|]. cbn. by rewrite N.eqb_refl. Qed.

Lemma strip_prefix_Some p s r : strip_prefix p s = Some r → s = p ++ r.
Proof.
  revert s. induction p as [|a p IH]; intros [|b s]; cbn; try done.
  - by intros [= ->].
  - by intros [= ->].
  - destruct (N.eqb_spec a b) as [->|]; [|done].
    intros H. by rewrite (IH _ H).
Qed.

(** [leftmost] skips a prefix in which the pattern matches nowhere. *)
Lemma leftmost_skip {A} (m : str → option A) pre s :
  (∀ a b, pre = a ++ b → b ≠ [] → m (b ++ s) = None) →
  leftmost m (pre ++ s) = leftmost m s.
Proof.
  induction pre as [|c pre IH]; intros H; [done|].
  assert (m ((c :: pre) ++ s) = None) as H0 by (by apply (H [])).
  cbn [app leftmost] in *. rewrite H0.
  apply IH. intros a b -> Hb. by apply (H (c :: a) b).
Qed.

Lemma leftmost_here {A} (m : str → option A) s r :
  m s = Some r → leftmost m s = Some r.
Proof. intros H. destruct s; cbn; by rewrite H. Qed.

Lemma span_run p a b :
  forallb p a = true →
  (∀ c r, b = c :: r → p c = false) →
  span p (a ++ b) = (a, b).
Proof.
  intros Ha Hb. induction a as [|x a IH]; cbn.
  - destruct b as [|c r]; [done|]. cbn. by rewrite (Hb c r).
  - cbn in Ha. apply andb_true_iff in Ha as [-> Ha]. by rewrite IH.
Qed.

Lemma span_fst_forallb p s : forallb p (fst (span p s)) = true.
Proof.
  induction s as [|c r IH]; cbn; [done|].
  destruct (p c) eqn:Hc; [|done].
  destruct (span p r) as [a b]; cbn in *. by rewrite Hc, IH.
Qed.

Lemma leftmost_Some {A} (m : str → option A) s r :
  leftmost m s = Some r → ∃ a b, s = a ++ b ∧ m b = Some r.
Proof.
  induction s as [|c s IH]; cbn [leftmost].
  - destruct (m []) eqn:Hm; [|done]. intros [= ->]. by exists [], [].
  - destruct (m (c :: s)) eqn:Hm.
    + intros [= ->]. by exists [], (c :: s).
    + intros H. destruct (IH H) as (a & b & -> & Hb).
      by exists (c :: a), b.
Qed.

Lemma leftmost_ext {A} (m1 m2 : str → option A) s :
  (∀ t, m1 t = m2 t) → leftmost m1 s = leftmost m2 s.
Proof.
  intros H. induction s as [|c s IH]; cbn [leftmost]; rewrite H; [done|].
  by rewrite IH.
Qed.

Lemma leftmost_fmap {A B} (f : A → B) (m : str → option A) s :
  leftmost (λ t, f <$> m t) s = f <$> leftmost m s.
Proof.
  induction s as [|c s IH]; cbn [leftmost]; destruct (m _); try done.
Qed.

(** ** The matcher on the patterns of the script *)

Lemma bind_outcome_id (l : list outcome) :
  ('(g, s) ← l; [([] ++ g, s)]) = l.
Proof.
  induction l as [|[g s] l IH]; [done|].
  rewrite bind_cons, IH. done.
Qed.

Lemma bind_first {A B} (f : A → list B) x l :
  Forall (λ y, f y = []) l → (x :: l) ≫= f = f x.
Proof.
  intros H. rewrite bind_cons.
  induction H as [|y l Hy _ IH]; [by rewrite app_nil_r|].
  by rewrite bind_cons, Hy.
Qed.


(** A repetition of a class stops at the suffixes of [splits]. *)
Lemma star_class p fuel s :
  (length s ≤ fuel)%nat →
  star (matches (Class p)) fuel s = (λ t, ([], t)) <$> splits p s.
Proof.
  revert s. induction fuel as [|fuel IH]; intros s Hlen.
  - destruct s; [done|]. cbn in Hlen. lia.
  - cbn [star]. destruct s as [|c s]; [done|].
    cbn [matches splits]. destruct (p c).
    + rewrite bind_singleton.
      replace (length s <? length (c :: s))%nat with true
        by (symmetry; apply Nat.ltb_lt; cbn; lia).
      rewrite bind_outcome_id, IH by (cbn in Hlen; lia).
      by rewrite fmap_app.
    + done.
Qed.


Lemma matches_plus_class p s :
  matches (Plus (Class p)) s
  = match s with
    | c :: s' => if p c then (λ t, ([], t)) <$> splits p s' else []
    | [] => []
    end.
Proof.
  cbn [matches]. destruct s as [|c s]; [done|]. destruct (p c); [|done].
  rewrite bind_singleton, bind_outcome_id. by apply star_class.
Qed.

(** The first suffix is the one after the longest run; the others start
    with a character of the class. *)
Lemma splits_longest p s :
  ∃ others,
    splits p s = snd (span p s) :: others
    ∧ Forall (λ t, ∃ c t', t = c :: t' ∧ p c = true) others.
Proof.
  induction s as [|c s (others & IH & Hothers)]; cbn [splits span].
  - by exists [].
  - destruct (p c) eqn:Hc.
    + destruct (span p s) as [a b]. cbn [snd] in *. rewrite IH.
      exists (others ++ [c :: s]). split; [done|].
      apply Forall_app. split; [done|]. repeat constructor. eauto.
    + by exists [].
Qed.







Lemma take_consumed (a t : str) : take (length (a ++ t) - length t) (a ++ t) = a.
Proof.
  rewrite length_app.
  replace (length a + length t - length t)%nat with (length a) by lia.
  by rewrite take_app_length.
Qed.

(** Two runs over disjoint classes: only the longest first run lets the
    second one start. *)
Lemma head_two_runs p q s :
  (∀ c, p c = true → q c = false) →
  head (matches (Seq (Plus (Class p)) (Plus (Class q))) s)
  = let '(a, r1) := span p s in
    let '(b, r2) := span q r1 in
    if is_nil a || is_nil b then None else Some ([], r2).
Proof.
  intros Hpq.
  change (matches (Seq (Plus (Class p)) (Plus (Class q))) s)
    with ('(g1, s1) ← matches (Plus (Class p)) s;
          '(g2, s2) ← matches (Plus (Class q)) s1; [(g1 ++ g2, s2)]).
  rewrite matches_plus_class.
  destruct s as [|c s]; [done|]. cbn [span].
  destruct (p c) eqn:Hc; [|by destruct (span q (c :: s))].
  destruct (splits_longest p s) as (others & -> & Hothers).
  destruct (span p s) as [a r1]. cbn [snd is_nil orb].
  rewrite fmap_cons, bind_first.
  - rewrite bind_outcome_id, matches_plus_class.
    destruct r1 as [|u r1]; [done|]. cbn [span].
    destruct (q u) eqn:Hu; [|done].
    destruct (splits_longest q r1) as (others' & -> & _).
    by destruct (span q r1) as [b r2].
  - apply Forall_fmap. eapply Forall_impl; [exact Hothers|].
    intros t (c' & t' & -> & Hc'). unfold compose. cbv beta iota.
    rewrite matches_plus_class, (Hpq c' Hc'). done.
Qed.

Lemma is_k_or_ohm_not_digit_or_dot c :
  is_k_or_ohm c = true → is_digit_or_dot c = false.
Proof.
  unfold is_k_or_ohm. intros [H|H]%orb_true_iff;
    apply N.eqb_eq in H; by subst.
Qed.

Lemma is_digit_or_dot_not_k_or_ohm c :
  is_digit_or_dot c = true → is_k_or_ohm c = false.
Proof.
  intros H. destruct (is_k_or_ohm c) eqn:Hk; [|done].
  apply is_k_or_ohm_not_digit_or_dot in Hk. congruence.
Qed.

Lemma matches_text_seq x r s :
  matches (Seq (Text x) r) s
  = match strip_prefix x s with Some s0 => matches r s0 | None => [] end.
Proof.
  change (matches (Seq (Text x) r) s)
    with ('(g1, s1) ← matches (Text x) s;
          '(g2, s2) ← matches r s1; [(g1 ++ g2, s2)]).
  cbn [matches]. destruct (strip_prefix x s); [|done].
  by rewrite bind_singleton, bind_outcome_id.
Qed.

Lemma head_group r s :
  head (matches (Group r) s)
  = (λ x, (take (length s - length (snd x)) s :: fst x, snd x))
    <$> head (matches r s).
Proof. cbn [matches]. by destruct (matches r s) as [|[g s'] l]. Qed.

(** The value pattern of resistors captures what its two longest runs
    make. *)
Lemma first_match_resistor_value s :
  first_match RESISTOR_VALUE_RE s = (λ v, [v]) <$> match_resistor_value s.
Proof.
  unfold first_match, RESISTOR_VALUE_RE, match_resistor_value.
  rewrite matches_text_seq.
  destruct (strip_prefix _ s) as [s0|]; [|done].
  rewrite head_group, head_two_runs by apply is_digit_or_dot_not_k_or_ohm.
  pose proof (span_app is_digit_or_dot s0) as Hs0.
  destruct (span is_digit_or_dot s0) as [number r1]. cbn [fst snd] in Hs0.
  pose proof (span_app is_k_or_ohm r1) as Hr1.
  destruct (span is_k_or_ohm r1) as [unit r2]. cbn [fst snd] in Hr1.
  destruct (is_nil number || is_nil unit); [done|].
  cbn [fmap option_fmap option_map fst snd]. do 2 f_equal.
  rewrite <- Hs0, <- Hr1, app_assoc. by rewrite take_consumed.
Qed.

(** The footprint pattern captures four leading ASCII digits. *)
Lemma first_match_footprint s :
  first_match FOOTPRINT_RE s = (λ v, [v]) <$> match_footprint s.
Proof.
  unfold first_match, FOOTPRINT_RE, match_footprint.
  cbn [times matches].
  destruct s as [|a [|b [|c [|d s]]]]; cbn [forallb];
    repeat (match goal with
            | |- context [is_ascii_digit ?x] => destruct (is_ascii_digit x)
            end;
            cbn [andb mbind list_bind app fmap list_fmap option_fmap
                 option_map head fst]);
    try done.
  do 3 f_equal.
  change (a :: b :: c :: d :: s) with ([a; b; c; d] ++ s).
  apply take_consumed.
Qed.

Lemma re_search_resistor_value_spec s :
  re_search RESISTOR_VALUE_RE s
  = (λ v, [v]) <$> leftmost match_resistor_value s.
Proof.
  unfold re_search. rewrite <- leftmost_fmap.
  apply leftmost_ext, first_match_resistor_value.
Qed.

Lemma re_search_footprint_spec s :
  re_search FOOTPRINT_RE s = (λ v, [v]) <$> leftmost match_footprint s.
Proof.
  unfold re_search. rewrite <- leftmost_fmap.
  apply leftmost_ext, first_match_footprint.
Qed.

(** ** normalize_filename *)

(** *** The three passes of [normalize_filename] *)

Lemma has_double_underscore_false s :
  has_double_underscore s = false → no_double_underscore s.
Proof.
  intros H pre. revert s H.
  induction pre as [|x pre IH]; intros s H post ->.
  - by vm_compute in H.
  - assert (has_double_underscore (pre ++ [UNDERSCORE; UNDERSCORE] ++ post)
            = false) as H'.
    { destruct pre as [|y pre]; simpl in H;
        by apply orb_false_iff in H as [_ H]. }
    by eapply (IH _ H' post).
Qed.

Lemma squeeze_cons2 c c' r :
  squeeze_underscores (c :: c' :: r)
  = if ((c =? UNDERSCORE) && (c' =? UNDERSCORE))%N
    then squeeze_underscores (c' :: r)
    else c :: squeeze_underscores (c' :: r).
Proof. reflexivity. Qed.

Lemma has_double_cons2 c c' r :
  has_double_underscore (c :: c' :: r)
  = ((c =? UNDERSCORE) && (c' =? UNDERSCORE))%N
    || has_double_underscore (c' :: r).
Proof. reflexivity. Qed.

Lemma squeeze_head s : head (squeeze_underscores s) = head s.
Proof.
  induction s as [|c r IH]; [done|].
  destruct r as [|c' r']; [done|].
  rewrite squeeze_cons2.
  destruct ((c =? UNDERSCORE) && (c' =? UNDERSCORE))%N eqn:Hcc; [|done].
  rewrite IH. apply andb_true_iff in Hcc as [Hc Hc'].
  apply N.eqb_eq in Hc, Hc'. cbn [head]. congruence.
Qed.

Lemma squeeze_no_double s : has_double_underscore (squeeze_underscores s) = false.
Proof.
  induction s as [|c r IH]; [done|].
  destruct r as [|c' r']; [done|].
  rewrite squeeze_cons2.
  destruct ((c =? UNDERSCORE) && (c' =? UNDERSCORE))%N eqn:Hcc; [done|].
  pose proof (squeeze_head (c' :: r')) as Hh.
  destruct (squeeze_underscores (c' :: r')) as [|x t] eqn:Hs; [done|].
  cbn [head] in Hh. injection Hh as ->.
  by rewrite has_double_cons2, Hcc, IH.
Qed.

Lemma squeeze_sublist s : sublist (squeeze_underscores s) s.
Proof.
  induction s as [|c r IH]; [constructor|].
  destruct r as [|c' r']; [by repeat constructor|].
  rewrite squeeze_cons2.
  destruct ((c =? UNDERSCORE) && (c' =? UNDERSCORE))%N; by constructor.
Qed.

Lemma squeeze_id s : has_double_underscore s = false → squeeze_underscores s = s.
Proof.
  induction s as [|c r IH]; [done|].
  destruct r as [|c' r']; [done|].
  rewrite has_double_cons2, squeeze_cons2.
  intros [-> H]%orb_false_iff. by rewrite IH.
Qed.

Lemma replace_invalid_clean s : has_invalid_char (replace_invalid s) = false.
Proof.
  induction s as [|c r IH]; [done|]. simpl. rewrite IH, orb_false_r.
  destruct (is_invalid c) eqn:Hc; [by vm_compute | done].
Qed.

Lemma replace_invalid_id s : has_invalid_char s = false → replace_invalid s = s.
Proof.
  induction s as [|c r IH]; [done|]. simpl.
  intros [-> H]%orb_false_iff. by rewrite IH.
Qed.

Lemma has_invalid_char_sublist s t :
  sublist s t → has_invalid_char t = false → has_invalid_char s = false.
Proof.
  induction 1 as [|x s t _ IH|x s t _ IH]; simpl; [done|..].
  - intros [-> H]%orb_false_iff. by rewrite IH.
  - intros [_ H]%orb_false_iff. by apply IH.
Qed.

Lemma has_double_underscore_suffix a s :
  has_double_underscore (a ++ s) = false → has_double_underscore s = false.
Proof.
  induction a as [|x a IH]; [done|].
  destruct a as [|y a]; simpl in *.
  - destruct s; [done|]. by intros [_ H]%orb_false_iff.
  - intros [_ H]%orb_false_iff. by apply IH.
Qed.

Lemma has_double_underscore_prefix s a :
  has_double_underscore (s ++ a) = false → has_double_underscore s = false.
Proof.
  induction s as [|x s IH]; [done|].
  destruct s as [|y s]; [done|]. simpl in *.
  intros [-> H]%orb_false_iff. by apply IH.
Qed.

Lemma lstrip_suffix s : ∃ a, s = a ++ lstrip_underscores s.
Proof. apply dropwhile_suffix. Qed.

Lemma rstrip_prefix s : ∃ a, s = rstrip_underscores s ++ a.
Proof.
  unfold rstrip_underscores.
  destruct (dropwhile_suffix is_underscore (rev s)) as [a Ha].
  exists (rev a). rewrite <- rev_app_distr, <- Ha. by rewrite rev_involutive.
Qed.

Lemma lstrip_head s : starts_with_underscore (lstrip_underscores s) = false.
Proof.
  unfold starts_with_underscore, lstrip_underscores.
  destruct (dropwhile is_underscore s) as [|c r] eqn:H; [done|].
  by apply dropwhile_head in H.
Qed.

Lemma rstrip_last s : ends_with_underscore (rstrip_underscores s) = false.
Proof.
  unfold ends_with_underscore, rstrip_underscores, starts_with_underscore.
  rewrite rev_involutive.
  destruct (dropwhile is_underscore (rev s)) as [|c r] eqn:H; [done|].
  by apply dropwhile_head in H.
Qed.

Lemma rstrip_head s :
  starts_with_underscore s = false →
  starts_with_underscore (rstrip_underscores s) = false.
Proof.
  destruct (rstrip_prefix s) as [a Ha].
  destruct (rstrip_underscores s) as [|c r]; [done|].
  rewrite Ha. done.
Qed.

Lemma strip_id s :
  starts_with_underscore s = false → ends_with_underscore s = false →
  strip_underscores s = s.
Proof.
  intros Hs He. unfold strip_underscores, lstrip_underscores.
  rewrite (dropwhile_id _ s) by (destruct s; done).
  unfold rstrip_underscores.
  rewrite dropwhile_id; [apply rev_involutive|].
  unfold ends_with_underscore, starts_with_underscore in He.
  by destruct (rev s).
Qed.

Lemma strip_sublist s : sublist (strip_underscores s) s.
Proof.
  unfold strip_underscores.
  destruct (lstrip_suffix s) as [a Ha].
  destruct (rstrip_prefix (lstrip_underscores s)) as [b Hb].
  rewrite Ha at 2. rewrite Hb at 2.
  apply sublist_inserts_l, sublist_inserts_r. done.
Qed.

Lemma normalize_filename_clean s :
  let out := normalize_filename s in
  has_invalid_char out = false ∧ has_double_underscore out = false
  ∧ starts_with_underscore out = false ∧ ends_with_underscore out = false.
Proof.
  unfold normalize_filename. simpl. repeat split.
  - eapply has_invalid_char_sublist; [apply strip_sublist|].
    eapply has_invalid_char_sublist; [apply squeeze_sublist|].
    apply replace_invalid_clean.
  - unfold strip_underscores.
    set (t := squeeze_underscores (replace_invalid s)).
    destruct (lstrip_suffix t) as [a Ha].
    destruct (rstrip_prefix (lstrip_underscores t)) as [b Hb].
    eapply has_double_underscore_prefix. rewrite <- Hb.
    eapply has_double_underscore_suffix. rewrite <- Ha.
    apply squeeze_no_double.
  - apply rstrip_head, lstrip_head.
  - apply rstrip_last.
Qed.

(** C10. [normalize_filename] is idempotent: applied to its own output it
    returns that output.  The output holds none of the characters of the
    class that the first substitution replaces (slash, angle brackets,
    colon, double quote, backslash, bar, question mark, star, comma), no
    two underscores in a row, and neither starts nor ends with an
    underscore. *)
Theorem normalize_filename_idempotent (mpn : str) :
  let out := normalize_filename mpn in
  normalize_filename out = out
  ∧ (∀ c, c ∈ INVALID_FILENAME_CHARS → c ∉ out)
  ∧ (∀ pre post, out ≠ pre ++ [UNDERSCORE; UNDERSCORE] ++ post)
  ∧ (∀ rest, out ≠ UNDERSCORE :: rest)
  ∧ (∀ rest, out ≠ rest ++ [UNDERSCORE]).
Proof.
  intros out.
  destruct (normalize_filename_clean mpn) as (Hi & Hd & Hs & He).
  fold out in Hi, Hd, Hs, He.
  split; [|split; [|split; [|split]]].
  - unfold normalize_filename at 1.
    rewrite (replace_invalid_id out Hi), (squeeze_id out Hd).
    by apply strip_id.
  - intros c Hc Hin. unfold has_invalid_char in Hi.
    assert (existsb is_invalid out = true) as Hx; [|congruence].
    apply existsb_exists. exists c. split; [by apply list_elem_of_In|].
    unfold is_invalid. by apply bool_decide_eq_true.
  - by apply has_double_underscore_false.
  - intros rest Hr. rewrite Hr in Hs. by vm_compute in Hs.
  - intros rest Hr. unfold ends_with_underscore in He.
    rewrite Hr, rev_app_distr in He. by vm_compute in He.
Qed.

(** ** The rewriting loop over MPN_MAP *)

Lemma rewrite_mpn_unfold fuel mpn :
  rewrite_mpn fuel mpn
  = match MPN_MAP !! mpn with
    | None => Some mpn
    | Some mpn' =>
        match fuel with O => None | S fuel' => rewrite_mpn fuel' mpn' end
    end.
Proof. by destruct fuel. Qed.

(** The chains of the table: every key with its image and the number of
    rewrites that its image still needs. *)
Lemma MPN_MAP_chains mpn mpn' :
  MPN_MAP !! mpn = Some mpn' →
  MPN_MAP !! mpn' = None
  ∨ ∃ mpn'', MPN_MAP !! mpn' = Some mpn'' ∧ MPN_MAP !! mpn'' = None.
Proof.
  intros H. apply elem_of_list_to_map_2 in H.
  repeat (apply elem_of_cons in H as [H|H]);
    try (by apply elem_of_nil in H);
    injection H as -> ->;
    first [ by left; vm_compute
          | right; eexists; split; by vm_compute ].
Qed.

(** C8. Whatever identifier the loop of [parse_bom_row] starts from, it
    leaves after [n] rewrites for some [n] of at most 2: with [n] rewrites
    allowed or more it returns an identifier [r], with fewer it is still
    running; [r] is not a key of [MPN_MAP], and it is what
    [canonical_mpn] returns. *)
Theorem rewrite_mpn_terminates (mpn : str) :
  ∃ (n : nat) (r : str),
    (n ≤ 2)%nat
    ∧ (∀ fuel, (n ≤ fuel)%nat → rewrite_mpn fuel mpn = Some r)
    ∧ (∀ fuel, (fuel < n)%nat → rewrite_mpn fuel mpn = None)
    ∧ MPN_MAP !! r = None
    ∧ canonical_mpn mpn = r.
Proof.
  assert (size MPN_MAP = 6%nat) as Hsize by (by vm_compute).
  unfold canonical_mpn. rewrite Hsize.
  destruct (MPN_MAP !! mpn) as [mpn'|] eqn:H0.
  - destruct (MPN_MAP_chains _ _ H0) as [H1|(mpn'' & H1 & H2)].
    + exists 1%nat, mpn'. repeat split; [lia| | |done|].
      * intros [|fuel] ?; [lia|].
        by rewrite rewrite_mpn_unfold, H0, rewrite_mpn_unfold, H1.
      * intros fuel ?. assert (fuel = 0%nat) as -> by lia.
        by rewrite rewrite_mpn_unfold, H0.
      * by rewrite rewrite_mpn_unfold, H0, rewrite_mpn_unfold, H1.
    + exists 2%nat, mpn''. repeat split; [lia| | |done|].
      * intros [|[|fuel]] ?; [lia|lia|].
        by rewrite rewrite_mpn_unfold, H0, rewrite_mpn_unfold, H1,
          rewrite_mpn_unfold, H2.
      * intros [|[|fuel]] ?; [| |lia].
        -- by rewrite rewrite_mpn_unfold, H0.
        -- by rewrite rewrite_mpn_unfold, H0, rewrite_mpn_unfold, H1.
      * by rewrite rewrite_mpn_unfold, H0, rewrite_mpn_unfold, H1,
          rewrite_mpn_unfold, H2.
  - exists 0%nat, mpn. repeat split; [lia| | |done|].
    + intros fuel _. by rewrite rewrite_mpn_unfold, H0.
    + intros fuel ?. lia.
    + by rewrite rewrite_mpn_unfold, H0.
Qed.
(** ** Selection of the cheapest variation *)

Lemma elem_of_candidates oq vs v p :
  (v, p) ∈ candidates oq vs ↔ v ∈ vs ∧ qualifies oq v p.
Proof.
  unfold candidates, qualifies. rewrite list_elem_of_bind. split.
  - intros (v0 & Hin & Hv0).
    destruct (_ || _) eqn:Hskip; [by apply elem_of_nil in Hin|].
    apply orb_false_iff in Hskip as [Ha Hm].
    apply list_elem_of_bind in Hin as (p0 & Hin & Hp0).
    destruct (BreakQuantity p0 >? oq) eqn:Hb; [by apply elem_of_nil in Hin|].
    apply list_elem_of_singleton in Hin as [= -> ->].
    repeat split; [done|lia|lia|done|lia].
  - intros (Hv & Ha & Hm & Hp & Hb). exists v. split; [|done].
    replace (_ || _) with false by (symmetry; apply orb_false_iff; lia).
    apply list_elem_of_bind. exists p. split; [|done].
    replace (BreakQuantity p >? oq) with false by lia.
    by apply list_elem_of_singleton.
Qed.

Lemma pricing_loop_candidates oq v ps st :
  foldl (pricing_step oq (DigiKeyProductNumber v)
           (QuantityAvailableforPackageType v)) st ps
  = foldl select_step st
      (p ← ps; if BreakQuantity p >? oq then [] else [(v, p)]).
Proof.
  revert st. induction ps as [|p ps IH]; intros st; [done|].
  cbn [foldl mbind list_bind]. rewrite foldl_app, <- IH.
  f_equal. unfold pricing_step. destruct st as [best data].
  destruct (BreakQuantity p >? oq); [done|].
  cbn [foldl select_step fst snd]. by destruct (float_lt _ _).
Qed.

Lemma variation_loop_candidates oq vs st :
  foldl (variation_step oq) st vs = foldl select_step st (candidates oq vs).
Proof.
  revert st. induction vs as [|v vs IH]; intros st; [done|].
  unfold candidates. cbn [foldl mbind list_bind]. rewrite foldl_app.
  fold (candidates oq vs). rewrite <- IH. f_equal.
  unfold variation_step. destruct (_ || _); [done|].
  apply pricing_loop_candidates.
Qed.

Lemma selection_inv_step seen st c :
  selection_inv seen st → selection_inv (seen ++ [c]) (select_step st c).
Proof.
  destruct c as [v p]. unfold select_step.
  intros [(-> & Hb & _)|(v0 & p0 & Hin & Hb & Hpn & Hup & Hav & Hmin)].
  - rewrite Hb. cbn [float_lt float_inf]. right. exists v, p.
    cbn [fst snd app]. repeat split.
    + by apply list_elem_of_singleton.
    + by simplify_map_eq.
    + by simplify_map_eq.
    + by simplify_map_eq.
    + intros v' p' [= -> ->]%list_elem_of_singleton. apply Qcle_refl.
  - rewrite Hb. cbn [float_lt]. case_bool_decide as Hlt.
    + right. exists v, p. cbn [fst snd]. repeat split.
      * apply elem_of_app. right. by apply list_elem_of_singleton.
      * by simplify_map_eq.
      * by simplify_map_eq.
      * by simplify_map_eq.
      * intros v' p' [Hin'|[= -> ->]%list_elem_of_singleton]%elem_of_app;
          [|apply Qcle_refl].
        eapply Qcle_trans; [apply Qclt_le_weak, Hlt|by eapply Hmin].
    + right. exists v0, p0. repeat split; try done.
      * apply elem_of_app. by left.
      * intros v' p' [Hin'|[= -> ->]%list_elem_of_singleton]%elem_of_app;
          [by eapply Hmin|].
        by apply Qcnot_lt_le.
Qed.

Lemma selection_inv_loop cs seen st :
  selection_inv seen st → selection_inv (seen ++ cs) (foldl select_step st cs).
Proof.
  revert seen st. induction cs as [|c cs IH]; intros seen st H.
  - by rewrite app_nil_r.
  - cbn [foldl]. replace (seen ++ c :: cs) with ((seen ++ [c]) ++ cs)
      by (by rewrite <- app_assoc).
    by apply IH, selection_inv_step.
Qed.

(** The dictionary before the loops holds none of the three fields. *)
Lemma extract_product_info_loop (response : product) (order_quantity : Z) :
  ∃ data0 : dict,
    extract_product_info response order_quantity
    = snd (foldl select_step (float_inf, data0)
             (candidates order_quantity (ProductVariations response)))
    ∧ data0 !! "mpn" = Some (VStr (ManufacturerProductNumber response))
    ∧ dom data0 ⊆ ({[ "mpn"; "description"; "manufacturer"; "vendor";
                     "footprint" ]} : gset string).
Proof.
  unfold extract_product_info. eexists. split.
  - by rewrite variation_loop_candidates.
  - destruct (footprint_of _); split; try (by simplify_map_eq);
      rewrite ?dom_insert_L, ?dom_singleton_L; set_solver.
Qed.

Lemma extract_product_info_inv (response : product) (order_quantity : Z) :
  ∃ best,
    selection_inv (candidates order_quantity (ProductVariations response))
      (best, extract_product_info response order_quantity).
Proof.
  destruct (extract_product_info_loop response order_quantity)
    as (data0 & -> & _ & Hdom).
  eexists. rewrite <- surjective_pairing.
  apply (selection_inv_loop _ []). left. cbn [fst snd].
  repeat split; try done;
    apply not_elem_of_dom; intros Hk; apply Hdom in Hk; set_solver.
Qed.

(** C1. [extract_product_info] returns the DigiKey part number, the unit
    price and the stock of a price break that can be ordered (its
    variation is in stock, minimum order quantity and break quantity are
    at most the order quantity) and whose unit price is the lowest of all
    the price breaks that can be ordered; a variation out of stock or with
    a greater minimum order quantity is never the one returned.  When no
    price break can be ordered the three fields are absent. *)
Theorem extract_product_info_cheapest
    (response : product) (order_quantity : Z) :
  let data := extract_product_info response order_quantity in
  (∃ v p,
      v ∈ ProductVariations response
      ∧ qualifies order_quantity v p
      ∧ data !! "vendor_part_number" = Some (VStr (DigiKeyProductNumber v))
      ∧ data !! "unit_price" = Some (VFloat (FFin (UnitPrice p)))
      ∧ data !! "available"
        = Some (VInt (QuantityAvailableforPackageType v))
      ∧ ∀ v' p',
          v' ∈ ProductVariations response →
          qualifies order_quantity v' p' →
          (UnitPrice p ≤ UnitPrice p')%Qc)
  ∨ ((∀ v p, v ∈ ProductVariations response →
             ¬ qualifies order_quantity v p)
     ∧ data !! "vendor_part_number" = None
     ∧ data !! "unit_price" = None
     ∧ data !! "available" = None).
Proof.
  intros data.
  destruct (extract_product_info_inv response order_quantity)
    as (best & [(Hnil & _ & Hpn & Hup & Hav)
               |(v & p & Hin & _ & Hpn & Hup & Hav & Hmin)]).
  - right. repeat split; try done.
    intros v p Hv Hq.
    assert ((v, p) ∈ candidates order_quantity (ProductVariations response))
      as Hc by (by apply elem_of_candidates).
    rewrite Hnil in Hc. by apply elem_of_nil in Hc.
  - left. apply elem_of_candidates in Hin as [Hv Hq].
    exists v, p. repeat split; try done; try apply Hq.
    intros v' p' Hv' Hq'. apply (Hmin v'). by apply elem_of_candidates.
Qed.
(** ** Sequencing *)

Lemma bind_Ok {A B} (m : M A) (k : A → M B) w a w1 :
  m w = (Ok a, w1) → bind m k w = k a w1.
Proof. unfold bind. by intros ->. Qed.

Lemma bind_Err {A B} (m : M A) (k : A → M B) w e w1 :
  m w = (Err e, w1) → bind m k w = (Err e, w1).
Proof. unfold bind. by intros ->. Qed.

Lemma bind_inv_Ok {A B} (m : M A) (k : A → M B) w b w' :
  bind m k w = (Ok b, w') →
  ∃ a w1, m w = (Ok a, w1) ∧ k a w1 = (Ok b, w').
Proof.
  unfold bind. destruct (m w) as [[a|e] w1]; [|done]. intros H. eauto.
Qed.


(** Symbolic execution of the primitive steps, without unfolding any
    string or table. *)
Ltac run_world :=
  cbv beta iota zeta delta
    [bind ret raise lift print post_search post_token log_request time
     write_search_file write_token_file read_search_file read_token_file
     fst snd http_log stdout time_calls token_file search_files].

Ltac inv_bind H :=
  let a := fresh "a" in
  let w := fresh "w" in
  let H1 := fresh "H" in
  apply bind_inv_Ok in H as (a & w & H1 & H).

(** ** The catalog search *)

(** C6. On the catalog response obtained for a part identifier,
    [search_digikey_info] returns the extracted info of the first exact
    match when there is one and of the only product otherwise; it raises
    [No products found] when there is neither an exact match nor a
    product and [Multiple products found] when there is no exact match
    and more than one product, and in no other case. *)
Theorem search_digikey_info_selection
    (mpn : str) (order_quantity : Z) (w w' : world)
    (response : search_response) :
  catalog_response mpn w = (Ok response, w') →
  search_digikey_info mpn order_quantity w
  = (match ExactMatches response, Products response with
     | product :: _, _ => Ok (extract_product_info product order_quantity)
     | [], [product] => Ok (extract_product_info product order_quantity)
     | [], [] =>
         Err (Exception (py "No products found for MPN: " ++ mpn))
     | [], _ :: _ :: _ =>
         Err (Exception (py "Multiple products found for MPN: " ++ mpn))
     end, w')
  ∧ ((∃ e, fst (search_digikey_info mpn order_quantity w) = Err e)
     ↔ ExactMatches response = []
       ∧ (Products response = [] ∨ (1 < length (Products response))%nat)).
Proof.
  intros Hresp. unfold catalog_response in Hresp.
  inv_bind Hresp. rename a into access_token, w0 into w1, H into Htok.
  assert (search_digikey_info mpn order_quantity w
          = (match ExactMatches response, Products response with
             | product :: _, _ =>
                 Ok (extract_product_info product order_quantity)
             | [], [product] =>
                 Ok (extract_product_info product order_quantity)
             | [], [] =>
                 Err (Exception (py "No products found for MPN: " ++ mpn))
             | [], _ :: _ :: _ =>
                 Err (Exception
                        (py "Multiple products found for MPN: " ++ mpn))
             end, w')) as Heq.
  { unfold search_digikey_info.
    rewrite (bind_Ok _ _ _ _ _ Htok), (bind_Ok _ _ _ _ _ Hresp).
    destruct (ExactMatches response) as [|p ?]; [|done].
    by destruct (Products response) as [|p [|p' ?]]. }
  split; [done|]. rewrite Heq. cbn [fst].
  destruct (ExactMatches response) as [|p ?].
  - destruct (Products response) as [|p [|p' ?]]; cbn [length].
    + split; [auto|eauto].
    + split; [by intros [e ?]|]. intros [_ [?|?]]; [done|lia].
    + split; [|eauto]. intros _. split; [done|]. right. lia.
  - split; [by intros [e ?]|]. by intros [? _].
Qed.

(** When the catalog gives no response, its error is the error of
    [search_digikey_info]. *)
Lemma search_digikey_info_no_response mpn order_quantity w w' e :
  catalog_response mpn w = (Err e, w') →
  search_digikey_info mpn order_quantity w = (Err e, w').
Proof.
  unfold catalog_response, search_digikey_info, bind.
  destruct (get_digikey_token _ _ w) as [[token|e1] w1];
    [|by intros [= -> ->]].
  destruct (get_cached_digikey_response _ _ _ _ w1) as [[r|e2] w2];
    [intros [=]|by intros [= -> ->]].
Qed.

(** ** The caches *)

Lemma app_singleton_neq {A} (l : list A) x : l ++ [x] ≠ l.
Proof.
  intros H. apply (f_equal length) in H. rewrite length_app in H.
  cbn in H. lia.
Qed.

Lemma fetch_digikey_response_logs cache_file url headers mpn limit w :
  ∃ r, http_log (snd (fetch_digikey_response cache_file url headers mpn
                        limit w))
       = http_log w ++ [r].
Proof.
  eexists. unfold fetch_digikey_response. run_world.
  destruct (status_code _ =? 200); by run_world.
Qed.

Lemma fetch_digikey_token_logs client_id client_secret w :
  ∃ r, http_log (snd (fetch_digikey_token client_id client_secret w))
       = http_log w ++ [r].
Proof.
  eexists. unfold fetch_digikey_token, raise_for_status. run_world.
  destruct (_ && _); by run_world.
Qed.

Lemma Qc_age_lt (now t d : Qc) : (now - t < d ↔ now < t + d)%Qc.
Proof.
  rewrite (Qcplus_lt_mono_r (now - t) d t).
  replace (now - t + t)%Qc with now by ring.
  by rewrite (Qcplus_comm d t).
Qed.

Lemma Qc_before_lt (now t d : Qc) : (d < t - now ↔ now < t - d)%Qc.
Proof.
  rewrite (Qcplus_lt_mono_r d (t - now) (now - d)).
  replace (d + (now - d))%Qc with now by ring.
  by replace (t - now + (now - d))%Qc with (t - d)%Qc by ring.
Qed.

Lemma get_cached_digikey_response_eq url headers Keywords Limit w :
  get_cached_digikey_response url headers Keywords Limit w
  = let cache_file := normalize_filename Keywords ++ py ".json" in
    match search_files w !! cache_file with
    | Some cached =>
        if bool_decide (clock (time_calls w)
                        < cached_at cached + Qc_of_Z (4 * 3600))%Qc
        then (Ok (response cached), tick w)
        else fetch_digikey_response cache_file url headers Keywords Limit
               (tick w)
    | None => fetch_digikey_response cache_file url headers Keywords Limit w
    end.
Proof.
  destruct w as [tc tf sf hl so].
  unfold get_cached_digikey_response, tick.
  cbv beta iota zeta delta [bind read_search_file time].
  cbn [time_calls token_file search_files http_log stdout].
  destruct (sf !! _); [|done].
  cbn [time_calls token_file search_files http_log stdout].
  change (3600 * 4) with (4 * 3600).
  by case_bool_decide.
Qed.

Lemma get_digikey_token_eq client_id client_secret w :
  get_digikey_token client_id client_secret w
  = match token_file w with
    | Some token =>
        if bool_decide (clock (time_calls w)
                        < expires_at token - Qc_of_Z 60)%Qc
        then (Ok (access_token token), tick w)
        else fetch_digikey_token client_id client_secret (tick w)
    | None => fetch_digikey_token client_id client_secret w
    end.
Proof.
  destruct w as [tc tf sf hl so].
  unfold get_digikey_token, tick.
  cbv beta iota zeta delta [bind read_token_file time].
  cbn [time_calls token_file search_files http_log stdout].
  destruct tf; [|done].
  cbn [time_calls token_file search_files http_log stdout].
  by case_bool_decide.
Qed.

(** C7. [get_cached_digikey_response] returns the stored response and
    issues no HTTP request exactly when the cache holds a file for the
    normalized keyword whose [cached_at] is less than four hours before
    the current time; [get_digikey_token] returns the stored token and
    issues no HTTP request exactly when the token file exists and its
    [expires_at] is more than 60 seconds after the current time. *)
Theorem cache_expiry :
  (∀ url headers Keywords Limit w,
     let cache_file := normalize_filename Keywords ++ py ".json" in
     let now := clock (time_calls w) in
     let out := get_cached_digikey_response url headers Keywords Limit w in
     (http_log (snd out) = http_log w
      ∧ ∃ cached, search_files w !! cache_file = Some cached
                  ∧ fst out = Ok (response cached))
     ↔ (∃ cached, search_files w !! cache_file = Some cached
                  ∧ (now - cached_at cached < Qc_of_Z (4 * 3600))%Qc))
  ∧ (∀ client_id client_secret w,
       let now := clock (time_calls w) in
       let out := get_digikey_token client_id client_secret w in
       (http_log (snd out) = http_log w
        ∧ ∃ token, token_file w = Some token
                   ∧ fst out = Ok (access_token token))
       ↔ (∃ token, token_file w = Some token
                   ∧ (Qc_of_Z 60 < expires_at token - now)%Qc)).
Proof.
  split.
  - intros url headers Keywords Limit w cache_file now out.
    subst out. rewrite get_cached_digikey_response_eq. cbv zeta.
    fold cache_file now.
    destruct (search_files w !! cache_file) as [cached|] eqn:Hfile.
    + case_bool_decide as Hfresh.
      * cbv beta iota delta [fst snd]. unfold tick. cbv beta iota delta [http_log].
        split; [|by eauto]. intros _. exists cached.
        split; [done|]. by apply Qc_age_lt.
      * destruct (fetch_digikey_response_logs cache_file url headers
                    Keywords Limit (tick w)) as [r Hr].
        rewrite Hr. unfold tick at 2. cbv beta iota delta [http_log].
        split.
        -- intros [Hlog _]. by apply app_singleton_neq in Hlog.
        -- intros (c & [= <-] & Hage). by apply Qc_age_lt in Hage.
    + destruct (fetch_digikey_response_logs cache_file url headers
                  Keywords Limit w) as [r Hr].
      rewrite Hr. split.
      * intros [Hlog _]. by apply app_singleton_neq in Hlog.
      * by intros (c & ? & _).
  - intros client_id client_secret w now out.
    subst out. rewrite get_digikey_token_eq. fold now.
    destruct (token_file w) as [token|] eqn:Hfile.
    + case_bool_decide as Hfresh.
      * cbv beta iota delta [fst snd]. unfold tick. cbv beta iota delta [http_log].
        split; [|by eauto]. intros _. exists token.
        split; [done|]. by apply Qc_before_lt.
      * destruct (fetch_digikey_token_logs client_id client_secret (tick w))
          as [r Hr].
        rewrite Hr. unfold tick at 2. cbv beta iota delta [http_log].
        split.
        -- intros [Hlog _]. by apply app_singleton_neq in Hlog.
        -- intros (c & [= <-] & Hage). by apply Qc_before_lt in Hage.
    + destruct (fetch_digikey_token_logs client_id client_secret w)
        as [r Hr].
      rewrite Hr. split.
      * intros [Hlog _]. by apply app_singleton_neq in Hlog.
      * by intros (c & ? & _).
Qed.
(** ** Comments that cannot be decoded *)

Lemma parse_resistor_comment_cases (comment : str) :
  match re_search RESISTOR_VALUE_RE comment,
        re_search FOOTPRINT_RE comment with
  | Some value_match, Some footprint_match =>
      let value := group value_match 1 in
      let footprint := group footprint_match 1 in
      match RESISTOR_VALUE_MAP_ERJ !! value,
            RESISTOR_FOOTPRINT_MAP_ERJ !! footprint,
            RESISTOR_FOOTPRINT_MAP_ERJ_SUFFIX !! footprint with
      | Some erj_value, Some erj_prefix, Some erj_suffix =>
          parse_resistor_comment comment
          = Ok {[ "mpn" := VStr (erj_prefix ++ erj_value ++ erj_suffix);
                  "value" := VStr value;
                  "footprint" := VStr footprint;
                  "description" :=
                    VStr (value ++ py " ±1% " ++ footprint
                          ++ py " thick film resistor 0.1W 50V ±100ppm/C");
                  "vendor" := VStr (py "DigiKey");
                  "manufacturer" :=
                    VStr (py "Panasonic Electronic Components") ]}
      | None, _, _ => parse_resistor_comment comment = Err (KeyError value)
      | Some _, _, _ =>
          parse_resistor_comment comment = Err (KeyError footprint)
      end
  | _, _ =>
      parse_resistor_comment comment
      = Err (ValueError (py "Invalid resistor comment"))
  end.
Proof.
  unfold parse_resistor_comment, erj_mpn, getitem, result_bind.
  destruct (re_search RESISTOR_VALUE_RE comment) as [value_match|]; [|done].
  destruct (re_search FOOTPRINT_RE comment) as [footprint_match|]; [|done].
  cbv zeta.
  destruct (RESISTOR_VALUE_MAP_ERJ !! _); [|done].
  destruct (RESISTOR_FOOTPRINT_MAP_ERJ !! _); [|done].
  by destruct (RESISTOR_FOOTPRINT_MAP_ERJ_SUFFIX !! _).
Qed.

Lemma parse_capacitor_comment_cases (comment : str) :
  match re_search VOLTAGE_RE comment,
        re_search CAPACITOR_VALUE_RE comment,
        re_search CAPACITOR_TYPE_RE comment,
        re_search TOLERANCE_RE comment,
        re_search FOOTPRINT_RE comment with
  | Some voltage_match, Some value_match, Some type_match,
    Some tolerance_match, Some footprint_match =>
      match decimal_of_str (group voltage_match 1),
            int_of_str (group tolerance_match 1) with
      | Ok voltage, Ok tolerance =>
          let value := group value_match 1 ++ group value_match 2 in
          let cap_type := group type_match 1 in
          let footprint := group footprint_match 1 in
          let key := (voltage, value, cap_type, tolerance, footprint) in
          match CAPACITOR_MAP !! key with
          | Some mpn =>
              parse_capacitor_comment comment
              = Ok {[ "mpn" := VStr mpn;
                      "value" := VStr value;
                      "footprint" := VStr footprint;
                      "description" :=
                        VStr (value ++ py " ±" ++ str_of_int tolerance
                              ++ py "% " ++ cap_type ++ py " " ++ footprint
                              ++ py " capacitor (MLCC)");
                      "vendor" := VStr (py "DigiKey");
                      "manufacturer" := VStr (py "Murata") ]}
          | None =>
              parse_capacitor_comment comment = Err (KeyErrorCapacitor key)
          end
      | Err e, _ => parse_capacitor_comment comment = Err e
      | Ok _, Err e => parse_capacitor_comment comment = Err e
      end
  | _, _, _, _, _ =>
      parse_capacitor_comment comment
      = Err (ValueError (py "Invalid capacitor comment"))
  end.
Proof.
  unfold parse_capacitor_comment, result_bind.
  destruct (re_search VOLTAGE_RE comment) as [voltage_match|]; [|done].
  destruct (re_search CAPACITOR_VALUE_RE comment) as [value_match|]; [|done].
  destruct (re_search CAPACITOR_TYPE_RE comment) as [type_match|]; [|done].
  destruct (re_search TOLERANCE_RE comment) as [tolerance_match|]; [|done].
  destruct (re_search FOOTPRINT_RE comment) as [footprint_match|]; [|done].
  destruct (decimal_of_str _) as [voltage|e]; [|done].
  destruct (int_of_str _) as [tolerance|e]; [|done].
  cbv zeta. by destruct (CAPACITOR_MAP !! _).
Qed.

Lemma dom_parsed_record (a b c d e f : value) :
  dom ({[ "mpn" := a; "value" := b; "footprint" := c; "description" := d;
          "vendor" := e; "manufacturer" := f ]} : dict)
  = PARSED_FIELDS.
Proof.
  unfold PARSED_FIELDS. rewrite !dom_insert_L, dom_singleton_L. set_solver.
Qed.








(** ** Decoding of a resistor comment *)

(** Every value of the table is a run of digits and dots followed by a
    run of [k] and [Ω]. *)
Lemma resistor_value_shape value :
  is_Some (RESISTOR_VALUE_MAP_ERJ !! value) →
  ∃ number unit,
    value = number ++ unit
    ∧ is_nil number = false ∧ is_nil unit = false
    ∧ forallb is_digit_or_dot number = true
    ∧ forallb is_k_or_ohm unit = true.
Proof.
  intros [code H]. apply elem_of_list_to_map_2 in H.
  repeat (apply elem_of_cons in H as [H|H]);
    try (by apply elem_of_nil in H);
    injection H as -> _;
    match goal with
    | |- ∃ n u, ?v = _ ∧ _ =>
        exists (fst (span is_digit_or_dot v)), (snd (span is_digit_or_dot v))
    end;
    by vm_compute.
Qed.

Lemma match_resistor_value_at value post :
  is_Some (RESISTOR_VALUE_MAP_ERJ !! value) →
  (∀ c rest, post = c :: rest → is_k_or_ohm c = false) →
  match_resistor_value (py "±1% " ++ value ++ post) = Some value.
Proof.
  intros Hv Hpost.
  destruct (resistor_value_shape _ Hv) as (number & unit & -> & Hn & Hu & Hfn & Hfu).
  unfold match_resistor_value. rewrite strip_prefix_app.
  rewrite <- !app_assoc.
  rewrite (span_run is_digit_or_dot number (unit ++ post)); [|done|].
  - rewrite (span_run is_k_or_ohm unit post) by done.
    by destruct number, unit.
  - intros c r Hc. destruct unit as [|u unit]; [done|].
    injection Hc as <- _. apply is_k_or_ohm_not_digit_or_dot.
    cbn in Hfu. by apply andb_true_iff in Hfu as [? _].
Qed.

Lemma match_resistor_value_None rest :
  ¬ starts_with_value rest →
  match_resistor_value (py "±1% " ++ rest) = None.
Proof.
  intros Hno. unfold match_resistor_value. rewrite strip_prefix_app.
  pose proof (span_app is_digit_or_dot rest) as Hrest.
  pose proof (span_fst_forallb is_digit_or_dot rest) as Hnum.
  destruct (span is_digit_or_dot rest) as [number r1].
  cbn [fst snd] in Hrest, Hnum.
  pose proof (span_app is_k_or_ohm r1) as Hr1.
  pose proof (span_fst_forallb is_k_or_ohm r1) as Hunit.
  destruct (span is_k_or_ohm r1) as [unit r2].
  cbn [fst snd] in Hr1, Hunit.
  destruct number as [|n0 number]; [done|].
  destruct unit as [|u unit]; [done|].
  destruct Hno. exists (n0 :: number), u, (unit ++ r2).
  repeat split; try done.
  - by rewrite <- Hrest, <- Hr1.
  - cbn in Hunit. by apply andb_true_iff in Hunit as [? _].
Qed.

Lemma leftmost_resistor_value comment pre value post :
  comment = pre ++ py "±1% " ++ value ++ post →
  (∀ pre' rest', comment = pre' ++ py "±1% " ++ rest' →
                 (length pre' < length pre)%nat →
                 ¬ starts_with_value rest') →
  (∀ c rest, post = c :: rest → is_k_or_ohm c = false) →
  is_Some (RESISTOR_VALUE_MAP_ERJ !! value) →
  leftmost match_resistor_value comment = Some value.
Proof.
  intros -> Hfirst Hpost Hv.
  rewrite leftmost_skip.
  - by apply leftmost_here, match_resistor_value_at.
  - intros a b -> Hb.
    destruct (strip_prefix (py "±1% ") (b ++ py "±1% " ++ value ++ post))
      as [r|] eqn:Hs.
    + apply strip_prefix_Some in Hs. rewrite Hs.
      apply match_resistor_value_None, (Hfirst a).
      * by rewrite <- app_assoc, Hs.
      * rewrite length_app. destruct b; [done|]. cbn. lia.
    + unfold match_resistor_value. by rewrite Hs.
Qed.

Lemma match_footprint_Some s fp :
  match_footprint s = Some fp ↔ four_digits_at s [] fp.
Proof.
  unfold match_footprint, four_digits_at. split.
  - destruct s as [|a [|b [|c [|d post]]]]; try done.
    destruct (forallb _ _) eqn:Hd; [|done]. intros [= <-]. by exists post.
  - intros (post & -> & Hlen & Hd).
    destruct fp as [|a [|b [|c [|d [|]]]]]; try done.
    cbn [app]. by rewrite Hd.
Qed.

Lemma four_digits_at_cons c s pre fp :
  four_digits_at (c :: s) (c :: pre) fp ↔ four_digits_at s pre fp.
Proof.
  unfold four_digits_at. split; intros (post & H & ?); exists post.
  - cbn in H. by injection H as ->.
  - split; [|done]. cbn. by rewrite H.
Qed.

Lemma four_digits_at_head s c pre fp :
  four_digits_at s (c :: pre) fp → ∃ s', s = c :: s'.
Proof. intros (post & -> & _). by eexists. Qed.

(** The leftmost place with four leading digits is the first four-digit
    substring. *)
Lemma leftmost_footprint s fp :
  leftmost match_footprint s = Some fp ↔ first_four_digits s fp.
Proof.
  split.
  - induction s as [|c s IH].
    + cbn. done.
    + cbn [leftmost]. destruct (match_footprint (c :: s)) as [fp'|] eqn:Hm.
      * intros [= ->]. exists []. split; [by apply match_footprint_Some|].
        intros; cbn; lia.
      * intros H. destruct (IH H) as (pre & Hat & Hmin).
        exists (c :: pre). split; [by apply four_digits_at_cons|].
        intros [|c' pre'] fp' Hat'.
        -- apply match_footprint_Some in Hat'. congruence.
        -- destruct (four_digits_at_head _ _ _ _ Hat') as [s' [= <- <-]].
           apply four_digits_at_cons in Hat'.
           cbn. specialize (Hmin _ _ Hat'). lia.
  - intros (pre & Hat & Hmin). revert s Hat Hmin.
    induction pre as [|c pre IH]; intros s Hat Hmin.
    + apply leftmost_here. by apply match_footprint_Some.
    + destruct (four_digits_at_head _ _ _ _ Hat) as [s' ->].
      cbn [leftmost].
      destruct (match_footprint (c :: s')) as [fp'|] eqn:Hm.
      * apply match_footprint_Some in Hm. specialize (Hmin _ _ Hm).
        cbn in Hmin. lia.
      * apply IH; [by apply four_digits_at_cons in Hat|].
        intros pre' fp' Hat'.
        apply (four_digits_at_cons c) in Hat'.
        specialize (Hmin _ _ Hat'). cbn in Hmin. lia.
Qed.

(** C2, amended.  Take a comment in which [±1% ] is immediately followed
    by a value of the resistor value table, at the first place where
    [±1% ] is followed by digits or dots and then by [k] or [Ω], the value
    not being followed by a further [k] or [Ω]; let its first four-digit
    substring be one of the footprints 0402 and 0603.  Then
    [parse_resistor_comment] returns the identifier made of the ERJ
    prefix of the footprint, the code of the value and the suffix of the
    footprint. *)
Theorem parse_resistor_comment_decodes
    (comment pre value post footprint : str) :
  comment = pre ++ py "±1% " ++ value ++ post →
  (∀ pre' rest', comment = pre' ++ py "±1% " ++ rest' →
                 (length pre' < length pre)%nat →
                 ¬ starts_with_value rest') →
  (∀ c rest, post = c :: rest → is_k_or_ohm c = false) →
  is_Some (RESISTOR_VALUE_MAP_ERJ !! value) →
  first_four_digits comment footprint →
  footprint ∈ [py "0402"; py "0603"] →
  ∃ erj_prefix erj_value erj_suffix data,
    RESISTOR_FOOTPRINT_MAP_ERJ !! footprint = Some erj_prefix
    ∧ RESISTOR_VALUE_MAP_ERJ !! value = Some erj_value
    ∧ RESISTOR_FOOTPRINT_MAP_ERJ_SUFFIX !! footprint = Some erj_suffix
    ∧ parse_resistor_comment comment = Ok data
    ∧ data !! "mpn" = Some (VStr (erj_prefix ++ erj_value ++ erj_suffix)).
Proof.
  intros Hc Hfirst Hpost Hv Hfp Hin.
  pose proof (leftmost_resistor_value _ _ _ _ Hc Hfirst Hpost Hv) as Hvm.
  apply leftmost_footprint in Hfp.
  pose proof (parse_resistor_comment_cases comment) as H.
  rewrite re_search_resistor_value_spec, re_search_footprint_spec in H.
  rewrite Hvm, Hfp in H.
  cbn [fmap option_fmap option_map group pred nth] in H.
  destruct Hv as [erj_value Hv].
  assert (∃ p s, RESISTOR_FOOTPRINT_MAP_ERJ !! footprint = Some p
                 ∧ RESISTOR_FOOTPRINT_MAP_ERJ_SUFFIX !! footprint = Some s)
    as (p & s & Hp & Hs).
  { repeat (apply elem_of_cons in Hin as [->|Hin]);
      [| |by apply elem_of_nil in Hin]; eexists _, _; by vm_compute. }
  unfold str, char in *. rewrite Hv, Hp, Hs in H.
  eexists p, erj_value, s, _. by repeat split.
Qed.
(** ** The stable sort by descending key *)









(** ** One BOM row *)

Lemma select_loop_dom cs st :
  dom (snd (foldl select_step st cs))
  ⊆ dom (snd st)
    ∪ ({[ "vendor_part_number"; "unit_price"; "available" ]} : gset string).
Proof.
  revert st. induction cs as [|[v p] cs IH]; intros st; cbn [foldl].
  - set_solver.
  - etrans; [apply IH|]. unfold select_step.
    destruct (float_lt _ _); cbn [snd]; [|set_solver].
    rewrite !dom_insert_L. set_solver.
Qed.

Lemma extract_product_info_dom (response : product) (order_quantity : Z) :
  dom (extract_product_info response order_quantity) ⊆ EXTRACTED_FIELDS.
Proof.
  destruct (extract_product_info_loop response order_quantity)
    as (data0 & -> & _ & Hdom).
  etrans; [apply select_loop_dom|]. cbn [snd].
  unfold EXTRACTED_FIELDS. set_solver.
Qed.

Lemma extract_product_info_lacks (response : product) (order_quantity : Z) k :
  k ∉ EXTRACTED_FIELDS →
  extract_product_info response order_quantity !! k = None.
Proof.
  intros Hk. apply not_elem_of_dom. intros H.
  by apply extract_product_info_dom in H.
Qed.


Lemma search_digikey_info_Ok mpn order_quantity w info w' :
  search_digikey_info mpn order_quantity w = (Ok info, w') →
  ∃ product,
    looked_up product ∧ info = extract_product_info product order_quantity.
Proof.
  destruct (catalog_response mpn w) as [[response|e] w1] eqn:Hcat.
  - unfold catalog_response in Hcat. pose proof Hcat as Hcat'.
    inv_bind Hcat. unfold search_digikey_info.
    rewrite (bind_Ok _ _ _ _ _ H), (bind_Ok _ _ _ _ _ Hcat).
    intros Hs. inv_bind Hs. unfold ret in Hs. injection Hs as <- <-.
    exists a0. split; [|done].
    exists mpn, w, w1, response. split; [done|].
    destruct (ExactMatches response) as [|p ?].
    + destruct (Products response) as [|p [|p' ?]]; try done.
      unfold ret in H0. injection H0 as -> _. set_solver.
    + unfold ret in H0. injection H0 as -> _. set_solver.
  - rewrite (search_digikey_info_no_response _ _ _ _ _ Hcat). done.
Qed.

Lemma parse_resistor_comment_Ok comment (parsed : dict) :
  parse_resistor_comment comment = Ok parsed →
  dom parsed = PARSED_FIELDS ∧ ∃ mpn, parsed !! "mpn" = Some (VStr mpn).
Proof.
  pose proof (parse_resistor_comment_cases comment) as H.
  repeat (first [case_match | progress cbv zeta in H]); rewrite H; try done.
  intros [= <-]. split; [apply dom_parsed_record|]. eexists.
  apply lookup_insert_eq.
Qed.

Lemma parse_capacitor_comment_Ok comment (parsed : dict) :
  parse_capacitor_comment comment = Ok parsed →
  dom parsed = PARSED_FIELDS ∧ ∃ mpn, parsed !! "mpn" = Some (VStr mpn).
Proof.
  pose proof (parse_capacitor_comment_cases comment) as H.
  repeat case_match; try (rewrite H; done).
  cbv zeta in H. case_match; rewrite H; [|done].
  intros [= <-]. split; [apply dom_parsed_record|]. eexists.
  apply lookup_insert_eq.
Qed.



(** ** The whole BOM and the report *)

















Lemma main_parse_error bom (boards : Z) w e w1 :
  parse_bom bom boards w = (Err e, w1) →
  main bom boards w = (Err e, w1).
Proof. intros H. unfold main. by rewrite (bind_Err _ _ _ _ _ H). Qed.
(** ** The claims on the report *)








(** ** More on file names *)

Lemma is_invalid_underscore : is_invalid UNDERSCORE = false.
Proof. by vm_compute. Qed.

Lemma is_underscore_spec c : is_underscore c = true ↔ c = UNDERSCORE.
Proof. unfold is_underscore. apply N.eqb_eq. Qed.

Lemma is_kept_underscore c : is_underscore c = true → is_kept c = false.
Proof. unfold is_kept. intros ->. by rewrite orb_true_r. Qed.

Lemma filter_kept_replace_invalid s :
  List.filter is_kept (replace_invalid s) = List.filter is_kept s.
Proof.
  unfold replace_invalid.
  induction s as [|c s IH]; [done|]. cbn [map List.filter]. rewrite IH.
  destruct (is_invalid c) eqn:Hc; [|done].
  assert (is_kept UNDERSCORE = false) as -> by (by vm_compute).
  assert (is_kept c = false) as -> by (unfold is_kept; by rewrite Hc).
  done.
Qed.

Lemma filter_kept_squeeze s :
  List.filter is_kept (squeeze_underscores s) = List.filter is_kept s.
Proof.
  induction s as [|c r IH]; [done|].
  destruct r as [|c' r']; [done|].
  rewrite squeeze_cons2.
  destruct ((c =? UNDERSCORE) && (c' =? UNDERSCORE))%N eqn:Hcc.
  - rewrite IH. apply andb_true_iff in Hcc as [Hc _].
    cbn [List.filter]. fold (is_underscore c) in Hc.
    by rewrite (is_kept_underscore c Hc).
  - cbn [List.filter] in *. by rewrite IH.
Qed.

Lemma filter_kept_dropwhile s :
  List.filter is_kept (dropwhile is_underscore s) = List.filter is_kept s.
Proof.
  unfold dropwhile.
  induction s as [|c r IH]; [done|]. cbn [span].
  destruct (is_underscore c) eqn:Hc; [|done].
  destruct (span is_underscore r) as [a b]. cbn [snd] in *.
  rewrite IH. cbn [List.filter]. by rewrite (is_kept_underscore c Hc).
Qed.

Lemma filter_kept_strip s :
  List.filter is_kept (strip_underscores s) = List.filter is_kept s.
Proof.
  unfold strip_underscores, rstrip_underscores, lstrip_underscores.
  rewrite filter_rev, filter_kept_dropwhile, filter_rev, rev_involutive.
  apply filter_kept_dropwhile.
Qed.

Lemma filter_kept_normalize s :
  List.filter is_kept (normalize_filename s) = List.filter is_kept s.
Proof.
  unfold normalize_filename. cbv zeta.
  by rewrite filter_kept_strip, filter_kept_squeeze,
    filter_kept_replace_invalid.
Qed.

Lemma normalize_filename_length s :
  (length (normalize_filename s) ≤ length s)%nat.
Proof.
  unfold normalize_filename. cbv zeta.
  etrans; [apply sublist_length, strip_sublist|].
  etrans; [apply sublist_length, squeeze_sublist|].
  unfold replace_invalid. by rewrite length_map.
Qed.

(** X1. The strings that [normalize_filename] leaves as they are, are
    those that hold no character of the class, no two underscores in a
    row and no underscore at either end. *)
Theorem normalize_filename_fixed_points (s : str) :
  normalize_filename s = s
  ↔ has_invalid_char s = false ∧ has_double_underscore s = false
    ∧ starts_with_underscore s = false ∧ ends_with_underscore s = false.
Proof.
  split.
  - intros H. pose proof (normalize_filename_clean s) as Hc.
    cbv zeta in Hc. by rewrite H in Hc.
  - intros (Hi & Hd & Hs & He). unfold normalize_filename. cbv zeta.
    rewrite (replace_invalid_id s Hi), (squeeze_id s Hd).
    by apply strip_id.
Qed.

(** X2. [normalize_filename] never makes a name longer, and all it
    removes or replaces are underscores and characters of the class:
    the other characters of the name are those of the result, in the
    same order.  The result is empty exactly when the name has no other
    character, so that all such names (the empty one among them) share
    one file name. *)
Theorem normalize_filename_keeps (s : str) :
  (length (normalize_filename s) ≤ length s)%nat
  ∧ List.filter is_kept (normalize_filename s) = List.filter is_kept s
  ∧ (normalize_filename s = []
     ↔ forallb (λ c, is_invalid c || is_underscore c) s = true).
Proof.
  split; [apply normalize_filename_length|].
  split; [apply filter_kept_normalize|].
  pose proof (filter_kept_normalize s) as Hf.
  assert (∀ l, List.filter is_kept l = []
               ↔ forallb (λ c, is_invalid c || is_underscore c) l = true)
    as Hall.
  { induction l as [|c l IH]; [done|]. cbn [List.filter forallb].
    unfold is_kept at 1.
    destruct (is_invalid c || is_underscore c); cbn [negb andb]; [done|].
    split; done. }
  split.
  - intros H. rewrite H in Hf. apply Hall. by rewrite <- Hf.
  - intros H. apply Hall in H. rewrite H in Hf.
    destruct (normalize_filename_clean s) as (Hi & _ & Hs & _).
    cbv zeta in Hi, Hs.
    destruct (normalize_filename s) as [|c r]; [done|].
    exfalso. cbn [List.filter] in Hf. unfold is_kept at 1 in Hf.
    cbn [starts_with_underscore] in Hs. rewrite Hs, orb_false_r in Hf.
    cbn [has_invalid_char existsb] in Hi.
    apply orb_false_iff in Hi as [Hi _]. by rewrite Hi in Hf.
Qed.
(** ** More on the caches *)

Lemma fetch_digikey_response_eq cache_file url headers mpn limit w :
  fetch_digikey_response cache_file url headers mpn limit w
  = let request := SearchRequest url headers mpn limit in
    let answer := search_endpoint (length (http_log w)) mpn in
    if status_code answer =? 200 then
      (Ok (json answer),
       {| time_calls := S (time_calls w); token_file := token_file w;
          search_files :=
            <[cache_file :=
                {| response := json answer; cached_at := clock (time_calls w);
                   cached_request := request |}]> (search_files w);
          http_log := http_log w ++ [request];
          stdout := stdout w ++ [Fetching mpn] |})
    else
      (Err (Exception (py "API request failed: " ++ text answer)),
       {| time_calls := time_calls w; token_file := token_file w;
          search_files := search_files w;
          http_log := http_log w ++ [request];
          stdout := stdout w ++ [Fetching mpn] |}).
Proof.
  destruct w as [tc tf sf hl so].
  unfold fetch_digikey_response. run_world.
  destruct (status_code _ =? 200); by run_world.
Qed.

Lemma fetch_digikey_token_eq client_id client_secret w :
  fetch_digikey_token client_id client_secret w
  = let request :=
      TokenRequest client_id client_secret (py "client_credentials") in
    let answer := token_endpoint (length (http_log w)) in
    if (400 <=? token_status_code answer) && (token_status_code answer <? 600)
    then
      (Err (HTTPError (token_status_code answer)),
       {| time_calls := time_calls w; token_file := token_file w;
          search_files := search_files w;
          http_log := http_log w ++ [request]; stdout := stdout w |})
    else
      (Ok (token_json_access_token answer),
       {| time_calls := S (time_calls w);
          token_file :=
            Some {| access_token := token_json_access_token answer;
                    expires_in := token_json_expires_in answer;
                    expires_at :=
                      (clock (time_calls w) + token_json_expires_in answer)%Qc |};
          search_files := search_files w;
          http_log := http_log w ++ [request]; stdout := stdout w |}).
Proof.
  destruct w as [tc tf sf hl so].
  unfold fetch_digikey_token, raise_for_status. run_world.
  destruct (_ && _); by run_world.
Qed.

Lemma get_cached_digikey_response_file url headers Keywords Limit w :
  get_cached_digikey_response url headers Keywords Limit w
  = match search_files w !! cache_file_of Keywords with
    | Some cached =>
        if bool_decide (clock (time_calls w)
                        < cached_at cached + Qc_of_Z (4 * 3600))%Qc
        then (Ok (response cached), tick w)
        else fetch_digikey_response (cache_file_of Keywords) url headers
               Keywords Limit (tick w)
    | None =>
        fetch_digikey_response (cache_file_of Keywords) url headers Keywords
          Limit w
    end.
Proof. exact (get_cached_digikey_response_eq url headers Keywords Limit w). Qed.

Lemma get_cached_digikey_response_hit url headers Keywords Limit w cached :
  search_files w !! cache_file_of Keywords = Some cached →
  (clock (time_calls w) - cached_at cached < Qc_of_Z (4 * 3600))%Qc →
  get_cached_digikey_response url headers Keywords Limit w
  = (Ok (response cached), tick w).
Proof.
  intros Hfile Hage. rewrite get_cached_digikey_response_file, Hfile.
  rewrite bool_decide_eq_true_2; [done|]. by apply Qc_age_lt.
Qed.

Lemma get_cached_digikey_response_miss url headers Keywords Limit w :
  ¬ cached_fresh Keywords w →
  get_cached_digikey_response url headers Keywords Limit w
  = fetch_digikey_response (cache_file_of Keywords) url headers Keywords
      Limit (after_check (search_files w !! cache_file_of Keywords) w).
Proof.
  intros Hmiss. rewrite get_cached_digikey_response_file.
  destruct (search_files w !! cache_file_of Keywords) as [cached|] eqn:Hfile;
    [|done].
  rewrite bool_decide_eq_false_2; [done|].
  intros Hage. apply Hmiss. exists cached. split; [done|].
  by apply Qc_age_lt.
Qed.

Lemma get_digikey_token_hit client_id client_secret w token :
  token_file w = Some token →
  (Qc_of_Z 60 < expires_at token - clock (time_calls w))%Qc →
  get_digikey_token client_id client_secret w
  = (Ok (access_token token), tick w).
Proof.
  intros Hfile Hage. rewrite get_digikey_token_eq, Hfile.
  rewrite bool_decide_eq_true_2; [done|]. by apply Qc_before_lt.
Qed.

Lemma get_digikey_token_miss client_id client_secret w :
  ¬ token_fresh w →
  get_digikey_token client_id client_secret w
  = fetch_digikey_token client_id client_secret
      (after_check (token_file w) w).
Proof.
  intros Hmiss. rewrite get_digikey_token_eq.
  destruct (token_file w) as [token|] eqn:Hfile; [|done].
  rewrite bool_decide_eq_false_2; [done|].
  intros Hage. apply Hmiss. exists token. split; [done|].
  by apply Qc_before_lt.
Qed.

Lemma cached_fresh_dec Keywords w : cached_fresh Keywords w ∨ ¬ cached_fresh Keywords w.
Proof.
  unfold cached_fresh.
  destruct (search_files w !! cache_file_of Keywords) as [cached|];
    [|right; by intros (? & ? & _)].
  destruct (decide (clock (time_calls w) - cached_at cached
                    < Qc_of_Z (4 * 3600))%Qc) as [H|H].
  - left. by exists cached.
  - right. intros (c & [= <-] & Hc). done.
Qed.

Lemma token_fresh_dec w : token_fresh w ∨ ¬ token_fresh w.
Proof.
  unfold token_fresh.
  destruct (token_file w) as [token|]; [|right; by intros (? & ? & _)].
  destruct (decide (Qc_of_Z 60 < expires_at token - clock (time_calls w))%Qc)
    as [H|H].
  - left. by exists token.
  - right. intros (c & [= <-] & Hc). done.
Qed.

Lemma after_check_fields {A} (file : option A) w :
  token_file (after_check file w) = token_file w
  ∧ search_files (after_check file w) = search_files w
  ∧ http_log (after_check file w) = http_log w
  ∧ stdout (after_check file w) = stdout w.
Proof. by destruct file. Qed.

(** X3. Round trip of the search cache.  When
    [get_cached_digikey_response] had to ask the catalog and got a
    response, it has stored that response, with the time of the last
    reading of the clock, in the file of the keyword and in no other
    file.  From then on, as long as the file is there and less than four
    hours have passed since that time, the response is served without
    request, with any URL, headers and limit, for that keyword and for
    every keyword with the same normalized file name. *)
Theorem search_cache_round_trip url headers Keywords Limit w r w1 :
  get_cached_digikey_response url headers Keywords Limit w = (Ok r, w1) →
  http_log w1 ≠ http_log w →
  ∃ cached n,
    search_files w1 = <[cache_file_of Keywords := cached]> (search_files w)
    ∧ response cached = r
    ∧ time_calls w1 = S n
    ∧ cached_at cached = clock n
    ∧ ∀ url' headers' Keywords' Limit' w2,
        normalize_filename Keywords' = normalize_filename Keywords →
        search_files w2 !! cache_file_of Keywords = Some cached →
        (clock (time_calls w2) - cached_at cached < Qc_of_Z (4 * 3600))%Qc →
        get_cached_digikey_response url' headers' Keywords' Limit' w2
        = (Ok r, tick w2).
Proof.
  intros Hrun Hlog.
  destruct (cached_fresh_dec Keywords w) as [(cached & Hfile & Hage)|Hmiss].
  { rewrite (get_cached_digikey_response_hit _ _ _ _ _ _ Hfile Hage) in Hrun.
    injection Hrun as _ <-. by destruct w. }
  rewrite (get_cached_digikey_response_miss _ _ _ _ _ Hmiss) in Hrun.
  rewrite fetch_digikey_response_eq in Hrun. cbv zeta in Hrun.
  destruct (after_check_fields (search_files w !! cache_file_of Keywords) w)
    as (_ & Hsf & _ & _).
  destruct (status_code _ =? 200); [|done].
  injection Hrun as <- <-.
  eexists _, _. cbn [search_files time_calls response cached_at].
  rewrite Hsf. split; [done|]. split; [done|]. split; [done|].
  split; [done|].
  intros url' headers' Keywords' Limit' w2 Hname Hfile Hage.
  assert (cache_file_of Keywords' = cache_file_of Keywords) as Hf
    by (unfold cache_file_of; by rewrite Hname).
  rewrite (get_cached_digikey_response_hit url' headers' Keywords' Limit' w2
             _ (eq_trans (f_equal (λ f, search_files w2 !! f) Hf) Hfile) Hage).
  done.
Qed.

(** X4. Round trip of the token cache.  When [get_digikey_token] had to
    ask for a token and got one, the token file holds it, with an expiry
    time that is the last reading of the clock plus the lifetime that
    the end point gave.  From then on, as long as the file holds it and
    the clock reads more than 60 seconds before that expiry time, the
    token is returned without request, whatever the client identifier
    and secret of the call. *)
Theorem token_round_trip client_id client_secret w token w1 :
  get_digikey_token client_id client_secret w = (Ok token, w1) →
  http_log w1 ≠ http_log w →
  ∃ stored n,
    token_file w1 = Some stored
    ∧ access_token stored = token
    ∧ time_calls w1 = S n
    ∧ expires_at stored = (clock n + expires_in stored)%Qc
    ∧ ∀ client_id' client_secret' w2,
        token_file w2 = Some stored →
        (Qc_of_Z 60 < expires_at stored - clock (time_calls w2))%Qc →
        get_digikey_token client_id' client_secret' w2
        = (Ok token, tick w2).
Proof.
  intros Hrun Hlog.
  destruct (token_fresh_dec w) as [(stored & Hfile & Hage)|Hmiss].
  { rewrite (get_digikey_token_hit _ _ _ _ Hfile Hage) in Hrun.
    injection Hrun as _ <-. by destruct w. }
  rewrite (get_digikey_token_miss _ _ _ Hmiss) in Hrun.
  rewrite fetch_digikey_token_eq in Hrun. cbv zeta in Hrun.
  destruct (_ && _); [done|].
  injection Hrun as <- <-.
  eexists _, _. cbn [token_file time_calls access_token expires_at expires_in].
  split; [done|]. split; [done|]. split; [done|]. split; [done|].
  intros client_id' client_secret' w2 Hfile Hage.
  by rewrite (get_digikey_token_hit _ _ _ _ Hfile Hage).
Qed.

(** X7. When the search cache has no response for the keyword that is
    less than four hours old, [get_cached_digikey_response] prints that
    it fetches the keyword and issues one request, with the URL, the
    headers, the keyword and the limit it was given.  On an answer of
    status 200 it returns the body and writes the file of the keyword;
    on any other status, 2xx included, it raises [API request failed]
    with the text of the answer and writes no file. *)
Theorem search_cache_miss url headers Keywords Limit w :
  ¬ cached_fresh Keywords w →
  let answer := search_endpoint (length (http_log w)) Keywords in
  let out := get_cached_digikey_response url headers Keywords Limit w in
  http_log (snd out)
  = http_log w ++ [SearchRequest url headers Keywords Limit]
  ∧ stdout (snd out) = stdout w ++ [Fetching Keywords]
  ∧ token_file (snd out) = token_file w
  ∧ (status_code answer = 200 →
     fst out = Ok (json answer)
     ∧ ∃ cached,
         response cached = json answer
         ∧ search_files (snd out)
           = <[cache_file_of Keywords := cached]> (search_files w))
  ∧ (status_code answer ≠ 200 →
     fst out = Err (Exception (py "API request failed: " ++ text answer))
     ∧ search_files (snd out) = search_files w).
Proof.
  intros Hmiss answer out. subst out answer.
  rewrite (get_cached_digikey_response_miss _ _ _ _ _ Hmiss).
  rewrite fetch_digikey_response_eq. cbv zeta.
  destruct (after_check_fields (search_files w !! cache_file_of Keywords) w)
    as (Htf & Hsf & Hhl & Hso).
  rewrite Hhl.
  destruct (status_code _ =? 200) eqn:Hst;
    cbn [fst snd time_calls token_file search_files http_log stdout];
    rewrite ?Htf, ?Hsf, ?Hhl, ?Hso.
  - apply Z.eqb_eq in Hst.
    split; [done|]. split; [done|]. split; [done|].
    split; [|intros Hn; by destruct Hn].
    intros _. split; [done|]. eexists. split; [|reflexivity]. done.
  - apply Z.eqb_neq in Hst.
    split; [done|]. split; [done|]. split; [done|]. split; [done|].
    intros _. done.
Qed.

(** X8. When the token file holds no token that is good for more than
    60 seconds, [get_digikey_token] issues one token request with the
    client identifier and secret it was given, and prints nothing.  On
    an answer of status 400 to 599 it raises [HTTPError] and leaves the
    token file as it was; on any other status it returns the token of
    the body and stores it with the lifetime of the body. *)
Theorem token_cache_miss client_id client_secret w :
  ¬ token_fresh w →
  let answer := token_endpoint (length (http_log w)) in
  let status := token_status_code answer in
  let out := get_digikey_token client_id client_secret w in
  http_log (snd out)
  = http_log w
    ++ [TokenRequest client_id client_secret (py "client_credentials")]
  ∧ stdout (snd out) = stdout w
  ∧ search_files (snd out) = search_files w
  ∧ (400 ≤ status < 600 →
     fst out = Err (HTTPError status)
     ∧ token_file (snd out) = token_file w)
  ∧ (¬ 400 ≤ status < 600 →
     fst out = Ok (token_json_access_token answer)
     ∧ ∃ stored,
         token_file (snd out) = Some stored
         ∧ access_token stored = token_json_access_token answer
         ∧ expires_in stored = token_json_expires_in answer).
Proof.
  intros Hmiss answer status out. subst out status answer.
  rewrite (get_digikey_token_miss _ _ _ Hmiss).
  rewrite fetch_digikey_token_eq. cbv zeta.
  destruct (after_check_fields (token_file w) w) as (Htf & Hsf & Hhl & Hso).
  rewrite Hhl.
  destruct (_ && _) eqn:Hst;
    cbn [fst snd time_calls token_file search_files http_log stdout];
    rewrite ?Htf, ?Hsf, ?Hhl, ?Hso.
  - split; [done|]. split; [done|]. split; [done|]. split; [done|].
    intros Hn. exfalso. apply Hn. apply andb_true_iff in Hst as [H1 H2].
    apply Z.leb_le in H1. apply Z.ltb_lt in H2. done.
  - split; [done|]. split; [done|]. split; [done|]. split.
    + intros [H1 H2]. exfalso.
      apply Z.leb_le in H1. apply Z.ltb_lt in H2.
      rewrite H1, H2 in Hst. done.
    + intros _. split; [done|]. by eexists.
Qed.

(** X9. When [search_digikey_info] needs a token and the token end
    point answers with a status of 400 to 599, it raises the
    [HTTPError] of that status: no keyword search is sent, nothing is
    printed and no file is written. *)
Theorem search_digikey_info_token_failure mpn order_quantity w :
  ¬ token_fresh w →
  let status := token_status_code (token_endpoint (length (http_log w))) in
  400 ≤ status < 600 →
  let out := search_digikey_info mpn order_quantity w in
  fst out = Err (HTTPError status)
  ∧ http_log (snd out)
    = http_log w
      ++ [TokenRequest CLIENT_ID CLIENT_SECRET (py "client_credentials")]
  ∧ stdout (snd out) = stdout w
  ∧ search_files (snd out) = search_files w
  ∧ token_file (snd out) = token_file w.
Proof.
  intros Hmiss status Hst out. subst out status.
  destruct (get_digikey_token CLIENT_ID CLIENT_SECRET w) as [r w1] eqn:Hrun.
  pose proof Hrun as Hrun'.
  rewrite (get_digikey_token_miss _ _ _ Hmiss) in Hrun'.
  rewrite fetch_digikey_token_eq in Hrun'. cbv zeta in Hrun'.
  destruct (after_check_fields (token_file w) w) as (Htf & Hsf & Hhl & Hso).
  rewrite Hhl in Hrun'.
  destruct Hst as [H1 H2].
  apply Z.leb_le in H1. apply Z.ltb_lt in H2.
  rewrite H1, H2 in Hrun'. cbn [andb] in Hrun'.
  injection Hrun' as <- <-.
  unfold search_digikey_info. rewrite (bind_Err _ _ _ _ _ Hrun).
  cbn [fst snd time_calls token_file search_files http_log stdout].
  done.
Qed.

(** X26. With a token in the token file that is good for more than 60
    seconds and, at the next reading of the clock, a response for the
    part identifier in the search cache that is less than four hours
    old, [search_digikey_info] works from the files alone: it reads the
    clock twice and changes nothing else (no request, no line printed,
    no file written), and what it returns or raises is decided by the
    cached response. *)
Theorem search_digikey_info_cached mpn order_quantity w token cached :
  token_file w = Some token →
  (Qc_of_Z 60 < expires_at token - clock (time_calls w))%Qc →
  search_files w !! cache_file_of mpn = Some cached →
  (clock (S (time_calls w)) - cached_at cached < Qc_of_Z (4 * 3600))%Qc →
  search_digikey_info mpn order_quantity w
  = (match ExactMatches (response cached) with
     | product :: _ => Ok (extract_product_info product order_quantity)
     | [] =>
         match Products (response cached) with
         | [] => Err (Exception (py "No products found for MPN: " ++ mpn))
         | [product] => Ok (extract_product_info product order_quantity)
         | _ :: _ :: _ =>
             Err (Exception (py "Multiple products found for MPN: " ++ mpn))
         end
     end, tick (tick w)).
Proof.
  intros Htoken Hvalid Hfile Hage.
  unfold search_digikey_info.
  rewrite (bind_Ok _ _ _ _ _
             (get_digikey_token_hit CLIENT_ID CLIENT_SECRET w token Htoken
                Hvalid)).
  cbv zeta.
  rewrite (bind_Ok _ _ _ _ _
             (get_cached_digikey_response_hit _ _ mpn 2 (tick w) cached
                Hfile Hage)).
  destruct (ExactMatches (response cached)) as [|product ?]; [|done].
  by destruct (Products (response cached)) as [|product [|? ?]].
Qed.
(** ** What a run leaves behind *)

#[local] Instance extends_preorder : PreOrder extends.
Proof.
  split.
  - intros w. unfold extends. repeat split; done.
  - intros w1 w2 w3 (H1 & H2 & H3 & H4 & H5) (G1 & G2 & G3 & G4 & G5).
    unfold extends. repeat split.
    + lia.
    + intros H. by apply G2, H2.
    + set_solver.
    + by etrans.
    + by etrans.
Qed.

Ltac world_fields :=
  cbn [snd time_calls token_file search_files http_log stdout].

Lemma extends_bind {A B} (m : M A) (k : A → M B) :
  (∀ w, extends w (snd (m w))) →
  (∀ a w, extends w (snd (k a w))) →
  ∀ w, extends w (snd (bind m k w)).
Proof.
  intros Hm Hk w. unfold bind. specialize (Hm w).
  destruct (m w) as [[a|e] w1]; cbn [snd] in *; [|done].
  etrans; [exact Hm|apply Hk].
Qed.

Lemma extends_lift {A} (r : result A) w : extends w (snd (lift r w)).
Proof. by destruct r. Qed.

Lemma extends_tick w : extends w (tick w).
Proof. unfold extends, tick; world_fields. repeat split; (lia || done). Qed.

Lemma extends_fetch_digikey_response cache_file url headers mpn limit w :
  extends w (snd (fetch_digikey_response cache_file url headers mpn limit w)).
Proof.
  rewrite fetch_digikey_response_eq. cbv zeta.
  destruct (status_code _ =? 200); unfold extends; world_fields; repeat split;
    try (lia || done || by apply prefix_app_r).
  rewrite dom_insert_L. set_solver.
Qed.

Lemma extends_fetch_digikey_token client_id client_secret w :
  extends w (snd (fetch_digikey_token client_id client_secret w)).
Proof.
  rewrite fetch_digikey_token_eq. cbv zeta.
  destruct (_ && _); unfold extends; world_fields; repeat split;
    try (lia || done || by apply prefix_app_r).
Qed.

Lemma extends_get_cached_digikey_response url headers Keywords Limit w :
  extends w (snd (get_cached_digikey_response url headers Keywords Limit w)).
Proof.
  rewrite get_cached_digikey_response_file.
  destruct (search_files w !! _) as [cached|].
  - case_bool_decide; [apply extends_tick|].
    etrans; [apply extends_tick|apply extends_fetch_digikey_response].
  - apply extends_fetch_digikey_response.
Qed.

Lemma extends_get_digikey_token client_id client_secret w :
  extends w (snd (get_digikey_token client_id client_secret w)).
Proof.
  rewrite get_digikey_token_eq.
  destruct (token_file w) as [token|].
  - case_bool_decide; [apply extends_tick|].
    etrans; [apply extends_tick|apply extends_fetch_digikey_token].
  - apply extends_fetch_digikey_token.
Qed.

Lemma extends_search_digikey_info mpn order_quantity w :
  extends w (snd (search_digikey_info mpn order_quantity w)).
Proof.
  unfold search_digikey_info.
  apply extends_bind; [apply extends_get_digikey_token|].
  intros token w1. cbv zeta.
  apply extends_bind; [apply extends_get_cached_digikey_response|].
  intros response w2.
  apply extends_bind; [|done].
  intros w3. destruct (ExactMatches response); [|done].
  by destruct (Products response) as [|? [|? ?]].
Qed.

Ltac extends_steps :=
  repeat first
    [ apply extends_lift
    | apply extends_search_digikey_info
    | apply extends_bind; intros ].

Lemma extends_parse_bom_row row board_quantity w :
  extends w (snd (parse_bom_row row board_quantity w)).
Proof.
  unfold parse_bom_row. cbv zeta.
  apply extends_bind; [intros; apply extends_lift|].
  intros description w1.
  apply extends_bind.
  - intros w2.
    destruct (contains (py "Resistor") description); [extends_steps; done|].
    destruct (contains (py "Capacitor") description); [extends_steps; done|].
    destruct (contains (py "Do not populate") description); [done|].
    extends_steps; done.
  - intros data w2. by destruct (data !! "unit_price").
Qed.

Lemma extends_mapM {A B} (f : A → M B) (l : list A) :
  (∀ a w, extends w (snd (f a w))) →
  ∀ w, extends w (snd (mapM f l w)).
Proof.
  intros Hf. induction l as [|a l IH]; intros w; cbn [mapM]; [done|].
  apply extends_bind; [apply Hf|]. intros b w1.
  apply extends_bind; [apply IH|]. done.
Qed.

Lemma extends_print o w : extends w (snd (print o w)).
Proof.
  unfold extends, print; world_fields. repeat split; try done.
  by apply prefix_app_r.
Qed.

(** X5. A run of [main] loses nothing of what it finds: it removes
    neither the token file nor any file of the search cache, and what it
    adds to the requests issued and to the lines printed comes after
    those that were there.  The same holds for each BOM line. *)
Theorem main_extends bom boards w :
  extends w (snd (main bom boards w))
  ∧ ∀ row, extends w (snd (parse_bom_row row boards w)).
Proof.
  split; [|intros row; apply extends_parse_bom_row].
  unfold main. cbv zeta.
  apply extends_bind.
  { apply extends_mapM. intros row w1. apply extends_parse_bom_row. }
  intros data w1.
  apply extends_bind; [intros; apply extends_lift|]. intros sorted w2.
  apply extends_bind; [intros; apply extends_lift|]. intros table w3.
  apply extends_bind; [intros; apply extends_print|]. intros [] w4.
  apply extends_bind; [intros; apply extends_lift|]. intros total w5.
  destruct (float_div _ _); [apply extends_print|done].
Qed.
(** ** The requests of a run *)

Lemma issues_bind {A B} n k (m : M A) (f : A → M B) :
  issues n m → (∀ a, issues k (f a)) → issues (n + k) (bind m f).
Proof.
  intros Hm Hf w. unfold bind.
  destruct (Hm w) as (l1 & H1 & Hn & HF1).
  destruct (m w) as [[a|e] w1]; cbn [snd] in *.
  - destruct (Hf a w1) as (l2 & H2 & Hk & HF2).
    exists (l1 ++ l2). rewrite H2, H1, app_assoc, length_app.
    split; [done|]. split; [lia|]. by apply Forall_app.
  - exists l1. split; [done|]. split; [lia|done].
Qed.

Lemma issues_mono {A} n n' (m : M A) :
  (n ≤ n')%nat → issues n m → issues n' m.
Proof.
  intros Hle Hm w. destruct (Hm w) as (l & H1 & Hn & HF).
  exists l. split; [done|]. split; [lia|done].
Qed.

Lemma issues_silent {A} (m : M A) :
  (∀ w, http_log (snd (m w)) = http_log w) → issues 0 m.
Proof.
  intros Hm w. exists []. rewrite app_nil_r.
  split; [apply Hm|]. split; [done|constructor].
Qed.

Lemma issues_lift {A} (r : result A) : issues 0 (lift r).
Proof. apply issues_silent. intros w. by destruct r. Qed.

Lemma issues_ret {A} (a : A) : issues 0 (ret a).
Proof. by apply issues_silent. Qed.

Lemma issues_raise {A} e : issues 0 (raise e : M A).
Proof. by apply issues_silent. Qed.

Lemma issues_print o : issues 0 (print o).
Proof. by apply issues_silent. Qed.

Lemma issues_one {A} (m : M A) r :
  script_request r →
  (∀ w, http_log (snd (m w)) = http_log w
        ∨ http_log (snd (m w)) = http_log w ++ [r]) →
  issues 1 m.
Proof.
  intros Hr Hm w. destruct (Hm w) as [H|H].
  - exists []. rewrite app_nil_r. split; [done|]. split; [cbn; lia|constructor].
  - exists [r]. split; [done|]. split; [done|].
    constructor; [done|constructor].
Qed.

Lemma issues_get_digikey_token :
  issues 1 (get_digikey_token CLIENT_ID CLIENT_SECRET).
Proof.
  apply (issues_one _ (TokenRequest CLIENT_ID CLIENT_SECRET
                         (py "client_credentials"))); [by left|].
  intros w. rewrite get_digikey_token_eq.
  destruct (token_file w) as [token|].
  - case_bool_decide; [by left|]. right.
    rewrite fetch_digikey_token_eq. cbv zeta.
    by destruct (_ && _).
  - right. rewrite fetch_digikey_token_eq. cbv zeta.
    by destruct (_ && _).
Qed.

Lemma issues_get_cached_digikey_response url headers Keywords Limit :
  script_request (SearchRequest url headers Keywords Limit) →
  issues 1 (get_cached_digikey_response url headers Keywords Limit).
Proof.
  intros Hr. apply (issues_one _ _ Hr).
  intros w. rewrite get_cached_digikey_response_file.
  destruct (search_files w !! _) as [cached|].
  - case_bool_decide; [by left|]. right.
    rewrite fetch_digikey_response_eq. cbv zeta.
    by destruct (status_code _ =? 200).
  - right. rewrite fetch_digikey_response_eq. cbv zeta.
    by destruct (status_code _ =? 200).
Qed.

Lemma issues_search_digikey_info mpn order_quantity :
  issues 2 (search_digikey_info mpn order_quantity).
Proof.
  unfold search_digikey_info.
  apply (issues_bind 1 1); [apply issues_get_digikey_token|].
  intros access_token. cbv zeta.
  apply (issues_bind 1 0).
  { apply issues_get_cached_digikey_response. right.
    exists access_token, mpn. reflexivity. }
  intros response.
  apply (issues_bind 0 0); [|intros; apply issues_ret].
  destruct (ExactMatches response); [|apply issues_ret].
  destruct (Products response) as [|? [|? ?]];
    first [apply issues_ret | apply issues_raise].
Qed.

Lemma issues_priced_branch (parsed : result dict) (data : dict)
    (order_quantity : Z) :
  issues 2
    (parsed <~ lift parsed;;
     let data := update data parsed in
     mpn <~ lift (getitem_str data "mpn");;
     info <~ search_digikey_info mpn order_quantity;;
     ret (update data info)).
Proof.
  apply (issues_bind 0 2); [apply issues_lift|]. intros p. cbv zeta.
  apply (issues_bind 0 2); [apply issues_lift|]. intros mpn.
  apply (issues_bind 2 0); [apply issues_search_digikey_info|].
  intros info. apply issues_ret.
Qed.

Lemma issues_parse_bom_row row board_quantity :
  issues 2 (parse_bom_row row board_quantity).
Proof.
  unfold parse_bom_row. cbv zeta.
  apply (issues_bind 0 2); [apply issues_lift|]. intros description.
  apply (issues_bind 2 0).
  - destruct (contains (py "Resistor") description);
      [apply issues_priced_branch|].
    destruct (contains (py "Capacitor") description);
      [apply issues_priced_branch|].
    destruct (contains (py "Do not populate") description).
    { apply (issues_mono 0); [lia|apply issues_ret]. }
    apply (issues_bind 0 2); [apply issues_lift|]. intros mpn.
    apply (issues_bind 0 2); [apply issues_lift|]. intros mpn'.
    apply (issues_bind 2 0); [apply issues_search_digikey_info|].
    intros info. apply issues_ret.
  - intros data. destruct (data !! "unit_price"); apply issues_ret.
Qed.

Lemma issues_parse_bom bom board_quantity :
  issues (2 * length bom) (parse_bom bom board_quantity).
Proof.
  unfold parse_bom. induction bom as [|row bom IH]; cbn [mapM].
  - apply issues_ret.
  - apply (issues_mono (2 + (2 * length bom + 0))); [cbn [length]; lia|].
    apply issues_bind; [apply issues_parse_bom_row|]. intros d.
    apply issues_bind; [apply IH|]. intros ds. apply issues_ret.
Qed.

(** X6. A run of [main] issues two requests per BOM line at most, and
    [parse_bom_row] and [search_digikey_info] two at most: one for a
    token and one keyword search.  The only requests ever issued are the
    token request with the credentials of the script and keyword
    searches on the search URL, with the headers of the script and a
    limit of two products. *)
Theorem main_requests bom boards :
  issues (2 * length bom) (main bom boards)
  ∧ (∀ row, issues 2 (parse_bom_row row boards))
  ∧ (∀ mpn order_quantity, issues 2 (search_digikey_info mpn order_quantity)).
Proof.
  split; [|split; [intros; apply issues_parse_bom_row
                  |intros; apply issues_search_digikey_info]].
  unfold main. cbv zeta.
  apply (issues_mono (2 * length bom + 0)); [lia|].
  apply issues_bind; [apply issues_parse_bom|]. intros data.
  apply (issues_bind 0 0); [apply issues_lift|]. intros sorted.
  apply (issues_bind 0 0); [apply issues_lift|]. intros table.
  apply (issues_bind 0 0); [apply issues_print|]. intros [].
  apply (issues_bind 0 0); [apply issues_lift|]. intros total.
  destruct (float_div _ _); [apply issues_print|apply issues_raise].
Qed.
(** ** More on the selection *)

Lemma first_cheapest_inv_step seen st c :
  first_cheapest_inv seen st →
  first_cheapest_inv (seen ++ [c]) (select_step st c).
Proof.
  destruct c as [v p]. unfold select_step.
  intros [(-> & Hb & _)|(i & v0 & p0 & (Hi & Hmin & Hfirst) & Hb & Hpn & Hup
                         & Hav)].
  - rewrite Hb. cbn [float_lt float_inf]. right. exists 0%nat, v, p.
    cbn [fst snd app]. split; [|by simplify_map_eq].
    split; [done|]. split.
    + intros [|j] v' p'; [|done]. intros [= -> ->]. apply Qcle_refl.
    + intros j v' p' Hj. lia.
  - rewrite Hb. cbn [float_lt]. case_bool_decide as Hlt.
    + right. exists (length seen), v, p. cbn [fst snd].
      split; [|by simplify_map_eq]. split; [|split].
      * by rewrite lookup_app_r, Nat.sub_diag by lia.
      * intros j v' p' [Hj|[_ Hj]]%lookup_app_Some.
        -- eapply Qcle_trans; [apply Qclt_le_weak, Hlt|by eapply Hmin].
        -- apply list_lookup_singleton_Some in Hj as [_ [= -> ->]].
           apply Qcle_refl.
      * intros j v' p' Hlen Hj. rewrite lookup_app_l in Hj by done.
        eapply Qclt_le_trans; [exact Hlt|by eapply Hmin].
    + right. exists i, v0, p0. split; [|done]. split; [|split].
      * apply lookup_app_l_Some. done.
      * intros j v' p' [Hj|[_ Hj]]%lookup_app_Some; [by eapply Hmin|].
        apply list_lookup_singleton_Some in Hj as [_ [= -> ->]].
        by apply Qcnot_lt_le.
      * intros j v' p' Hlt' Hj.
        assert (j < length seen)%nat as Hlen
          by (apply lookup_lt_Some in Hi; lia).
        rewrite lookup_app_l in Hj by done. by eapply Hfirst.
Qed.

Lemma first_cheapest_inv_loop cs seen st :
  first_cheapest_inv seen st →
  first_cheapest_inv (seen ++ cs) (foldl select_step st cs).
Proof.
  revert seen st. induction cs as [|c cs IH]; intros seen st H.
  - by rewrite app_nil_r.
  - cbn [foldl]. replace (seen ++ c :: cs) with ((seen ++ [c]) ++ cs)
      by (by rewrite <- app_assoc).
    by apply IH, first_cheapest_inv_step.
Qed.

(** The loops leave the other fields as they are. *)
Lemma select_loop_lookup cs st k :
  k ∉ ({[ "vendor_part_number"; "unit_price"; "available" ]} : gset string) →
  snd (foldl select_step st cs) !! k = snd st !! k.
Proof.
  intros Hk. revert st. induction cs as [|[v p] cs IH]; intros st; [done|].
  cbn [foldl]. rewrite IH. unfold select_step.
  destruct (float_lt _ _); [|done]. cbn [snd].
  rewrite !lookup_insert_ne; [done|set_solver..].
Qed.

(** X10. Among the price breaks that can be ordered, taken variation by
    variation and break by break in the order of the response,
    [extract_product_info] returns the first of the cheapest: a later
    price break of the same unit price does not replace it. *)
Theorem extract_product_info_first_cheapest
    (response : product) (order_quantity : Z) :
  let cs := candidates order_quantity (ProductVariations response) in
  let data := extract_product_info response order_quantity in
  (cs = []
   ∧ data !! "vendor_part_number" = None
   ∧ data !! "unit_price" = None
   ∧ data !! "available" = None)
  ∨ (∃ i v p,
       first_cheapest cs i v p
       ∧ data !! "vendor_part_number" = Some (VStr (DigiKeyProductNumber v))
       ∧ data !! "unit_price" = Some (VFloat (FFin (UnitPrice p)))
       ∧ data !! "available"
         = Some (VInt (QuantityAvailableforPackageType v))).
Proof.
  intros cs data. subst data.
  destruct (extract_product_info_loop response order_quantity)
    as (data0 & -> & _ & Hdom). fold cs.
  assert (first_cheapest_inv [] (float_inf, data0)) as Hinit.
  { left. cbn [fst snd]. repeat split; try done;
      apply not_elem_of_dom; intros Hk; apply Hdom in Hk; set_solver. }
  apply (first_cheapest_inv_loop cs) in Hinit. cbn [app] in Hinit.
  destruct Hinit as [(-> & _ & H)|(i & v & p & Hf & _ & H)].
  - left. by split.
  - right. by exists i, v, p.
Qed.

(** The fields that the loops do not set. *)
Lemma extract_product_info_lookup (response : product) (order_quantity : Z) k :
  k ∉ ({[ "vendor_part_number"; "unit_price"; "available" ]} : gset string) →
  extract_product_info response order_quantity !! k
  = match footprint_of (Parameters response) with
    | Some footprint =>
        <["footprint" := VStr footprint]>
          ({[ "mpn" := VStr (ManufacturerProductNumber response);
              "description" := VStr (ProductDescription response);
              "manufacturer" := VStr (ManufacturerName response);
              "vendor" := VStr (py "DigiKey") ]} : dict)
    | None =>
        {[ "mpn" := VStr (ManufacturerProductNumber response);
           "description" := VStr (ProductDescription response);
           "manufacturer" := VStr (ManufacturerName response);
           "vendor" := VStr (py "DigiKey") ]}
    end !! k.
Proof.
  intros Hk. unfold extract_product_info. cbv zeta.
  rewrite variation_loop_candidates, select_loop_lookup by done.
  done.
Qed.

Lemma extract_product_info_base (response : product) (order_quantity : Z) :
  let data := extract_product_info response order_quantity in
  data !! "mpn" = Some (VStr (ManufacturerProductNumber response))
  ∧ data !! "description" = Some (VStr (ProductDescription response))
  ∧ data !! "manufacturer" = Some (VStr (ManufacturerName response))
  ∧ data !! "vendor" = Some (VStr (py "DigiKey")).
Proof.
  cbv zeta. rewrite !extract_product_info_lookup by set_solver.
  by destruct (footprint_of _); simplify_map_eq.
Qed.

Lemma footprint_of_first params pre param post :
  params = pre ++ param :: post →
  ParameterText param = py "Supplier Device Package" →
  Forall (λ q, ParameterText q ≠ py "Supplier Device Package") pre →
  footprint_of params = Some (ValueText param).
Proof.
  intros -> Hp Hpre.
  induction Hpre as [|q pre Hq _ IH]; cbn [app footprint_of].
  - by rewrite bool_decide_eq_true_2.
  - by rewrite bool_decide_eq_false_2.
Qed.

Lemma footprint_of_none params :
  Forall (λ q, ParameterText q ≠ py "Supplier Device Package") params →
  footprint_of params = None.
Proof.
  intros H. induction H as [|q params Hq _ IH]; [done|].
  cbn [footprint_of]. by rewrite bool_decide_eq_false_2.
Qed.

(** X11. The record of [extract_product_info] always holds the part
    number, the description and the manufacturer of the product and
    DigiKey as vendor.  Its footprint is the value of the first
    parameter called [Supplier Device Package]; it has none when the
    product has no such parameter.  It holds no field but these, the
    part number of the vendor, the unit price and the stock. *)
Theorem extract_product_info_fields
    (response : product) (order_quantity : Z) :
  let data := extract_product_info response order_quantity in
  data !! "mpn" = Some (VStr (ManufacturerProductNumber response))
  ∧ data !! "description" = Some (VStr (ProductDescription response))
  ∧ data !! "manufacturer" = Some (VStr (ManufacturerName response))
  ∧ data !! "vendor" = Some (VStr (py "DigiKey"))
  ∧ (∀ pre param post,
       Parameters response = pre ++ param :: post →
       ParameterText param = py "Supplier Device Package" →
       Forall (λ q, ParameterText q ≠ py "Supplier Device Package") pre →
       data !! "footprint" = Some (VStr (ValueText param)))
  ∧ (Forall (λ q, ParameterText q ≠ py "Supplier Device Package")
       (Parameters response) →
     data !! "footprint" = None)
  ∧ dom data ⊆ EXTRACTED_FIELDS.
Proof.
  intros data.
  destruct (extract_product_info_base response order_quantity)
    as (Hm & Hd & Hf & Hv).
  split; [done|]. split; [done|]. split; [done|]. split; [done|].
  split; [|split].
  - intros pre param post Hparams Hp Hpre. subst data.
    rewrite extract_product_info_lookup by set_solver.
    rewrite (footprint_of_first _ _ _ _ Hparams Hp Hpre). by simplify_map_eq.
  - intros Hall. subst data.
    rewrite extract_product_info_lookup by set_solver.
    rewrite (footprint_of_none _ Hall). by simplify_map_eq.
  - apply extract_product_info_dom.
Qed.
(** ** More on BOM rows *)

Lemma bind_ret {A B} (a : A) (k : A → M B) w : bind (ret a) k w = k a w.
Proof. reflexivity. Qed.

Lemma bind_lift_Ok {A B} (a : A) (k : A → M B) w :
  bind (lift (Ok a)) k w = k a w.
Proof. reflexivity. Qed.

Lemma bind_lift_Err {A B} e (k : A → M B) w :
  bind (lift (Err e)) k w = (Err e, w).
Proof. reflexivity. Qed.

Lemma bind_ext {A B} (m m' : M A) (k k' : A → M B) w :
  m w = m' w → (∀ a w1, k a w1 = k' a w1) → bind m k w = bind m' k' w.
Proof.
  intros Hm Hk. unfold bind. rewrite Hm.
  destruct (m' w) as [[a|e] w1]; [apply Hk|done].
Qed.

Lemma with_total_price_run order_quantity (data : dict) w :
  match data !! "unit_price" with
  | Some unit_price =>
      ret (<["total_price" := value_mul_int unit_price order_quantity]> data)
  | None => ret data
  end w
  = (Ok (with_total_price order_quantity data), w).
Proof. unfold with_total_price. by destruct (data !! "unit_price"). Qed.

(** [parse_bom_row] on the comment of the row. *)
Lemma parse_bom_row_eq (row : bom_row) (board_quantity : Z) w :
  parse_bom_row row board_quantity w
  = let data := row_base row in
    let order_quantity := order_quantity_of row board_quantity in
    let description := Comment row in
    bind
      (if contains (py "Resistor") description then
         parsed <~ lift (parse_resistor_comment description);;
         let data := update data parsed in
         mpn <~ lift (getitem_str data "mpn");;
         info <~ search_digikey_info mpn order_quantity;;
         ret (update data info)
       else if contains (py "Capacitor") description then
         parsed <~ lift (parse_capacitor_comment description);;
         let data := update data parsed in
         mpn <~ lift (getitem_str data "mpn");;
         info <~ search_digikey_info mpn order_quantity;;
         ret (update data info)
       else if contains (py "Do not populate") description then
         ret (update data
                {[ "mpn" := VStr (py "DNI");
                   "dni" := VStr (py "DNI");
                   "description" := VStr (py "Do not install") ]})
       else
         info <~ search_digikey_info (canonical_mpn (LCSC row))
                   order_quantity;;
         ret (update (<["mpn" := VStr (canonical_mpn (LCSC row))]> data)
                info))
      (λ data, ret (with_total_price order_quantity data)) w.
Proof.
  assert (getitem_str (row_base row) "description" = Ok (Comment row)) as Hd
    by (unfold getitem_str, row_base; by simplify_map_eq).
  assert (getitem_str (row_base row) "mpn" = Ok (LCSC row)) as Hm
    by (unfold getitem_str, row_base; by simplify_map_eq).
  assert (∀ m, getitem_str (<["mpn" := VStr m]> (row_base row)) "mpn" = Ok m)
    as Hm' by (intros m; unfold getitem_str; by simplify_map_eq).
  unfold parse_bom_row. fold (row_base row).
  fold (order_quantity_of row board_quantity). cbv zeta.
  rewrite Hd, bind_lift_Ok.
  apply bind_ext; [|intros; apply with_total_price_run].
  destruct (contains (py "Resistor") (Comment row)); [done|].
  destruct (contains (py "Capacitor") (Comment row)); [done|].
  destruct (contains (py "Do not populate") (Comment row)); [done|].
  by rewrite Hm, bind_lift_Ok, Hm', bind_lift_Ok.
Qed.

Lemma dni_record_eq (row : bom_row) (order_quantity : Z) :
  with_total_price order_quantity
    (update (row_base row)
       {[ "mpn" := VStr (py "DNI");
          "dni" := VStr (py "DNI");
          "description" := VStr (py "Do not install") ]})
  = dni_record row.
Proof.
  unfold with_total_price, update, row_base, dni_record.
  rewrite lookup_union_r by (by simplify_map_eq).
  replace (_ !! "unit_price") with (@None value) by (by simplify_map_eq).
  apply map_eq. intros k. rewrite lookup_union.
  destruct (decide (k = "mpn")) as [->|]; [by simplify_map_eq|].
  destruct (decide (k = "dni")) as [->|]; [by simplify_map_eq|].
  destruct (decide (k = "description")) as [->|]; [by simplify_map_eq|].
  destruct (decide (k = "designators")) as [->|]; [by simplify_map_eq|].
  destruct (decide (k = "quantity")) as [->|]; [by simplify_map_eq|].
  by simplify_map_eq.
Qed.

(** X12. A row whose comment holds [Do not populate], and neither
    [Resistor] nor [Capacitor], gets the part number and the mark DNI
    and the description [Do not install]; it keeps its designators and
    their number, and has no other field.  Nothing is looked up for it:
    no request, no reading of the clock, no file, no line printed. *)
Theorem parse_bom_row_dni (row : bom_row) (board_quantity : Z) w :
  contains (py "Resistor") (Comment row) = false →
  contains (py "Capacitor") (Comment row) = false →
  contains (py "Do not populate") (Comment row) = true →
  parse_bom_row row board_quantity w = (Ok (dni_record row), w).
Proof.
  intros Hr Hc Hd. rewrite parse_bom_row_eq. cbv zeta.
  rewrite Hr, Hc, Hd, bind_ret. unfold ret. by rewrite dni_record_eq.
Qed.

(** X13. A row whose comment holds [Resistor] and is not a resistor
    comment that can be decoded, or holds [Capacitor], not [Resistor],
    and is not a capacitor comment that can be decoded, fails with the
    error of the parser before anything is looked up.  The words
    [Do not populate] in such a comment change nothing to it. *)
Theorem parse_bom_row_undecodable (row : bom_row) (board_quantity : Z) w e :
  (contains (py "Resistor") (Comment row) = true
   ∧ parse_resistor_comment (Comment row) = Err e)
  ∨ (contains (py "Resistor") (Comment row) = false
     ∧ contains (py "Capacitor") (Comment row) = true
     ∧ parse_capacitor_comment (Comment row) = Err e) →
  parse_bom_row row board_quantity w = (Err e, w).
Proof.
  intros [[Hr He]|(Hr & Hc & He)]; rewrite parse_bom_row_eq; cbv zeta.
  - by rewrite Hr, He.
  - by rewrite Hr, Hc, He.
Qed.

Lemma with_total_price_lookup order_quantity (data : dict) k :
  k ≠ "total_price" → with_total_price order_quantity data !! k = data !! k.
Proof.
  intros Hk. unfold with_total_price.
  destruct (data !! "unit_price"); [|done]. by rewrite lookup_insert_ne.
Qed.


Lemma priced_row_kept (data0 : dict) product oq oq' k :
  k ∉ EXTRACTED_FIELDS → k ≠ "total_price" →
  with_total_price oq' (update data0 (extract_product_info product oq)) !! k
  = data0 !! k.
Proof.
  intros Hk Hk'. rewrite with_total_price_lookup by done.
  unfold update. rewrite lookup_union_r; [done|].
  by apply extract_product_info_lacks.
Qed.



Lemma update_row_base_mpn (row row' : bom_row) (d : dict) :
  Designator row' = Designator row → Comment row' = Comment row →
  is_Some (d !! "mpn") →
  update (row_base row') d = update (row_base row) d.
Proof.
  intros Hd Hc [m Hm]. unfold update. apply map_eq. intros k.
  rewrite !lookup_union.
  destruct (decide (k = "mpn")) as [->|Hk]; [by rewrite Hm|].
  f_equal. unfold row_base. rewrite Hd, Hc.
  by rewrite !(lookup_insert_ne _ "mpn") by done.
Qed.

(** X15. For a row whose comment holds [Resistor], [Capacitor] or
    [Do not populate], the LCSC column plays no part: whatever it
    holds, the row gives the same result, the same requests and the
    same files. *)
Theorem parse_bom_row_ignores_lcsc (row : bom_row) (lcsc : str)
    (board_quantity : Z) w :
  contains (py "Resistor") (Comment row)
  || contains (py "Capacitor") (Comment row)
  || contains (py "Do not populate") (Comment row) = true →
  parse_bom_row
    {| LCSC := lcsc; Designator := Designator row; Comment := Comment row |}
    board_quantity w
  = parse_bom_row row board_quantity w.
Proof.
  intros Hwords. rewrite !parse_bom_row_eq. cbv zeta.
  set (row' := {| LCSC := lcsc; Designator := Designator row;
                  Comment := Comment row |}).
  change (Comment row') with (Comment row).
  change (order_quantity_of row' board_quantity)
    with (order_quantity_of row board_quantity).
  apply bind_ext; [|done].
  destruct (contains (py "Resistor") (Comment row)).
  { destruct (parse_resistor_comment (Comment row)) as [parsed|e] eqn:Hp;
      [|done].
    rewrite !bind_lift_Ok. cbv zeta.
    apply parse_resistor_comment_Ok in Hp as [_ [m Hm]].
    by rewrite (update_row_base_mpn row row' parsed) by (by eauto). }
  destruct (contains (py "Capacitor") (Comment row)).
  { destruct (parse_capacitor_comment (Comment row)) as [parsed|e] eqn:Hp;
      [|done].
    rewrite !bind_lift_Ok. cbv zeta.
    apply parse_capacitor_comment_Ok in Hp as [_ [m Hm]].
    by rewrite (update_row_base_mpn row row' parsed) by (by eauto). }
  destruct (contains (py "Do not populate") (Comment row)); [|done].
  unfold ret.
  rewrite (update_row_base_mpn row row'); [done..|].
  eexists. by simplify_map_eq.
Qed.

Lemma canonical_mpn_not_key mpn : MPN_MAP !! canonical_mpn mpn = None.
Proof.
  assert (size MPN_MAP = 6%nat) as Hsize by (by vm_compute).
  unfold canonical_mpn. rewrite Hsize.
  destruct (MPN_MAP !! mpn) as [mpn'|] eqn:H0;
    [|by rewrite rewrite_mpn_unfold, H0].
  destruct (MPN_MAP_chains _ _ H0) as [H1|(mpn'' & H1 & H2)].
  - by rewrite rewrite_mpn_unfold, H0, rewrite_mpn_unfold, H1.
  - by rewrite rewrite_mpn_unfold, H0, rewrite_mpn_unfold, H1,
      rewrite_mpn_unfold, H2.
Qed.

(** X16. A row whose comment holds none of the three words is looked
    up under its LCSC number rewritten by [MPN_MAP] until it is no key of
    the table, for the order quantity of the row.  The row does to the
    world what that lookup does, and fails exactly when, and as, the
    lookup fails; when the lookup succeeds the row is what was found,
    with the designators and their number. *)
Theorem parse_bom_row_keyword (row : bom_row) (board_quantity : Z) w :
  contains (py "Resistor") (Comment row) = false →
  contains (py "Capacitor") (Comment row) = false →
  contains (py "Do not populate") (Comment row) = false →
  let order_quantity := order_quantity_of row board_quantity in
  let lookup :=
    search_digikey_info (canonical_mpn (LCSC row)) order_quantity w in
  let out := parse_bom_row row board_quantity w in
  MPN_MAP !! canonical_mpn (LCSC row) = None
  ∧ snd out = snd lookup
  ∧ (∀ e, fst out = Err e ↔ fst lookup = Err e)
  ∧ (∀ info, fst lookup = Ok info →
       ∃ data, fst out = Ok data
         ∧ (∀ k, is_Some (info !! k) → data !! k = info !! k)
         ∧ data !! "designators" = Some (VStr (Designator row))
         ∧ data !! "quantity" = Some (VInt (split_count (Designator row)))).
Proof.
  intros Hr Hc Hd order_quantity lookup out.
  split; [apply canonical_mpn_not_key|].
  subst out. rewrite parse_bom_row_eq. cbv zeta.
  rewrite Hr, Hc, Hd. fold order_quantity. unfold bind. fold lookup.
  destruct lookup as [[info|e] w1] eqn:Hlookup; cbn [fst snd ret].
  - split; [done|]. split; [done|]. intros info' [= <-].
    apply search_digikey_info_Ok in Hlookup as (product & _ & ->).
    eexists. split; [done|]. split; [|split].
    + intros k [v Hk].
      destruct (decide (k = "total_price")) as [->|Hne].
      * rewrite extract_product_info_lacks in Hk by (by vm_compute). done.
      * rewrite with_total_price_lookup by done. unfold update.
        by rewrite (lookup_union_Some_l _ _ _ _ Hk).
    + rewrite priced_row_kept by (by vm_compute).
      rewrite lookup_insert_ne by done. unfold row_base. by simplify_map_eq.
    + rewrite priced_row_kept by (by vm_compute).
      rewrite lookup_insert_ne by done. unfold row_base. by simplify_map_eq.
  - split; [done|]. split; [done|]. done.
Qed.
(** ** The run over the BOM *)

Lemma announces_bind {A B} (m : M A) (f : A → M B) :
  announces m → (∀ a, announces (f a)) → announces (bind m f).
Proof.
  intros Hm Hf w. unfold bind.
  destruct (Hm w) as (l1 & H1 & Ho1).
  destruct (m w) as [[a|e] w1]; cbn [snd] in *.
  - destruct (Hf a w1) as (l2 & H2 & Ho2).
    exists (l1 ++ l2).
    by rewrite H2, H1, Ho2, Ho1, omap_app, !app_assoc.
  - by exists l1.
Qed.

Lemma announces_silent {A} (m : M A) :
  (∀ w, http_log (snd (m w)) = http_log w
        ∧ stdout (snd (m w)) = stdout w) →
  announces m.
Proof.
  intros Hm w. exists []. destruct (Hm w) as [-> ->].
  by rewrite !app_nil_r.
Qed.

Lemma announces_lift {A} (r : result A) : announces (lift r).
Proof. apply announces_silent. intros w. by destruct r. Qed.

Lemma announces_ret {A} (a : A) : announces (ret a).
Proof. by apply announces_silent. Qed.

Lemma announces_raise {A} e : announces (raise e : M A).
Proof. by apply announces_silent. Qed.

Lemma announces_get_digikey_token client_id client_secret :
  announces (get_digikey_token client_id client_secret).
Proof.
  intros w. rewrite get_digikey_token_eq.
  assert (∀ w0, http_log w0 = http_log w → stdout w0 = stdout w →
            ∃ l, http_log (snd (fetch_digikey_token client_id client_secret
                                  w0))
                 = http_log w ++ l
                 ∧ stdout (snd (fetch_digikey_token client_id client_secret
                                  w0))
                   = stdout w ++ omap announced l) as Hfetch.
  { intros w0 Hl Ho. rewrite fetch_digikey_token_eq. cbv zeta.
    exists [TokenRequest client_id client_secret (py "client_credentials")].
    destruct (_ && _); cbn [snd http_log stdout omap announced];
      by rewrite Hl, Ho, app_nil_r. }
  destruct (token_file w) as [token|]; [|by apply Hfetch].
  case_bool_decide; [|by apply Hfetch].
  exists []. by rewrite !app_nil_r.
Qed.

Lemma announces_get_cached_digikey_response url headers Keywords Limit :
  announces (get_cached_digikey_response url headers Keywords Limit).
Proof.
  intros w. rewrite get_cached_digikey_response_file.
  assert (∀ w0, http_log w0 = http_log w → stdout w0 = stdout w →
            ∃ l, http_log (snd (fetch_digikey_response
                                  (cache_file_of Keywords) url headers
                                  Keywords Limit w0))
                 = http_log w ++ l
                 ∧ stdout (snd (fetch_digikey_response
                                  (cache_file_of Keywords) url headers
                                  Keywords Limit w0))
                   = stdout w ++ omap announced l) as Hfetch.
  { intros w0 Hl Ho. rewrite fetch_digikey_response_eq. cbv zeta.
    exists [SearchRequest url headers Keywords Limit].
    destruct (status_code _ =? 200);
      cbn [snd http_log stdout omap announced]; by rewrite Hl, Ho. }
  destruct (search_files w !! _) as [cached|]; [|by apply Hfetch].
  case_bool_decide; [|by apply Hfetch].
  exists []. by rewrite !app_nil_r.
Qed.

Lemma announces_search_digikey_info mpn order_quantity :
  announces (search_digikey_info mpn order_quantity).
Proof.
  unfold search_digikey_info.
  apply announces_bind; [apply announces_get_digikey_token|].
  intros access_token. cbv zeta.
  apply announces_bind; [apply announces_get_cached_digikey_response|].
  intros response.
  apply announces_bind; [|intros; apply announces_ret].
  destruct (ExactMatches response); [|apply announces_ret].
  destruct (Products response) as [|? [|? ?]];
    first [apply announces_ret | apply announces_raise].
Qed.

Ltac announces_steps :=
  repeat first
    [ apply announces_lift
    | apply announces_ret
    | apply announces_search_digikey_info
    | apply announces_bind; [|intros ?] ].

Lemma announces_parse_bom_row row board_quantity :
  announces (parse_bom_row row board_quantity).
Proof.
  unfold parse_bom_row. cbv zeta.
  apply announces_bind; [apply announces_lift|]. intros description.
  apply announces_bind.
  - destruct (contains (py "Resistor") description); [announces_steps|].
    destruct (contains (py "Capacitor") description); [announces_steps|].
    destruct (contains (py "Do not populate") description);
      announces_steps.
  - intros data. destruct (data !! "unit_price"); apply announces_ret.
Qed.

Lemma announces_parse_bom bom board_quantity :
  announces (parse_bom bom board_quantity).
Proof.
  unfold parse_bom. induction bom as [|row bom IH]; cbn [mapM].
  - apply announces_ret.
  - apply announces_bind; [apply announces_parse_bom_row|]. intros d.
    apply announces_bind; [apply IH|]. intros ds. apply announces_ret.
Qed.

(** X17. While the BOM is read every keyword search is announced and
    nothing else is printed: the lines that [parse_bom], and each
    [parse_bom_row], print are the [Fetching] lines of the keyword
    searches sent, one for each search and in their order; a token
    request prints nothing. *)
Theorem parse_bom_announces bom board_quantity :
  announces (parse_bom bom board_quantity)
  ∧ ∀ row, announces (parse_bom_row row board_quantity).
Proof.
  split; [apply announces_parse_bom|].
  intros row. apply announces_parse_bom_row.
Qed.

Lemma mapM_app {A B} (f : A → M B) (l1 l2 : list A) w :
  mapM f (l1 ++ l2) w
  = (bs1 <~ mapM f l1;; bs2 <~ mapM f l2;; ret (bs1 ++ bs2)) w.
Proof.
  revert w. induction l1 as [|a l1 IH]; intros w; cbn [app mapM].
  - rewrite bind_ret. unfold bind.
    by destruct (mapM f l2 w) as [[bs|e] w1].
  - unfold bind in *. destruct (f a w) as [[b|e] w1]; [|done].
    rewrite IH.
    destruct (mapM f l1 w1) as [[bs1|e] w2]; [|done].
    cbv beta iota delta [ret].
    by destruct (mapM f l2 w2) as [[bs2|e] w3].
Qed.

Lemma mapM_Err {A B} (f : A → M B) (l : list A) w e w2 :
  mapM f l w = (Err e, w2) →
  ∃ pre a post bs w1,
    l = pre ++ a :: post
    ∧ mapM f pre w = (Ok bs, w1)
    ∧ f a w1 = (Err e, w2).
Proof.
  revert w. induction l as [|a l IH]; intros w; cbn [mapM]; [done|].
  unfold bind at 1. destruct (f a w) as [[b|e1] w1] eqn:Ha.
  - unfold bind. destruct (mapM f l w1) as [[bs|e2] w3] eqn:Hl; [done|].
    intros [= -> ->].
    destruct (IH _ Hl) as (pre & a' & post & bs & w0 & -> & Hpre & Ha').
    exists (a :: pre), a', post, (b :: bs), w0.
    split; [done|]. split; [|done].
    cbn [mapM]. by rewrite (bind_Ok _ _ _ _ _ Ha), (bind_Ok _ _ _ _ _ Hpre).
  - intros [= -> ->]. by exists [], a, l, [], w.
Qed.

(** X18. The run stops at the first BOM line that fails.  [parse_bom]
    raises an error exactly when, the lines before some line having been
    read, that line raises it; the world is then the one in which that
    line failed, so that nothing is looked up for the lines after it.
    [main] then raises the same error in the same world: it prints
    neither the table nor the total. *)
Theorem parse_bom_first_failure bom board_quantity w e w2 :
  (parse_bom bom board_quantity w = (Err e, w2)
   ↔ ∃ pre row post data w1,
       bom = pre ++ row :: post
       ∧ parse_bom pre board_quantity w = (Ok data, w1)
       ∧ parse_bom_row row board_quantity w1 = (Err e, w2))
  ∧ (parse_bom bom board_quantity w = (Err e, w2) →
     main bom board_quantity w = (Err e, w2)).
Proof.
  split; [|apply main_parse_error].
  split.
  - apply mapM_Err.
  - intros (pre & row & post & data & w1 & -> & Hpre & Hrow).
    unfold parse_bom in *. rewrite mapM_app.
    rewrite (bind_Ok _ _ _ _ _ Hpre). cbn [mapM].
    unfold bind at 1. unfold bind at 1. by rewrite Hrow.
Qed.
(** ** More on the parsers *)

Lemma match_resistor_value_Some s value :
  match_resistor_value s = Some value →
  ∃ post, s = py "±1% " ++ value ++ post.
Proof.
  unfold match_resistor_value.
  destruct (strip_prefix (py "±1% ") s) as [r|] eqn:Hs; [|done].
  apply strip_prefix_Some in Hs as ->.
  pose proof (span_app is_digit_or_dot r) as Hr.
  destruct (span is_digit_or_dot r) as [number r1]. cbn [fst snd] in Hr.
  pose proof (span_app is_k_or_ohm r1) as Hr1.
  destruct (span is_k_or_ohm r1) as [unit r2]. cbn [fst snd] in Hr1.
  destruct (is_nil number || is_nil unit); [done|]. intros [= <-].
  exists r2. by rewrite <- Hr, <- Hr1, <- !app_assoc.
Qed.

(** X19. What [parse_resistor_comment] returns.  Its value follows
    [±1% ] in the comment and is in the value table; its footprint is
    the first four-digit substring of the comment, wherever it stands,
    and is 0402 or 0603; its part number is the ERJ prefix of the
    footprint, the code of the value and the suffix of the footprint;
    the description is rewritten from the value and the footprint, and
    the vendor and the manufacturer are always the same. *)
Theorem parse_resistor_comment_sound (comment : str) (data : dict) :
  parse_resistor_comment comment = Ok data →
  ∃ pre value post footprint erj_value erj_prefix erj_suffix,
    comment = pre ++ py "±1% " ++ value ++ post
    ∧ first_four_digits comment footprint
    ∧ RESISTOR_VALUE_MAP_ERJ !! value = Some erj_value
    ∧ RESISTOR_FOOTPRINT_MAP_ERJ !! footprint = Some erj_prefix
    ∧ RESISTOR_FOOTPRINT_MAP_ERJ_SUFFIX !! footprint = Some erj_suffix
    ∧ footprint ∈ [py "0402"; py "0603"]
    ∧ data = {[ "mpn" := VStr (erj_prefix ++ erj_value ++ erj_suffix);
                "value" := VStr value;
                "footprint" := VStr footprint;
                "description" :=
                  VStr (value ++ py " ±1% " ++ footprint
                        ++ py " thick film resistor 0.1W 50V ±100ppm/C");
                "vendor" := VStr (py "DigiKey");
                "manufacturer" :=
                  VStr (py "Panasonic Electronic Components") ]}.
Proof.
  intros H. pose proof (parse_resistor_comment_cases comment) as Hc.
  rewrite re_search_resistor_value_spec, re_search_footprint_spec in Hc.
  destruct (leftmost match_resistor_value comment) as [value|] eqn:Hv;
    [|cbn [fmap option_fmap option_map] in Hc; congruence].
  destruct (leftmost match_footprint comment) as [footprint|] eqn:Hf;
    [|cbn [fmap option_fmap option_map] in Hc; congruence].
  cbn [fmap option_fmap option_map] in Hc. cbv zeta in Hc.
  change (group [value] 1) with value in Hc.
  change (group [footprint] 1) with footprint in Hc.
  destruct (RESISTOR_VALUE_MAP_ERJ !! value) as [erj_value|] eqn:Hval;
    [|congruence].
  destruct (RESISTOR_FOOTPRINT_MAP_ERJ !! footprint) as [erj_prefix|]
    eqn:Hpre; [|congruence].
  destruct (RESISTOR_FOOTPRINT_MAP_ERJ_SUFFIX !! footprint) as [erj_suffix|]
    eqn:Hsuf; [|congruence].
  rewrite Hc in H. injection H as <-.
  apply leftmost_Some in Hv as (pre & b & -> & Hb).
  apply match_resistor_value_Some in Hb as [post ->].
  exists pre, value, post, footprint, erj_value, erj_prefix, erj_suffix.
  split; [done|]. split; [by apply leftmost_footprint|].
  split; [done|]. split; [done|]. split; [done|]. split; [|done].
  apply elem_of_list_to_map_2 in Hpre.
  repeat (apply elem_of_cons in Hpre as [Hpre|Hpre]);
    try (by apply elem_of_nil in Hpre);
    injection Hpre as -> _; set_solver.
Qed.


Lemma erj_mpn_Ok value footprint mpn :
  erj_mpn value footprint = Ok mpn →
  ∃ erj_value erj_prefix erj_suffix,
    (value, erj_value) ∈ map_to_list RESISTOR_VALUE_MAP_ERJ
    ∧ (footprint, erj_prefix) ∈ map_to_list RESISTOR_FOOTPRINT_MAP_ERJ
    ∧ (footprint, erj_suffix) ∈ map_to_list RESISTOR_FOOTPRINT_MAP_ERJ_SUFFIX
    ∧ mpn = erj_prefix ++ erj_value ++ erj_suffix.
Proof.
  unfold erj_mpn, getitem, result_bind.
  destruct (RESISTOR_VALUE_MAP_ERJ !! value) as [erj_value|] eqn:Hv; [|done].
  destruct (RESISTOR_FOOTPRINT_MAP_ERJ !! footprint) as [erj_prefix|] eqn:Hp;
    [|done].
  destruct (RESISTOR_FOOTPRINT_MAP_ERJ_SUFFIX !! footprint) as [erj_suffix|]
    eqn:Hs; [|done].
  intros [= <-]. exists erj_value, erj_prefix, erj_suffix.
  by rewrite !elem_of_map_to_list.
Qed.

(** The identifiers that [erj_mpn] makes, with what they are made
    of. *)
Lemma erj_mpn_table value footprint mpn :
  erj_mpn value footprint = Ok mpn →
  (value, footprint, mpn)
  ∈ (vc ← map_to_list RESISTOR_VALUE_MAP_ERJ;
     fp ← map_to_list RESISTOR_FOOTPRINT_MAP_ERJ;
     fs ← map_to_list RESISTOR_FOOTPRINT_MAP_ERJ_SUFFIX;
     if bool_decide (fp.1 = fs.1)
     then [(vc.1, fp.1, fp.2 ++ vc.2 ++ fs.2)] else []).
Proof.
  intros (erj_value & erj_prefix & erj_suffix & Hv & Hp & Hs & ->)%erj_mpn_Ok.
  apply list_elem_of_bind. exists (value, erj_value). split; [|done].
  apply list_elem_of_bind. exists (footprint, erj_prefix). split; [|done].
  apply list_elem_of_bind. exists (footprint, erj_suffix). split; [|done].
  cbn [fst snd]. rewrite bool_decide_eq_true_2 by done.
  by apply list_elem_of_singleton.
Qed.

(** X21. [erj_mpn] gives different identifiers to different pairs of a
    value and a footprint, and every identifier it gives has 13
    characters. *)
Theorem erj_mpn_injective value footprint value' footprint' mpn :
  erj_mpn value footprint = Ok mpn →
  erj_mpn value' footprint' = Ok mpn →
  value = value' ∧ footprint = footprint' ∧ length mpn = 13%nat.
Proof.
  intros H H'. apply erj_mpn_table in H, H'.
  set (table := _ ≫= _) in H, H'.
  assert (∀ x y, x ∈ table → y ∈ table → x.2 = y.2 →
                 x.1 = y.1 ∧ length x.2 = 13%nat) as Hinj.
  { intros x y Hx Hy.
    assert (forallb (λ x, forallb (λ y,
              if bool_decide (x.2 = y.2)
              then (bool_decide (x.1 = y.1) && (length x.2 =? 13)%nat)
              else true) table) table = true) as Hall
      by (by vm_compute).
    rewrite forallb_forall in Hall.
    apply list_elem_of_In in Hx, Hy.
    specialize (Hall x Hx). rewrite forallb_forall in Hall.
    specialize (Hall y Hy). intros Heq.
    rewrite bool_decide_eq_true_2 in Hall by done.
    apply andb_true_iff in Hall as [H1 H2].
    apply bool_decide_eq_true in H1. apply Nat.eqb_eq in H2.
    exact (conj H1 H2). }
  clearbody table.
  destruct (Hinj _ _ H H' eq_refl) as [Heq Hlen]. cbn [fst snd] in Heq, Hlen.
  injection Heq as -> ->. exact (conj eq_refl (conj eq_refl Hlen)).
Qed.

(** X22. [erj_mpn] returns exactly when the value is in the value
    table and the footprint is 0402 or 0603.  Otherwise it raises the
    [KeyError] of what is missing, of the value when both are. *)
Theorem erj_mpn_keys value footprint :
  match erj_mpn value footprint with
  | Ok mpn =>
      is_Some (RESISTOR_VALUE_MAP_ERJ !! value)
      ∧ footprint ∈ [py "0402"; py "0603"]
  | Err e =>
      (RESISTOR_VALUE_MAP_ERJ !! value = None ∧ e = KeyError value)
      ∨ (is_Some (RESISTOR_VALUE_MAP_ERJ !! value)
         ∧ (footprint ∉ [py "0402"; py "0603"])
         ∧ e = KeyError footprint)
  end.
Proof.
  assert (∀ fp, fp ∈ [py "0402"; py "0603"]
                → is_Some (RESISTOR_FOOTPRINT_MAP_ERJ !! fp)
                  ∧ is_Some (RESISTOR_FOOTPRINT_MAP_ERJ_SUFFIX !! fp))
    as Hin.
  { intros fp Hfp. repeat (apply elem_of_cons in Hfp as [->|Hfp]);
      [| |by apply elem_of_nil in Hfp]; split; eexists; by vm_compute. }
  assert (∀ fp x, RESISTOR_FOOTPRINT_MAP_ERJ !! fp = Some x
                  ∨ RESISTOR_FOOTPRINT_MAP_ERJ_SUFFIX !! fp = Some x
                  → fp ∈ [py "0402"; py "0603"]) as Hout.
  { intros fp x [H|H]; apply elem_of_list_to_map_2 in H;
      repeat (apply elem_of_cons in H as [H|H]);
      try (by apply elem_of_nil in H); injection H as -> _; set_solver. }
  unfold erj_mpn, getitem, result_bind.
  destruct (RESISTOR_VALUE_MAP_ERJ !! value) as [erj_value|] eqn:Hv;
    [|by left].
  destruct (RESISTOR_FOOTPRINT_MAP_ERJ !! footprint) as [erj_prefix|] eqn:Hp.
  - destruct (RESISTOR_FOOTPRINT_MAP_ERJ_SUFFIX !! footprint)
      as [erj_suffix|] eqn:Hs.
    + split; [by eexists|]. eapply Hout. by left.
    + exfalso. assert (footprint ∈ [py "0402"; py "0603"]) as Hfp
        by (eapply Hout; by left).
      destruct (Hin _ Hfp) as [_ [x Hx]]. congruence.
  - right. split; [by eexists|]. split; [|done].
    intros Hfp. destruct (Hin _ Hfp) as [[x Hx] _]. congruence.
Qed.

Lemma count_char_app c (a b : str) :
  count_char c (a ++ b) = (count_char c a + count_char c b)%nat.
Proof.
  unfold count_char, str, char. by rewrite list.filter_app, length_app.
Qed.

Lemma count_char_0 c (s : str) : c ∉ s → count_char c s = 0%nat.
Proof.
  unfold count_char, str, char in *. intros H.
  induction s as [|x s IH]; [done|].
  apply not_elem_of_cons in H as [Hx Hs].
  rewrite list.filter_cons_False by done. by apply IH.
Qed.

(** X23. The quantity of a BOM line is the number of its designators:
    of names without comma joined by commas, [len(s.split(","))] counts
    the names.  For the empty string it counts one. *)
Theorem split_count_join (names : list str) :
  Forall (λ name, chr "," ∉ name) names →
  split_count (join (py ",") names) = Z.of_nat (length names `max` 1).
Proof.
  intros Hnames. unfold split_count. f_equal.
  induction Hnames as [|name names Hname Hnames IH]; [done|].
  destruct names as [|name' names].
  - cbn [join length]. by rewrite count_char_0.
  - change (join (py ",") (name :: name' :: names))
      with (name ++ py "," ++ join (py ",") (name' :: names)).
    rewrite !count_char_app, count_char_0 by done.
    change (count_char (chr ",") (py ",")) with 1%nat.
    cbn [length] in *. lia.
Qed.
(** ** The spreadsheet export *)



















Lemma adjusted_width_fold (column : list (option xl_value)) (m0 : Z) :
  let m := foldl (λ max_length cell,
                    if Z.of_nat (length (cell_text cell)) >? max_length
                    then Z.of_nat (length (cell_text cell))
                    else max_length) m0 column in
  m0 ≤ m
  ∧ Forall (λ cell, Z.of_nat (length (cell_text cell)) ≤ m) column
  ∧ (m = m0 ∨ ∃ cell, cell ∈ column ∧ m = Z.of_nat (length (cell_text cell))).
Proof.
  revert m0. induction column as [|c column IH]; intros m0; cbn [foldl].
  - split; [lia|]. split; [constructor|by left].
  - cbv zeta.
    destruct (Z.gtb_spec (Z.of_nat (length (cell_text c))) m0) as [Hgt|Hle].
    + destruct (IH (Z.of_nat (length (cell_text c)))) as (H1 & H2 & H3).
      cbv zeta in H1, H2, H3. split; [lia|]. split.
      * constructor; [lia|done].
      * right. destruct H3 as [->|(cell & Hin & ->)].
        -- exists c. split; [by left|done].
        -- exists cell. split; [by right|done].
    + destruct (IH m0) as (H1 & H2 & H3). cbv zeta in H1, H2, H3.
      split; [lia|]. split.
      * constructor; [lia|done].
      * destruct H3 as [->|(cell & Hin & ->)]; [by left|].
        right. exists cell. split; [by right|done].
Qed.

(** X25. The width given to a column is two more than the length of
    its longest cell text: every cell text fits with two to spare, some
    cell text is exactly two short of the width, and a column without
    cells gets the width 2. *)
Theorem adjusted_width_longest (column : list (option xl_value)) :
  Forall (λ cell, Z.of_nat (length (cell_text cell)) + 2
                  ≤ adjusted_width column) column
  ∧ (column = [] → adjusted_width column = 2)
  ∧ (column ≠ [] →
     ∃ cell, cell ∈ column
             ∧ adjusted_width column
               = Z.of_nat (length (cell_text cell)) + 2).
Proof.
  unfold adjusted_width. cbv zeta.
  destruct (adjusted_width_fold column 0) as (H1 & H2 & H3).
  cbv zeta in H1, H2, H3. split; [|split].
  - eapply Forall_impl; [exact H2|]. intros cell Hc. cbv beta in *. lia.
  - by intros ->.
  - intros Hne. destruct H3 as [H0|(cell & Hin & ->)]; [|by eauto].
    destruct column as [|c column]; [done|].
    exists c. split; [by left|].
    apply Forall_cons in H2 as [Hc _]. rewrite H0 in *. lia.
Qed.
End Program.

(** ** The statements at work on sample data *)

Lemma find_first sub s n :
  find sub s = Some n →
  ∀ pre rest, s = pre ++ sub ++ rest → (n ≤ length pre)%nat.
Proof.
  revert n. induction s as [|c s IH]; intros n; cbn [find].
  - destruct (strip_prefix sub []) eqn:Hs; [intros [= <-]; lia|done].
  - destruct (strip_prefix sub (c :: s)) eqn:Hs; [intros [= <-]; lia|].
    destruct (find sub s) as [m|] eqn:Hf; [|done]. intros [= <-].
    intros [|c' pre] rest Heq.
    + cbn in Heq. rewrite Heq, strip_prefix_app in Hs. done.
    + cbn in Heq. injection Heq as <- ->. cbn.
      specialize (IH m eq_refl pre rest eq_refl). lia.
Qed.


(** The example of the resistor claim: 10kΩ in 0402 is ERJ-2RKF1002X. *)
Lemma parse_resistor_comment_decodes_witness :
  ∃ data,
    parse_resistor_comment (py "Resistor ±1% 10kΩ 0402") = Ok data
    ∧ data !! "mpn" = Some (VStr (py "ERJ-2RKF1002X")).
Proof.
  destruct (parse_resistor_comment_decodes
              (py "Resistor ±1% 10kΩ 0402") (py "Resistor ") (py "10kΩ")
              (py " 0402") (py "0402"))
    as (erj_prefix & erj_value & erj_suffix & data & Hp & Hv & Hs & Hd & Hm).
  - vm_compute. reflexivity.
  - intros pre' rest' Heq Hlt.
    assert (find (py "±1% ") (py "Resistor ±1% 10kΩ 0402") = Some 9%nat)
      as Hfind by (vm_compute; reflexivity).
    pose proof (find_first _ _ _ Hfind pre' rest' Heq) as Hge.
    change (length (py "Resistor ")) with 9%nat in Hlt. lia.
  - intros c rest [= <- _]. vm_compute. reflexivity.
  - eexists. vm_compute. reflexivity.
  - apply leftmost_footprint. vm_compute. reflexivity.
  - apply elem_of_cons. left. vm_compute. reflexivity.
  - exists data. split; [exact Hd|].
    rewrite Hm. vm_compute in Hp, Hv, Hs.
    injection Hp as <-. injection Hv as <-. injection Hs as <-.
    vm_compute. reflexivity.
Defined.

(** C2 as the specification states it, for every occurrence of [±1% ]
    followed by a value of the table, fails on the comment
    [Resistor ±1% 10kΩk 0402]: the pattern takes [10kΩk], which is not in
    the table, and the parser raises [KeyError].  It fails as well when
    an earlier occurrence is followed by another value, as in
    [Resistor ±1% 47kΩ ±1% 10kΩ 0402]. *)
Lemma parse_resistor_comment_takes_longest_unit :
  ¬ (∀ comment pre value post footprint : str,
       comment = pre ++ py "±1% " ++ value ++ post →
       is_Some (RESISTOR_VALUE_MAP_ERJ !! value) →
       first_four_digits comment footprint →
       footprint ∈ [py "0402"; py "0603"] →
       ∃ erj_prefix erj_value erj_suffix data,
         RESISTOR_FOOTPRINT_MAP_ERJ !! footprint = Some erj_prefix
         ∧ RESISTOR_VALUE_MAP_ERJ !! value = Some erj_value
         ∧ RESISTOR_FOOTPRINT_MAP_ERJ_SUFFIX !! footprint = Some erj_suffix
         ∧ parse_resistor_comment comment = Ok data
         ∧ data !! "mpn"
           = Some (VStr (erj_prefix ++ erj_value ++ erj_suffix)))
  ∧ parse_resistor_comment (py "Resistor ±1% 10kΩk 0402")
    = Err (KeyError (py "10kΩk"))
  ∧ parse_resistor_comment (py "Resistor ±1% 47kΩ ±1% 10kΩ 0402")
    = Err (KeyError (py "47kΩ")).
Proof.
  assert (parse_resistor_comment (py "Resistor ±1% 10kΩk 0402")
          = Err (KeyError (py "10kΩk"))) as He
    by (vm_compute; reflexivity).
  split; [|split; [exact He|vm_compute; reflexivity]].
  intros H.
  destruct (H (py "Resistor ±1% 10kΩk 0402") (py "Resistor ") (py "10kΩ")
              (py "k 0402") (py "0402"))
    as (? & ? & ? & data & _ & _ & _ & Hd & _).
  - vm_compute. reflexivity.
  - eexists. vm_compute. reflexivity.
  - apply leftmost_footprint. vm_compute. reflexivity.
  - apply elem_of_cons. left. vm_compute. reflexivity.
  - rewrite He in Hd. discriminate Hd.
Qed.


Lemma search_digikey_info_selection_witness :
  let run := catalog_response sample_clock sample_token_endpoint
               sample_search_endpoint (py "ERJ-2RKF1002X") sample_world in
  run = (Ok sample_response, snd run)
  ∧ search_digikey_info sample_clock sample_token_endpoint
      sample_search_endpoint (py "ERJ-2RKF1002X") 20 sample_world
    = (Ok (extract_product_info sample_product 20), snd run).
Proof.
  intros run.
  assert (run = (Ok sample_response, snd run)) as Hrun
    by (vm_compute; reflexivity).
  split; [exact Hrun|].
  exact (proj1 (search_digikey_info_selection sample_clock
                  sample_token_endpoint sample_search_endpoint
                  (py "ERJ-2RKF1002X") 20 sample_world (snd run)
                  sample_response Hrun)).
Defined.

Lemma cache_expiry_witness :
  let out := get_cached_digikey_response sample_clock sample_search_endpoint
               (py "https://api.digikey.com/products/v4/search/keyword") []
               (py "ERJ-2RKF1002X") 2 sample_cached_world in
  let token := get_digikey_token sample_clock sample_token_endpoint
                 CLIENT_ID CLIENT_SECRET sample_cached_world in
  (http_log (snd out) = []
   ∧ ∃ cached,
       search_files sample_cached_world !! py "ERJ-2RKF1002X.json"
       = Some cached
       ∧ fst out = Ok (response cached))
  ∧ (http_log (snd token) = []
     ∧ ∃ stored,
         token_file sample_cached_world = Some stored
         ∧ fst token = Ok (access_token stored)).
Proof.
  intros out token. split.
  - apply (proj2 (proj1 (cache_expiry sample_clock sample_token_endpoint
                           sample_search_endpoint)
                    (py "https://api.digikey.com/products/v4/search/keyword")
                    [] (py "ERJ-2RKF1002X") 2 sample_cached_world)).
    eexists. split; [vm_compute; reflexivity|]. vm_compute. reflexivity.
  - apply (proj2 (proj2 (cache_expiry sample_clock sample_token_endpoint
                           sample_search_endpoint)
                    CLIENT_ID CLIENT_SECRET sample_cached_world)).
    eexists. split; [reflexivity|]. vm_compute. reflexivity.
Defined.




(** ** The further statements at work on sample data *)

(** A response fetched for [ERJ-2RKF1002X] is served one second later
    to the keyword with a comma after it, which has the same file
    name. *)
Lemma search_cache_round_trip_witness :
  let w1 :=
    snd (get_cached_digikey_response sample_clock sample_search_endpoint
           (py "https://api.digikey.com") [] (py "ERJ-2RKF1002X") 2
           sample_world) in
  get_cached_digikey_response sample_clock sample_search_endpoint
    (py "https://api.digikey.com") [] (py "ERJ-2RKF1002X,") 2 w1
  = (Ok sample_response, tick w1).
Proof.
  intros w1.
  assert (get_cached_digikey_response sample_clock sample_search_endpoint
            (py "https://api.digikey.com") [] (py "ERJ-2RKF1002X") 2
            sample_world
          = (Ok sample_response, w1)) as Hrun
    by (vm_compute; reflexivity).
  assert (http_log w1 ≠ http_log sample_world) as Hlog
    by (intros H; vm_compute in H; discriminate H).
  destruct (search_cache_round_trip _ _ _ _ _ _ _ _ _ Hrun Hlog)
    as (cached & n & Hfiles & Hresp & Htc & Hat & Hserve).
  apply Hserve.
  - vm_compute. reflexivity.
  - rewrite Hfiles. apply lookup_insert_eq.
  - rewrite Hat. vm_compute in Htc. injection Htc as <-.
    vm_compute. reflexivity.
Defined.

(** A token fetched with the credentials of the script is returned one
    second later to a call with other credentials. *)
Lemma token_round_trip_witness :
  let w1 :=
    snd (get_digikey_token sample_clock sample_token_endpoint CLIENT_ID
           CLIENT_SECRET sample_world) in
  get_digikey_token sample_clock sample_token_endpoint (py "someone")
    (py "else") w1
  = (Ok (py "token"), tick w1).
Proof.
  intros w1.
  assert (get_digikey_token sample_clock sample_token_endpoint CLIENT_ID
            CLIENT_SECRET sample_world
          = (Ok (py "token"), w1)) as Hrun
    by (vm_compute; reflexivity).
  assert (http_log w1 ≠ http_log sample_world) as Hlog
    by (intros H; vm_compute in H; discriminate H).
  destruct (token_round_trip _ _ _ _ _ _ _ Hrun Hlog)
    as (stored & n & Hfile & Htoken & Htc & Hat & Hserve).
  apply Hserve; [exact Hfile|].
  rewrite Hat. vm_compute in Htc. injection Htc as <-.
  vm_compute in Hfile. injection Hfile as <-.
  vm_compute. reflexivity.
Defined.

Lemma search_cache_miss_witness :
  let out :=
    get_cached_digikey_response sample_clock sample_failing_search_endpoint
      (py "https://api.digikey.com") [] (py "ERJ-2RKF1002X") 2
      sample_world in
  fst out = Err (Exception (py "API request failed: Service Unavailable"))
  ∧ search_files (snd out) = ∅
  ∧ stdout (snd out) = [Fetching (py "ERJ-2RKF1002X")].
Proof.
  intros out.
  assert (¬ cached_fresh sample_clock (py "ERJ-2RKF1002X") sample_world)
    as Hmiss by (intros (cached & Hfile & _); discriminate Hfile).
  pose proof (search_cache_miss sample_clock sample_failing_search_endpoint
                (py "https://api.digikey.com") [] (py "ERJ-2RKF1002X") 2
                sample_world Hmiss) as H.
  cbv zeta in H. fold out in H.
  destruct H as (_ & Hout & _ & _ & Hfail).
  destruct Hfail as [Herr Hfiles]; [vm_compute; discriminate|].
  rewrite Herr, Hfiles, Hout. repeat split; vm_compute; reflexivity.
Defined.

Lemma token_cache_miss_witness :
  let out :=
    get_digikey_token sample_clock sample_refusing_token_endpoint CLIENT_ID
      CLIENT_SECRET sample_world in
  fst out = Err (HTTPError 401) ∧ token_file (snd out) = None.
Proof.
  intros out.
  assert (¬ token_fresh sample_clock sample_world) as Hmiss
    by (intros (token & Hfile & _); discriminate Hfile).
  pose proof (token_cache_miss sample_clock sample_refusing_token_endpoint
                CLIENT_ID CLIENT_SECRET sample_world Hmiss) as H.
  cbv zeta in H. fold out in H.
  destruct H as (_ & _ & _ & Hfail & _).
  apply Hfail. vm_compute. split; [discriminate|reflexivity].
Defined.

Lemma search_digikey_info_token_failure_witness :
  let out :=
    search_digikey_info sample_clock sample_refusing_token_endpoint
      sample_search_endpoint (py "ERJ-2RKF1002X") 10 sample_world in
  fst out = Err (HTTPError 401)
  ∧ length (http_log (snd out)) = 1%nat
  ∧ stdout (snd out) = [].
Proof.
  intros out.
  assert (¬ token_fresh sample_clock sample_world) as Hmiss
    by (intros (token & Hfile & _); discriminate Hfile).
  pose proof (search_digikey_info_token_failure sample_clock
                sample_refusing_token_endpoint sample_search_endpoint
                (py "ERJ-2RKF1002X") 10 sample_world Hmiss) as H.
  cbv zeta in H. fold out in H.
  destruct H as (Herr & Hlog & Hout & _).
  - vm_compute. split; [discriminate|reflexivity].
  - rewrite Herr, Hlog, Hout. done.
Defined.

Lemma parse_bom_row_dni_witness :
  parse_bom_row ascii_decimal sample_clock sample_token_endpoint
    sample_search_endpoint sample_dni_row 5 sample_world
  = (Ok (dni_record sample_dni_row), sample_world).
Proof.
  apply parse_bom_row_dni; vm_compute; reflexivity.
Defined.

Lemma parse_bom_row_undecodable_witness :
  parse_bom_row ascii_decimal sample_clock sample_token_endpoint
    sample_search_endpoint sample_marked_resistor_row 5 sample_world
  = (Err (ValueError (py "Invalid resistor comment")), sample_world).
Proof.
  apply parse_bom_row_undecodable. left. split; vm_compute; reflexivity.
Defined.


Lemma parse_bom_row_ignores_lcsc_witness :
  parse_bom_row ascii_decimal sample_clock sample_token_endpoint
    sample_search_endpoint
    {| LCSC := py "no such part";
       Designator := Designator sample_resistor_row;
       Comment := Comment sample_resistor_row |} 5 sample_world
  = parse_bom_row ascii_decimal sample_clock sample_token_endpoint
      sample_search_endpoint sample_resistor_row 5 sample_world.
Proof.
  apply (parse_bom_row_ignores_lcsc ascii_decimal sample_clock
           sample_token_endpoint sample_search_endpoint sample_resistor_row
           (py "no such part") 5 sample_world).
  vm_compute. reflexivity.
Defined.

Lemma parse_bom_row_keyword_witness :
  canonical_mpn (LCSC sample_unpriced_row) = py "SC0914(13)"
  ∧ snd (parse_bom_row ascii_decimal sample_clock sample_token_endpoint
           sample_search_endpoint sample_unpriced_row 5 sample_world)
    = snd (search_digikey_info sample_clock sample_token_endpoint
             sample_search_endpoint (canonical_mpn (LCSC sample_unpriced_row))
             (order_quantity_of sample_unpriced_row 5) sample_world).
Proof.
  split; [vm_compute; reflexivity|].
  pose proof (parse_bom_row_keyword ascii_decimal sample_clock
                sample_token_endpoint sample_search_endpoint
                sample_unpriced_row 5 sample_world) as H.
  cbv zeta in H.
  destruct H as (_ & Hw & _); [vm_compute; reflexivity..|].
  exact Hw.
Defined.

Lemma parse_resistor_comment_sound_witness :
  ∃ data footprint,
    parse_resistor_comment (py "Resistor ±1% 10kΩ 0402") = Ok data
    ∧ first_four_digits (py "Resistor ±1% 10kΩ 0402") footprint
    ∧ data !! "footprint" = Some (VStr footprint).
Proof.
  set (data := match parse_resistor_comment (py "Resistor ±1% 10kΩ 0402")
               with Ok data => data | Err _ => ∅ end).
  assert (parse_resistor_comment (py "Resistor ±1% 10kΩ 0402") = Ok data)
    as Hrun by (vm_compute; reflexivity).
  destruct (parse_resistor_comment_sound _ _ Hrun)
    as (pre & value & post & footprint & erj_value & erj_prefix & erj_suffix
        & _ & Hfp & _ & _ & _ & _ & Hdata).
  exists data, footprint. split; [exact Hrun|]. split; [exact Hfp|].
  rewrite Hdata. rewrite lookup_insert_ne by done.
  rewrite lookup_insert_ne by done. apply lookup_insert_eq.
Defined.


Lemma erj_mpn_injective_witness :
  erj_mpn (py "4.7kΩ") (py "0603") = Ok (py "ERJ-3EKF4701V")
  ∧ length (py "ERJ-3EKF4701V") = 13%nat.
Proof.
  assert (erj_mpn (py "4.7kΩ") (py "0603") = Ok (py "ERJ-3EKF4701V")) as H
    by (vm_compute; reflexivity).
  split; [exact H|].
  exact (proj2 (proj2 (erj_mpn_injective _ _ _ _ _ H H))).
Defined.

Lemma split_count_join_witness :
  split_count (join (py ",") [py "R1"; py "R2"; py "R3"]) = 3.
Proof.
  apply (split_count_join [py "R1"; py "R2"; py "R3"]).
  repeat constructor; apply (bool_decide_unpack _); vm_compute; reflexivity.
Defined.


Lemma search_digikey_info_cached_witness :
  search_digikey_info sample_clock sample_token_endpoint
    sample_search_endpoint (py "ERJ-2RKF1002X") 20 sample_cached_world
  = (Ok (extract_product_info sample_product 20),
     tick (tick sample_cached_world)).
Proof.
  set (token := {| access_token := py "token"; expires_in := Qc_of_Z 599;
                   expires_at := Qc_of_Z (1700000000 + 600) |}).
  set (cached := {| response := sample_response;
                    cached_at := Qc_of_Z (1700000000 - 3600);
                    cached_request :=
                      SearchRequest (py "https://api.digikey.com") []
                        (py "ERJ-2RKF1002X") 2 |}).
  apply (search_digikey_info_cached sample_clock sample_token_endpoint
           sample_search_endpoint (py "ERJ-2RKF1002X") 20
           sample_cached_world token cached).
  - reflexivity.
  - vm_compute. reflexivity.
  - vm_compute. reflexivity.
  - vm_compute. reflexivity.
Defined.
